(** * JO&SO AI concierge: a shallow embedding of [server.js]

    The service is a small Express application: it pages hotel items out of a
    CMS, keeps them in a process-wide cache, normalises the loosely named CMS
    fields into hotel records, and shapes the request to and the reply from a
    chat-completion API.  The repository holds two variants of the server: the
    current [server.js] and an earlier one (here: the legacy variant) that
    still has the [/api/hotels/markers] and [/api/cms/stats] routes.

    The embedding follows the JavaScript text: dynamically typed values are a
    tagged union [JSValue]; [||], [&&], [?.], [===] and the string builtins the
    code calls are functions on it; thrown errors are an explicit [Result];
    the network, the clock and the two [JSON] builtins the handlers call are
    parameters of the sections that use them. *)

From Stdlib Require Import ZArith List String Ascii Bool Arith Lia.
Import ListNotations.

Open Scope string_scope.
Open Scope list_scope.

(** String concatenation has its own symbol so that [++] stays with lists. *)
Infix "^^" := String.append (at level 60, right associativity).

(* ================================================================= *)
(** ** JavaScript numbers *)

(** A number is [NaN], an infinity, or a decimal [m * 10^e] that stands for
    the binary64 value nearest to it.  Reading a decimal rounds it the way
    binary64 does at the two ends of the range ([toDouble] below): to zero
    when its magnitude is at most [2^-1075], to an infinity when it is at
    least [2^1024 - 2^970].  Between those bounds the decimal is kept as it
    is written: the rounding to 53 bits is not modelled (no arithmetic is
    done on coordinates: they are parsed, tested for truthiness and passed
    on).  [-0] is the same value as [0]: the program never tells them apart
    (both are falsy and both print as ["0"]). *)
Inductive JSNum : Type :=
| NaN
| Infinity (neg : bool)
| Finite (m : Z) (e : Z).

Fixpoint stripZeros (fuel : nat) (m e : Z) : JSNum :=
  match fuel with
  | O => Finite m e
  | S fuel' =>
      if (m mod 10 =? 0)%Z then stripZeros fuel' (m / 10)%Z (e + 1)%Z
      else Finite m e
  end.

(** The canonical form of [m * 10^e]: zero is [Finite 0 0]; otherwise the
    mantissa does not end in a decimal zero. *)
Definition mkFinite (m e : Z) : JSNum :=
  if (m =? 0)%Z then Finite 0 0
  else stripZeros (S (Z.to_nat (Z.log2 (Z.abs m)))) m e.

(** [x * 10^e <= y] and [y <= x * 10^e], on integers. *)
Definition scaledLe (x e y : Z) : bool :=
  (x * 10 ^ Z.max 0 e <=? y * 10 ^ Z.max 0 (- e))%Z.

Definition scaledGe (x e y : Z) : bool :=
  (y * 10 ^ Z.max 0 (- e) <=? x * 10 ^ Z.max 0 e)%Z.

(** The decimal [m * 10^e] is at most half the smallest positive double,
    [2^-1075], in magnitude: it reads as zero (a tie goes to the even
    neighbour, which is zero). *)
Definition roundsToZero (m e : Z) : bool :=
  scaledLe (Z.abs m * 2 ^ 1075) e 1.

(** The decimal is at least [2^1024 - 2^970] in magnitude, half an ulp above
    the largest finite double: it reads as an infinity. *)
Definition roundsToInfinity (m e : Z) : bool :=
  scaledGe (Z.abs m) e (2 ^ 1024 - 2 ^ 970).

(** The number a decimal literal [m * 10^e] is read as. *)
Definition toDouble (m e : Z) : JSNum :=
  if roundsToZero m e then Finite 0 0
  else if roundsToInfinity m e then Infinity (m <? 0)%Z
  else mkFinite m e.

Definition canonNum (n : JSNum) : JSNum :=
  match n with
  | Finite m e => mkFinite m e
  | _ => n
  end.

Definition numTruthy (n : JSNum) : bool :=
  match n with
  | NaN => false
  | Infinity _ => true
  | Finite m _ => negb (m =? 0)%Z
  end.

(** [===] on numbers: [NaN] equals nothing. *)
Definition numEq (a b : JSNum) : bool :=
  match canonNum a, canonNum b with
  | Infinity s, Infinity s' => Bool.eqb s s'
  | Finite m e, Finite m' e' => (m =? m')%Z && (e =? e')%Z
  | _, _ => false
  end.

(* ================================================================= *)
(** ** JavaScript values *)

#[warnings="-register-all"]
Inductive JSValue : Type :=
| JUndefined
| JNull
| JBool (b : bool)
| JNum (n : JSNum)
| JStr (s : string)
| JArr (elems : list JSValue)
| JObj (props : list (string * JSValue)).

Definition truthy (v : JSValue) : bool :=
  match v with
  | JUndefined | JNull => false
  | JBool b => b
  | JNum n => numTruthy n
  | JStr s => negb (s =? "")
  | JArr _ | JObj _ => true
  end.

Definition nullish (v : JSValue) : bool :=
  match v with
  | JUndefined | JNull => true
  | _ => false
  end.

(** [a || b] and [a && b]. *)
Definition jor (a b : JSValue) : JSValue := if truthy a then a else b.
Definition jand (a b : JSValue) : JSValue := if truthy a then b else a.
Infix "|||" := jor (at level 50, left associativity).
Infix "&&&" := jand (at level 40, left associativity).

(** [!a]. *)
Definition jnot (a : JSValue) : JSValue := JBool (negb (truthy a)).

(** An object is its list of properties, first binding of a key first. *)
Fixpoint lookup (k : string) (ps : list (string * JSValue)) : JSValue :=
  match ps with
  | [] => JUndefined
  | (k', v) :: rest => if k' =? k then v else lookup k rest
  end.

(** [v.k] (or [v['k']]) on a receiver that is neither [undefined] nor [null].
    The keys the program reads are data keys ([name], [slug], [fieldData],
    [items], ...); none of them is a built-in property of a string, number,
    boolean or array, so on those receivers the access yields [undefined]. *)
Definition prop (v : JSValue) (k : string) : JSValue :=
  match v with
  | JObj ps => lookup k ps
  | _ => JUndefined
  end.

(** [v?.k]. *)
Definition optProp (v : JSValue) (k : string) : JSValue :=
  if nullish v then JUndefined else prop v k.

(** [a === b].  Arrays and objects are compared by reference; the two sides of
    every [===] of the program come from different sources (a cached CMS field
    against a route parameter or a slug of the parsed reply), so two objects
    are never the same reference. *)
Definition strictEq (a b : JSValue) : bool :=
  match a, b with
  | JUndefined, JUndefined => true
  | JNull, JNull => true
  | JBool x, JBool y => Bool.eqb x y
  | JNum x, JNum y => numEq x y
  | JStr x, JStr y => (x =? y)
  | _, _ => false
  end.

(* ================================================================= *)
(** ** Thrown errors *)

Inductive JSError : Type :=
| TypeError
| SyntaxError
| NetworkError
| GenericError.

Inductive Result (A : Type) : Type :=
| Ok (a : A)
| Throw (e : JSError).
Arguments Ok {A} a.
Arguments Throw {A} e.

Definition bind {A B : Type} (r : Result A) (k : A -> Result B) : Result B :=
  match r with
  | Ok a => k a
  | Throw e => Throw e
  end.

Notation "'let*' x ':=' r 'in' k" := (bind r (fun x => k))
  (at level 10, x name, r at level 100, k at level 200).

(** [v.k] where [v] may be [undefined] or [null]: then a [TypeError]. *)
Definition getProp (v : JSValue) (k : string) : Result JSValue :=
  if nullish v then Throw TypeError else Ok (prop v k).

(** [xs.filter(p)], [xs.find(p)] and [xs.map(f)] with a callback that may
    throw: elements are visited left to right and the first throw ends the
    call. *)
Fixpoint filterR {A : Type} (p : A -> Result bool) (xs : list A) : Result (list A) :=
  match xs with
  | [] => Ok []
  | x :: rest =>
      let* keep := p x in
      let* rest' := filterR p rest in
      Ok (if keep then x :: rest' else rest')
  end.

Fixpoint findR {A : Type} (p : A -> Result bool) (xs : list A) : Result (option A) :=
  match xs with
  | [] => Ok None
  | x :: rest =>
      let* hit := p x in
      if hit then Ok (Some x) else findR p rest
  end.

Fixpoint mapR {A B : Type} (f : A -> Result B) (xs : list A) : Result (list B) :=
  match xs with
  | [] => Ok []
  | x :: rest =>
      let* y := f x in
      let* rest' := mapR f rest in
      Ok (y :: rest')
  end.

(* ================================================================= *)
(** ** String builtins *)

(** Strings are sequences of 8-bit code units. *)

Fixpoint takeStr (n : nat) (s : string) : string :=
  match n, s with
  | S n', String c s' => String c (takeStr n' s')
  | _, _ => ""
  end.

Fixpoint dropStr (n : nat) (s : string) : string :=
  match n, s with
  | S n', String _ s' => dropStr n' s'
  | _, _ => s
  end.

(** [s.startsWith(p)]. *)
Fixpoint startsWith (s p : string) : bool :=
  match p, s with
  | "", _ => true
  | String a p', String b s' => Ascii.eqb a b && startsWith s' p'
  | String _ _, "" => false
  end.

(** [s.endsWith(p)]. *)
Definition endsWith (s p : string) : bool :=
  (String.length p <=? String.length s)%nat
  && (dropStr (String.length s - String.length p) s =? p).

(** [s.slice(n)] for a literal [n >= 0]. *)
Definition sliceFrom (n : nat) (s : string) : string := dropStr n s.

(** [s.slice(0, -n)]. *)
Definition sliceDropLast (n : nat) (s : string) : string :=
  takeStr (String.length s - n) s.

(** [s.substring(0, n)]. *)
Definition substring0 (n : nat) (s : string) : string := takeStr n s.

(** [s.includes(p)]. *)
Fixpoint includes (s p : string) : bool :=
  startsWith s p
  || match s with
     | "" => false
     | String _ s' => includes s' p
     end.

(** White space and line terminators removed by [trim] (and skipped by
    [parseFloat]): TAB, LF, VT, FF, CR, SP and NBSP. *)
Definition isWhiteSpace (c : ascii) : bool :=
  let n := nat_of_ascii c in
  ((9 <=? n) && (n <=? 13) || (n =? 32) || (n =? 160))%nat.

Fixpoint trimStart (s : string) : string :=
  match s with
  | String c s' => if isWhiteSpace c then trimStart s' else s
  | "" => ""
  end.

Fixpoint trimEnd (s : string) : string :=
  match s with
  | "" => ""
  | String c s' =>
      let r := trimEnd s' in
      if isWhiteSpace c && (r =? "") then "" else String c r
  end.

Definition trim (s : string) : string := trimEnd (trimStart s).

(** [s.toLowerCase()]: A-Z, and the upper-case letters of Latin-1. *)
Definition lowerChar (c : ascii) : ascii :=
  let n := nat_of_ascii c in
  if ((65 <=? n) && (n <=? 90)
      || (192 <=? n) && (n <=? 222) && negb (n =? 215))%nat
  then ascii_of_nat (n + 32) else c.

Fixpoint toLowerCase (s : string) : string :=
  match s with
  | "" => ""
  | String c s' => String (lowerChar c) (toLowerCase s')
  end.

Fixpoint joinStr (sep : string) (parts : list string) : string :=
  match parts with
  | [] => ""
  | [p] => p
  | p :: rest => p ^^ sep ^^ joinStr sep rest
  end.

(** [xs.slice(-n)]: the last [n] elements (all of them when there are fewer). *)
Definition sliceLast {A : Type} (n : nat) (xs : list A) : list A :=
  skipn (List.length xs - n) xs.

(* ================================================================= *)
(** ** Numbers and text: [String(n)], [parseFloat] *)

Definition isDigit (c : ascii) : bool :=
  let n := nat_of_ascii c in ((48 <=? n) && (n <=? 57))%nat.

Definition digitChar (d : Z) : ascii := ascii_of_nat (48 + Z.to_nat d).
Definition digitVal (c : ascii) : Z := Z.of_nat (nat_of_ascii c - 48).

(** The decimal digits of a positive integer, most significant first. *)
Fixpoint digitsFuel (fuel : nat) (n : Z) : string :=
  match fuel with
  | O => ""
  | S fuel' =>
      if (n <? 10)%Z then String (digitChar n) ""
      else digitsFuel fuel' (n / 10)%Z ^^ String (digitChar (n mod 10)%Z) ""
  end.

Definition digitsOf (n : Z) : string :=
  digitsFuel (S (Z.to_nat (Z.log2 n))) n.

(** The value of a run of decimal digits, continuing from [acc]. *)
Fixpoint digitsValue (acc : Z) (ds : string) : Z :=
  match ds with
  | "" => acc
  | String c ds' => digitsValue (acc * 10 + digitVal c)%Z ds'
  end.

(** The longest prefix of decimal digits, and what follows it. *)
Fixpoint spanDigits (s : string) : string * string :=
  match s with
  | String c s' =>
      if isDigit c then let (ds, rest) := spanDigits s' in (String c ds, rest)
      else ("", s)
  | "" => ("", "")
  end.

Fixpoint zeros (n : nat) : string :=
  match n with
  | O => ""
  | S n' => String "0" (zeros n')
  end.

(** [Number::toString] (radix 10) of ECMA-262, for a positive canonical
    [m * 10^e]: with [k] digits and [n = k + e], plain digits when
    [k <= n <= 21], a decimal point inside when [0 < n <= 21], leading
    ["0."] when [-6 < n <= 0], and exponent notation otherwise. *)
Definition positiveToString (m e : Z) : string :=
  let ds := digitsOf m in
  let k := Z.of_nat (String.length ds) in
  let n := (k + e)%Z in
  if ((k <=? n) && (n <=? 21))%Z then ds ^^ zeros (Z.to_nat (n - k))
  else if ((0 <? n) && (n <=? 21))%Z then
    takeStr (Z.to_nat n) ds ^^ "." ^^ dropStr (Z.to_nat n) ds
  else if ((-6 <? n) && (n <=? 0))%Z then
    "0." ^^ zeros (Z.to_nat (- n)) ^^ ds
  else
    let x := (n - 1)%Z in
    let expo := (if (x <? 0)%Z then "-" else "+") ^^ digitsOf (Z.abs x) in
    match ds with
    | String d "" => String d "" ^^ "e" ^^ expo
    | String d rest => String d "" ^^ "." ^^ rest ^^ "e" ^^ expo
    | "" => ""
    end.

Definition numToString (x : JSNum) : string :=
  match canonNum x with
  | NaN => "NaN"
  | Infinity false => "Infinity"
  | Infinity true => "-Infinity"
  | Finite m e =>
      if (m =? 0)%Z then "0"
      else if (m <? 0)%Z then "-" ^^ positiveToString (- m) e
      else positiveToString m e
  end.

(** The text [String(v)] evaluates to, as template literals and [parseFloat]
    apply it, for a value that converts (see [printable] and [stringOf]
    below).  An object is a plain object (it came out of [JSON.parse]). *)
Fixpoint toString (v : JSValue) : string :=
  match v with
  | JUndefined => "undefined"
  | JNull => "null"
  | JBool true => "true"
  | JBool false => "false"
  | JNum n => numToString n
  | JStr s => s
  | JArr elems =>
      joinStr ","
        ((fix each (l : list JSValue) : list string :=
            match l with
            | [] => []
            | x :: l' => (if nullish x then "" else toString x) :: each l'
            end) elems)
  | JObj _ => "[object Object]"
  end.

(** Whether [String(v)] returns.  A plain object converts through the
    inherited [toString] unless it has a key [toString] of its own: what
    [JSON.parse] puts under that key cannot be called, the inherited
    [valueOf] returns the object itself, and the conversion ends in a
    [TypeError].  An array converts its elements, other than [undefined] and
    [null], one by one. *)
Fixpoint printable (v : JSValue) : bool :=
  match v with
  | JObj ps => negb (existsb (fun kv : string * JSValue => fst kv =? "toString") ps)
  | JArr elems =>
      (fix each (l : list JSValue) : bool :=
         match l with
         | [] => true
         | x :: l' => (nullish x || printable x) && each l'
         end) elems
  | _ => true
  end.

(** [String(v)], and the [${v}] of a template literal. *)
Definition stringOf (v : JSValue) : Result string :=
  if printable v then Ok (toString v) else Throw TypeError.

Definition signOf (s : string) : bool * string :=
  match s with
  | String "-" r => (true, r)
  | String "+" r => (false, r)
  | _ => (false, s)
  end.

(** The exponent part [e[+-]digits] at the head of [s]; 0 when there is none
    (an [e] not followed by digits is not part of the number). *)
Definition exponentOf (s : string) : Z :=
  match s with
  | String c r =>
      if (Ascii.eqb c "e" || Ascii.eqb c "E")%bool then
        let (neg, r') := signOf r in
        let (ds, _) := spanDigits r' in
        if ds =? "" then 0%Z
        else if neg then (- digitsValue 0 ds)%Z else digitsValue 0 ds
      else 0%Z
  | "" => 0%Z
  end.

(** The decimal literal at the head of [s]: digits with an optional fraction
    and exponent, as the integer its digits spell and the power of ten that
    scales it; [None] when [s] does not start with one. *)
Definition decimalOf (s : string) : option (Z * Z) :=
  let (ip, r1) := spanDigits s in
  let (fp, r2) :=
    match r1 with
    | String "." r => spanDigits r
    | _ => ("", r1)
    end in
  if (ip =? "") && (fp =? "") then None
  else Some (digitsValue 0 (ip ^^ fp),
             (exponentOf r2 - Z.of_nat (String.length fp))%Z).

(** [parseFloat] on a string: skip leading white space, then read the longest
    prefix that is a signed decimal literal or [Infinity]; [NaN] when there is
    none. *)
Definition parseFloatStr (s : string) : JSNum :=
  let (neg, s1) := signOf (trimStart s) in
  if startsWith s1 "Infinity" then Infinity neg
  else
    match decimalOf s1 with
    | None => NaN
    | Some (m, e) => toDouble (if neg then (- m)%Z else m) e
    end.

(** [parseFloat(v)] for a value that converts: the argument is converted to
    a string first. *)
Definition parseFloat (v : JSValue) : JSValue :=
  JNum (parseFloatStr (toString v)).

(* ================================================================= *)
(** ** A reference [JSON.parse] *)

(** The handlers are stated over any [JSON.parse] and [JSON.stringify]; this
    parser of the JSON grammar (ECMA-404) over 8-bit text, and the printer
    after it, run them on concrete requests and replies.  A
    [\u] escape above [00FF] names a code unit outside the 8-bit alphabet and
    is refused. *)

Definition dquote : ascii := ascii_of_nat 34.
Definition backslash : ascii := ascii_of_nat 92.

Definition isJsonWs (c : ascii) : bool :=
  let n := nat_of_ascii c in
  ((n =? 32) || (n =? 9) || (n =? 10) || (n =? 13))%nat.

Fixpoint skipWs (s : string) : string :=
  match s with
  | String c r => if isJsonWs c then skipWs r else s
  | "" => ""
  end.

Definition hexVal (c : ascii) : option nat :=
  let n := nat_of_ascii c in
  if ((48 <=? n) && (n <=? 57))%nat then Some (n - 48)
  else if ((65 <=? n) && (n <=? 70))%nat then Some (n - 55)
  else if ((97 <=? n) && (n <=? 102))%nat then Some (n - 87)
  else None.

Definition unescape (c : ascii) : option ascii :=
  if Ascii.eqb c dquote then Some dquote
  else if Ascii.eqb c backslash then Some backslash
  else if Ascii.eqb c "/" then Some "/"%char
  else if Ascii.eqb c "b" then Some (ascii_of_nat 8)
  else if Ascii.eqb c "f" then Some (ascii_of_nat 12)
  else if Ascii.eqb c "n" then Some (ascii_of_nat 10)
  else if Ascii.eqb c "r" then Some (ascii_of_nat 13)
  else if Ascii.eqb c "t" then Some (ascii_of_nat 9)
  else None.

(** The characters of a string literal after its opening quote, up to the
    closing quote, and the text after it. *)
Fixpoint parseStringBody (s : string) : option (string * string) :=
  match s with
  | "" => None
  | String c r =>
      if Ascii.eqb c dquote then Some ("", r)
      else if Ascii.eqb c backslash then
        match r with
        | String "u" (String h1 (String h2 (String h3 (String h4 r')))) =>
            match hexVal h1, hexVal h2, hexVal h3, hexVal h4 with
            | Some a, Some b, Some c', Some d =>
                if ((a =? 0) && (b =? 0))%nat then
                  match parseStringBody r' with
                  | Some (body, rest) =>
                      Some (String (ascii_of_nat (16 * c' + d)) body, rest)
                  | None => None
                  end
                else None
            | _, _, _, _ => None
            end
        | String e r' =>
            match unescape e with
            | Some ch =>
                match parseStringBody r' with
                | Some (body, rest) => Some (String ch body, rest)
                | None => None
                end
            | None => None
            end
        | "" => None
        end
      else if (nat_of_ascii c <? 32)%nat then None
      else
        match parseStringBody r with
        | Some (body, rest) => Some (String c body, rest)
        | None => None
        end
  end.

(** A JSON number: [-? (0 | [1-9] digits) (. digits)? ([eE] [+-]? digits)?]. *)
Definition parseNumber (s : string) : option (JSNum * string) :=
  let (neg, s1) :=
    match s with
    | String "-" r => (true, r)
    | _ => (false, s)
    end in
  let (ip, r1) := spanDigits s1 in
  if (ip =? "") || (startsWith ip "0" && (1 <? String.length ip)%nat) then None
  else
    let frac :=
      match r1 with
      | String "." r =>
          let (fp, r2) := spanDigits r in
          if fp =? "" then None else Some (fp, r2)
      | _ => Some ("", r1)
      end in
    match frac with
    | None => None
    | Some (fp, r2) =>
        let expo :=
          match r2 with
          | String c r =>
              if (Ascii.eqb c "e" || Ascii.eqb c "E")%bool then
                let (eneg, r') := signOf r in
                let (ds, r3) := spanDigits r' in
                if ds =? "" then None
                else Some (if eneg then (- digitsValue 0 ds)%Z
                           else digitsValue 0 ds, r3)
              else Some (0%Z, r2)
          | "" => Some (0%Z, r2)
          end in
        match expo with
        | None => None
        | Some (x, r3) =>
            let m := digitsValue 0 (ip ^^ fp) in
            Some (toDouble (if neg then (- m)%Z else m)
                           (x - Z.of_nat (String.length fp))%Z, r3)
        end
    end.

(** [obj[k] = v] while an object literal is read: a repeated key keeps its
    place and takes the later value. *)
Fixpoint setProp (k : string) (v : JSValue) (ps : list (string * JSValue))
  : list (string * JSValue) :=
  match ps with
  | [] => [(k, v)]
  | (k', v') :: rest =>
      if k' =? k then (k', v) :: rest else (k', v') :: setProp k v rest
  end.

Fixpoint parseValue (fuel : nat) (s : string) : option (JSValue * string) :=
  match fuel with
  | O => None
  | S fuel' =>
      match skipWs s with
      | "" => None
      | String c r as s1 =>
          if Ascii.eqb c "{" then
            match skipWs r with
            | String "}" r' => Some (JObj [], r')
            | r' => parseMembers fuel' [] r'
            end
          else if Ascii.eqb c "[" then
            match skipWs r with
            | String "]" r' => Some (JArr [], r')
            | r' => parseElements fuel' [] r'
            end
          else if Ascii.eqb c dquote then
            match parseStringBody r with
            | Some (str, r') => Some (JStr str, r')
            | None => None
            end
          else if startsWith s1 "true" then Some (JBool true, dropStr 4 s1)
          else if startsWith s1 "false" then Some (JBool false, dropStr 5 s1)
          else if startsWith s1 "null" then Some (JNull, dropStr 4 s1)
          else
            match parseNumber s1 with
            | Some (n, r') => Some (JNum n, r')
            | None => None
            end
      end
  end

with parseElements (fuel : nat) (acc : list JSValue) (s : string)
  : option (JSValue * string) :=
  match fuel with
  | O => None
  | S fuel' =>
      match parseValue fuel' s with
      | None => None
      | Some (v, r) =>
          match skipWs r with
          | String "," r' => parseElements fuel' (acc ++ [v]) r'
          | String "]" r' => Some (JArr (acc ++ [v]), r')
          | _ => None
          end
      end
  end

with parseMembers (fuel : nat) (acc : list (string * JSValue)) (s : string)
  : option (JSValue * string) :=
  match fuel with
  | O => None
  | S fuel' =>
      match skipWs s with
      | String c r =>
          if Ascii.eqb c dquote then
            match parseStringBody r with
            | None => None
            | Some (k, r1) =>
                match skipWs r1 with
                | String ":" r2 =>
                    match parseValue fuel' r2 with
                    | None => None
                    | Some (v, r3) =>
                        match skipWs r3 with
                        | String "," r4 => parseMembers fuel' (setProp k v acc) r4
                        | String "}" r4 => Some (JObj (setProp k v acc), r4)
                        | _ => None
                        end
                    end
                | _ => None
                end
            end
          else None
      | "" => None
      end
  end.

(** [JSON.parse(text)]: one value, white space around it, nothing else. *)
Definition jsonParse (text : string) : Result JSValue :=
  match parseValue (2 * String.length text + 2) text with
  | Some (v, rest) => if skipWs rest =? "" then Ok v else Throw SyntaxError
  | None => Throw SyntaxError
  end.

(** A reference [JSON.stringify]: [undefined] for [undefined]; in an array
    [undefined] prints as [null]; in an object a property whose value is
    [undefined] is left out; [NaN] and the infinities print as [null]. *)
Definition hexChar (n : nat) : ascii :=
  if (n <? 10)%nat then ascii_of_nat (48 + n) else ascii_of_nat (87 + n).

Definition escapeChar (c : ascii) : string :=
  let n := nat_of_ascii c in
  if Ascii.eqb c dquote then String backslash (String dquote "")
  else if Ascii.eqb c backslash then String backslash (String backslash "")
  else if (n =? 8)%nat then String backslash "b"
  else if (n =? 12)%nat then String backslash "f"
  else if (n =? 10)%nat then String backslash "n"
  else if (n =? 13)%nat then String backslash "r"
  else if (n =? 9)%nat then String backslash "t"
  else if (n <? 32)%nat then
    String backslash "u00"
    ^^ String (hexChar (n / 16)) (String (hexChar (n mod 16)) "")
  else String c "".

Fixpoint escapeStr (s : string) : string :=
  match s with
  | "" => ""
  | String c r => escapeChar c ^^ escapeStr r
  end.

Definition quoteStr (s : string) : string :=
  String dquote (escapeStr s) ^^ String dquote "".

Fixpoint stringifyValue (v : JSValue) : string :=
  match v with
  | JUndefined | JNull => "null"
  | JBool true => "true"
  | JBool false => "false"
  | JNum (Finite m e) => numToString (Finite m e)
  | JNum _ => "null"
  | JStr s => quoteStr s
  | JArr elems =>
      "[" ^^ joinStr ","
        ((fix each (l : list JSValue) : list string :=
            match l with
            | [] => []
            | x :: l' => stringifyValue x :: each l'
            end) elems) ^^ "]"
  | JObj props =>
      "{" ^^ joinStr ","
        ((fix each (l : list (string * JSValue)) : list string :=
            match l with
            | [] => []
            | (_, JUndefined) :: l' => each l'
            | (k, x) :: l' => (quoteStr k ^^ ":" ^^ stringifyValue x) :: each l'
            end) props) ^^ "}"
  end.

Definition jsonStringify (v : JSValue) : JSValue :=
  match v with
  | JUndefined => JUndefined
  | _ => JStr (stringifyValue v)
  end.

(** Rocq string literals here hold no double quote: a JSON text is written
    with apostrophes and [dq] puts the double quotes in. *)
Fixpoint dq (s : string) : string :=
  match s with
  | "" => ""
  | String c r => String (if Ascii.eqb c "'" then dquote else c) (dq r)
  end.

Definition LF : string := String (ascii_of_nat 10) "".

(* ================================================================= *)
(** ** The service: environment, cache, network *)

(** [process.env.X]: a string, or [undefined] when the variable is not set. *)
Record Env : Type := {
  WEBFLOW_API_TOKEN_env : option string;
  WEBFLOW_SITE_ID_env : option string;
  ANTHROPIC_API_KEY_env : option string;
  MAPBOX_TOKEN_env : option string
}.

Definition envValue (x : option string) : JSValue :=
  match x with
  | Some s => JStr s
  | None => JUndefined
  end.

(** [cmsCache]; [lastFetch] is [null] or a [Date.now()] timestamp. *)
Record Cache : Type := {
  hotels : list JSValue;
  regions : list JSValue;
  collections : list JSValue;
  lastFetch : option Z
}.

Definition cmsCache0 : Cache :=
  {| hotels := []; regions := []; collections := []; lastFetch := None |}.

Definition CACHE_DURATION : Z := 30 * 60 * 1000.

(** The three outbound calls, by what their URL, headers and body carry. *)
Inductive Request : Type :=
| ListCollections (bearer : string) (siteId : string)
| ListItems (bearer : string) (collectionId : string) (offset limit : nat)
| CreateMessage (apiKey : string) (model : string) (max_tokens : nat)
    (system : string) (messages : list JSValue).

(** What [fetch] resolves to: [ok], [status], and what [response.json()]
    resolves to (it rejects on a body that is not JSON). *)
Record Response : Type := {
  ok : bool;
  status : nat;
  json : Result JSValue
}.

(** [fetch] rejects when the network fails, and resolves to a response
    otherwise, whatever its status. *)
Inductive FetchOutcome : Type :=
| Rejected
| Responded (r : Response).

Record HttpResponse : Type := {
  statusCode : nat;
  body : JSValue
}.

Definition numOfNat (n : nat) : JSNum := mkFinite (Z.of_nat n) 0.

(** [xs.length === n] for the value [xs]. *)
Definition lengthIs (xs : JSValue) (n : nat) : bool :=
  match xs with
  | JArr l => (List.length l =? n)%nat
  | JStr s => (String.length s =? n)%nat
  | _ => strictEq (prop xs "length") (JNum (numOfNat n))
  end.

Fixpoint chars (s : string) : list JSValue :=
  match s with
  | "" => []
  | String c r => JStr (String c "") :: chars r
  end.

(** The elements [...xs] and [for (const x of xs)] go through: those of an
    array, the characters of a string, and a [TypeError] for anything else. *)
Definition iterate (xs : JSValue) : Result (list JSValue) :=
  match xs with
  | JArr l => Ok l
  | JStr s => Ok (chars s)
  | _ => Throw TypeError
  end.

(** [xs.map], [xs.slice] exist on arrays only. *)
Definition asArray (xs : JSValue) : Result (list JSValue) :=
  match xs with
  | JArr l => Ok l
  | _ => Throw TypeError
  end.

(** [xs[0]]. *)
Definition index0 (xs : JSValue) : Result JSValue :=
  if nullish xs then Throw TypeError
  else Ok match xs with
          | JArr (x :: _) => x
          | JStr (String c _) => JStr (String c "")
          | JObj ps => lookup "0" ps
          | _ => JUndefined
          end.

(** [v.toLowerCase()] on a value that is not [undefined] or [null]. *)
Definition toLowerCaseOf (v : JSValue) : Result string :=
  match v with
  | JStr s => Ok (toLowerCase s)
  | _ => Throw TypeError
  end.

Fixpoint foldR {A B : Type} (f : A -> B -> Result A) (a : A) (xs : list B)
  : Result A :=
  match xs with
  | [] => Ok a
  | x :: rest => let* a' := f a x in foldR f a' rest
  end.

Section Service.

(** The world outside the process: the network answers a request and moves
    on; [Date.now()] reads its clock. *)
Variable World : Type.
Variable fetch : World -> Request -> World * FetchOutcome.
Variable now : World -> Z.

Variable env : Env.

Definition WEBFLOW_API_TOKEN : JSValue := envValue (WEBFLOW_API_TOKEN_env env).
Definition WEBFLOW_SITE_ID : JSValue :=
  envValue (WEBFLOW_SITE_ID_env env) ||| JStr "6005cd6988e875868452d33d".
Definition ANTHROPIC_API_KEY : JSValue := envValue (ANTHROPIC_API_KEY_env env).
Definition MAPBOX_TOKEN : JSValue := envValue (MAPBOX_TOKEN_env env).

Record State : Type := {
  world : World;
  cache : Cache
}.

(** An [async] function: it runs from a state of the world and the cache to
    a later one, where it has returned or thrown; what it wrote to the cache
    before a throw stays written.  [None]: the paging loop was still running
    when the fuel ran out.  One handler runs at a time: what other handlers do
    to the cache while this one awaits is outside the model, and so are the
    lines written to the console and the 200 ms pause between pages. *)
Definition Task (A : Type) : Type := State -> option (State * Result A).

Definition ret {A : Type} (a : A) : Task A := fun s => Some (s, Ok a).
Definition throw {A : Type} (e : JSError) : Task A := fun s => Some (s, Throw e).
Definition liftR {A : Type} (r : Result A) : Task A := fun s => Some (s, r).

Definition bindT {A B : Type} (t : Task A) (k : A -> Task B) : Task B :=
  fun s =>
    match t s with
    | None => None
    | Some (s', Ok a) => k a s'
    | Some (s', Throw e) => Some (s', Throw e)
    end.

(** [try { t } catch (error) { handler }]. *)
Definition tryCatch {A : Type} (t : Task A) (handler : JSError -> Task A) : Task A :=
  fun s =>
    match t s with
    | Some (s', Throw e) => handler e s'
    | r => r
    end.

Notation "'let!' x ':=' t 'in' k" := (bindT t (fun x => k))
  (at level 10, x name, t at level 100, k at level 200).

Definition awaitFetch (req : Request) : Task Response :=
  fun s =>
    let (w', out) := fetch (world s) req in
    let s' := {| world := w'; cache := cache s |} in
    match out with
    | Rejected => Some (s', Throw NetworkError)
    | Responded r => Some (s', Ok r)
    end.

Definition awaitJson (r : Response) : Task JSValue := liftR (json r).

Definition dateNow : Task Z := fun s => Some (s, Ok (now (world s))).
Definition getCache : Task Cache := fun s => Some (s, Ok (cache s)).
Definition modifyCache (f : Cache -> Cache) : Task unit :=
  fun s => Some ({| world := world s; cache := f (cache s) |}, Ok tt).

Definition setHotels (v : list JSValue) (c : Cache) : Cache :=
  {| hotels := v; regions := regions c; collections := collections c;
     lastFetch := lastFetch c |}.
Definition setRegions (v : list JSValue) (c : Cache) : Cache :=
  {| hotels := hotels c; regions := v; collections := collections c;
     lastFetch := lastFetch c |}.
Definition setCollections (v : list JSValue) (c : Cache) : Cache :=
  {| hotels := hotels c; regions := regions c; collections := v;
     lastFetch := lastFetch c |}.
Definition setLastFetch (t : Z) (c : Cache) : Cache :=
  {| hotels := hotels c; regions := regions c; collections := collections c;
     lastFetch := Some t |}.

(* --------------------------------------------------------------- *)
(** *** Webflow CMS functions *)

Definition limit : nat := 100.

Definition bearer : string := "Bearer " ^^ toString WEBFLOW_API_TOKEN.

(** The [while (hasMore)] loop of [fetchAllCollectionItems], entered with
    the [items] gathered so far and the current [offset]. *)
Fixpoint fetchPages (fuel : nat) (collectionId : JSValue)
    (items : list JSValue) (offset : nat) : Task (list JSValue) :=
  match fuel with
  | O => fun _ => None
  | S fuel' =>
      let! id := liftR (stringOf collectionId) in
      let! response := awaitFetch (ListItems bearer id offset limit) in
      if negb (ok response) then ret items
      else
        let! data := awaitJson response in
        let! dataItems := liftR (getProp data "items") in
        let! page := liftR (iterate (dataItems ||| JArr [])) in
        let items' := items ++ page in
        let hasMore := dataItems &&& JBool (lengthIs dataItems limit) in
        if truthy hasMore
        then fetchPages fuel' collectionId items' (offset + limit)
        else ret items'
  end.

Definition fetchAllCollectionItems (fuel : nat) (collectionId : JSValue)
  : Task (list JSValue) :=
  fetchPages fuel collectionId [] 0.

Definition fetchWebflowCollections : Task JSValue :=
  tryCatch
    (let! response :=
       awaitFetch (ListCollections bearer (toString WEBFLOW_SITE_ID)) in
     if negb (ok response) then throw GenericError
     else awaitJson response)
    (fun _ => ret (JObj [("collections", JArr [])])).

(** One round of the [for (const collection of collections)] loop of
    [server.js], on the pair [(hotelsCollectionId, regionsCollectionId)]. *)
Definition pickCollection (ids : JSValue * JSValue) (collection : JSValue)
  : Result (JSValue * JSValue) :=
  let* displayName := getProp collection "displayName" in
  let* name :=
    toLowerCaseOf (displayName ||| prop collection "slug" ||| JStr "") in
  if includes name "hotel" && negb (includes name "type")
  then Ok (prop collection "id", snd ids)
  else if includes name "region" || includes name "location"
  then Ok (fst ids, prop collection "id")
  else Ok ids.

(** The body of the [try] block of [refreshCMSCache]. *)
Definition refreshCMSCache_try (fuel : nat) : Task unit :=
  let! collectionsData := fetchWebflowCollections in
  let! found := liftR (getProp collectionsData "collections") in
  let! collections := liftR (iterate (found ||| JArr [])) in
  let! ids := liftR (foldR pickCollection (JNull, JNull) collections) in
  let hotelsCollectionId := fst ids in
  let regionsCollectionId := snd ids in
  let! _ :=
    if truthy hotelsCollectionId then
      let! items := fetchAllCollectionItems fuel hotelsCollectionId in
      modifyCache (setHotels items)
    else ret tt in
  let! _ :=
    if truthy regionsCollectionId then
      let! items := fetchAllCollectionItems fuel regionsCollectionId in
      modifyCache (setRegions items)
    else ret tt in
  let! t := dateNow in
  modifyCache (setLastFetch t).

Definition refreshCMSCache (fuel : nat) : Task unit :=
  if negb (truthy WEBFLOW_API_TOKEN) then ret tt
  else tryCatch (refreshCMSCache_try fuel) (fun _ => ret tt).

(* --------------------------------------------------------------- *)
(** *** Hotel data helpers *)

(** [f['cover-image']?.url || f.cover?.url || f['main-image']?.url]. *)
Definition imageUrl (f : JSValue) : JSValue :=
  optProp (prop f "cover-image") "url" ||| optProp (prop f "cover") "url"
  ||| optProp (prop f "main-image") "url".

Definition hotelUrl (f : JSValue) : JSValue :=
  JStr ("https://joandso.com/hotels-portugal/" ^^ toString (prop f "slug")).

(** The conversions to a string that the object literal of a record makes,
    in the order it makes them: the arguments of the two [parseFloat] calls
    and the slug of the template literal.  Each throws a [TypeError] on a
    value that does not convert. *)
Definition recordConversions (f : JSValue) : Result unit :=
  let* _ := stringOf (prop f "latitude" ||| prop f "lat") in
  let* _ := stringOf (prop f "longitude" ||| prop f "lng" ||| prop f "lon") in
  let* _ := stringOf (prop f "slug") in
  Ok tt.

(** The object literal [getHotelBySlug] returns, for field data [f] that is
    not [undefined] or [null] and whose conversions return. *)
Definition slugRecord (f : JSValue) : JSValue :=
  JObj [
    ("name", prop f "name" ||| prop f "hotel-name" ||| JStr "Unnamed");
    ("slug", prop f "slug");
    ("region",
      prop f "region" ||| prop f "location" ||| prop f "region-2"
      ||| JStr "Portugal");
    ("description",
      prop f "short-description" ||| prop f "description"
      ||| prop f "meta-description" ||| JStr "");
    ("lat", parseFloat (prop f "latitude" ||| prop f "lat") ||| JNull);
    ("lng",
      parseFloat (prop f "longitude" ||| prop f "lng" ||| prop f "lon")
      ||| JNull);
    ("image", imageUrl f ||| JStr "");
    ("bookingUrl",
      prop f "booking-url" ||| prop f "booking-link"
      ||| prop f "show-prices-url" ||| JStr "");
    ("rooms", prop f "number-of-rooms" ||| prop f "rooms" ||| JStr "");
    ("url", hotelUrl f)
  ].

Definition getHotelBySlug (c : Cache) (slug : JSValue) : Result JSValue :=
  let* found :=
    findR (fun h =>
             let* fieldData := getProp h "fieldData" in
             Ok (strictEq (optProp fieldData "slug") slug))
          (hotels c) in
  let hotel := match found with Some h => h | None => JUndefined end in
  if negb (truthy hotel) then Ok JNull
  else
    let f := prop hotel "fieldData" in
    if nullish f then Throw TypeError
    else
      let* _ := recordConversions f in
      Ok (slugRecord f).

(** The filter of [getAllHotels] (and of the legacy listings):
    [h.fieldData && !h.fieldData.archived && !h.fieldData['is-closed']]. *)
Definition listed (h : JSValue) : Result bool :=
  let* f := getProp h "fieldData" in
  Ok (truthy (f &&& jnot (prop f "archived") &&& jnot (prop f "is-closed"))).

(** The object literal of the [map] callback of [getAllHotels], for an item
    that passed the filter and whose conversions return. *)
Definition listingRecord (h : JSValue) : JSValue :=
  let f := prop h "fieldData" in
  JObj [
    ("name", prop f "name" ||| prop f "hotel-name" ||| JStr "Unnamed");
    ("slug", prop f "slug");
    ("region",
      prop f "region" ||| prop f "location" ||| prop f "region-2"
      ||| JStr "Portugal");
    ("description",
      prop f "short-description" ||| prop f "description" ||| JStr "");
    ("lat", parseFloat (prop f "latitude" ||| prop f "lat") ||| JNull);
    ("lng",
      parseFloat (prop f "longitude" ||| prop f "lng" ||| prop f "lon")
      ||| JNull);
    ("image", imageUrl f ||| JStr "");
    ("bookingUrl",
      prop f "booking-url" ||| prop f "booking-link"
      ||| prop f "show-prices-url" ||| JStr "");
    ("url", hotelUrl f)
  ].

Definition getAllHotels (c : Cache) : Result (list JSValue) :=
  let* kept := filterR listed (hotels c) in
  mapR (fun h =>
          let* _ := recordConversions (prop h "fieldData") in
          Ok (listingRecord h))
       kept.

(* --------------------------------------------------------------- *)
(** *** The system prompt *)

(** The fixed wording of the prompt, before the hotel count and after the
    hotel lines; nothing below depends on what it says. *)
Variable promptHead promptTail : string.

(** The [map] callback of [buildSystemPrompt]: a template literal over the
    name, the region and the slug of a record. *)
Definition hotelLine (h : JSValue) : Result string :=
  let* name := stringOf (prop h "name") in
  let* region := stringOf (prop h "region") in
  let* slug := stringOf (prop h "slug") in
  Ok ("- " ^^ name ^^ " | region: " ^^ region ^^ " | slug: " ^^ slug).

Definition buildSystemPrompt (c : Cache) : Result string :=
  let* hotels := getAllHotels c in
  let* lines := mapR hotelLine (firstn 100 hotels) in
  let hotelContext := joinStr LF lines in
  Ok (promptHead ^^ numToString (numOfNat (List.length hotels))
      ^^ " properties)" ^^ LF ^^ hotelContext ^^ LF ^^ LF ^^ promptTail).

(* --------------------------------------------------------------- *)
(** *** API routes *)

Definition resJson (v : JSValue) : HttpResponse :=
  {| statusCode := 200; body := v |}.
Definition resStatusJson (code : nat) (v : JSValue) : HttpResponse :=
  {| statusCode := code; body := v |}.

Definition hotelCount (c : Cache) : JSValue :=
  JNum (numOfNat (List.length (hotels c))).

Definition timestamp (t : option Z) : JSValue :=
  match t with
  | Some ms => JNum (mkFinite ms 0)
  | None => JNull
  end.

(** [GET /api/health]. *)
Definition getHealth (c : Cache) : HttpResponse :=
  resJson (JObj [
    ("status", JStr "ok");
    ("cmsLoaded", JBool (0 <? List.length (hotels c))%nat);
    ("hotelCount", hotelCount c);
    ("lastCacheUpdate", timestamp (lastFetch c))
  ]).

(** [GET /api/config]. *)
Definition getConfig (c : Cache) : HttpResponse :=
  resJson (JObj [
    ("mapboxToken", MAPBOX_TOKEN ||| JStr "");
    ("hasWebflow", jnot (jnot WEBFLOW_API_TOKEN));
    ("hasClaude", jnot (jnot ANTHROPIC_API_KEY));
    ("hotelCount", hotelCount c)
  ]).

(** [GET /api/hotels]. *)
Definition getHotels (c : Cache) : Result HttpResponse :=
  let* all := getAllHotels c in
  Ok (resJson (JArr all)).

(** [GET /api/hotels/:slug]. *)
Definition getHotel (c : Cache) (slug : string) : Result HttpResponse :=
  let* hotel := getHotelBySlug c (JStr slug) in
  if truthy hotel then Ok (resJson hotel)
  else Ok (resStatusJson 404 (JObj [("error", JStr "Hotel not found")])).

(** [POST /api/cms/refresh]. *)
Definition postRefresh (fuel : nat) : Task HttpResponse :=
  let! _ := refreshCMSCache fuel in
  let! c := getCache in
  ret (resJson (JObj [("success", JBool true); ("hotelCount", hotelCount c)])).

(* --------------------------------------------------------------- *)
(** *** The chat route *)

Variable JSON_parse : string -> Result JSValue.
Variable JSON_stringify : JSValue -> JSValue.

Definition isString (v : JSValue) : bool :=
  match v with
  | JStr _ => true
  | _ => false
  end.

(** The [map] callback over the history: [role] and [content] are kept, a
    [content] that is not a string is serialised. *)
Definition forwardTurn (msg : JSValue) : Result JSValue :=
  let* role := getProp msg "role" in
  let content := prop msg "content" in
  Ok (JObj [
    ("role", role);
    ("content", if isString content then content else JSON_stringify content)
  ]).

Definition userTurn (message : JSValue) : JSValue :=
  JObj [("role", JStr "user"); ("content", message)].

(** [messages]: the last ten turns of the history, then the new user turn. *)
Definition chatMessages (history : list JSValue) (message : JSValue)
  : Result (list JSValue) :=
  let* turns := mapR forwardTurn (sliceLast 10 history) in
  Ok (turns ++ [userTurn message]).

(** The request the handler sends to the chat-completion endpoint. *)
Definition chatRequest (c : Cache) (history : list JSValue) (message : JSValue)
  : Result Request :=
  let* messages := chatMessages history message in
  let* system := buildSystemPrompt c in
  Ok (CreateMessage (toString ANTHROPIC_API_KEY) "claude-sonnet-4-20250514"
        1024 system messages).

(** The clean-up of markdown fencing before [JSON.parse]. *)
Definition cleanJson (rawResponse : string) : string :=
  let c0 := trim rawResponse in
  let c1 := if startsWith c0 "```json" then sliceFrom 7 c0 else c0 in
  let c2 := if startsWith c1 "```" then sliceFrom 3 c1 else c1 in
  let c3 := if endsWith c2 "```" then sliceDropLast 3 c2 else c2 in
  trim c3.

(** The inner [try] block: [rawResponse.trim()] needs a string. *)
Definition stripAndParse (rawResponse : JSValue) : Result JSValue :=
  match rawResponse with
  | JStr s => JSON_parse (cleanJson s)
  | _ => Throw TypeError
  end.

Definition fallbackMessage : string :=
  "Let me help you find the perfect hotel in Portugal.".

(** The [catch (parseError)] block. *)
Definition fallbackReply (rawResponse : JSValue) : Result JSValue :=
  match rawResponse with
  | JStr s =>
      Ok (JObj [
        ("message", JStr (substring0 200 s) ||| JStr fallbackMessage);
        ("hotels", JArr []);
        ("mapAction", JNull)
      ])
  | _ => Throw TypeError
  end.

Definition parseReply (rawResponse : JSValue) : Result JSValue :=
  match stripAndParse rawResponse with
  | Ok parsed => Ok parsed
  | Throw _ => fallbackReply rawResponse
  end.

(** [(parsed.hotels || []).map(slug => getHotelBySlug(slug))
      .filter(h => h !== null)]. *)
Definition hotelCards (c : Cache) (parsed : JSValue) : Result (list JSValue) :=
  let* listedSlugs := getProp parsed "hotels" in
  let* slugs := asArray (listedSlugs ||| JArr []) in
  let* found := mapR (getHotelBySlug c) slugs in
  Ok (filter (fun h => negb (strictEq h JNull)) found).

(** From the model's text to the response of the route (the handler from
    [let parsed] on). *)
Definition chatReply (c : Cache) (data rawResponse : JSValue)
  : Result HttpResponse :=
  let* parsed := parseReply rawResponse in
  let* cards := hotelCards c parsed in
  Ok (resJson (JObj [
    ("message", prop parsed "message" ||| JStr "");
    ("hotels", JArr cards);
    ("mapAction", prop parsed "mapAction" ||| JNull);
    ("usage", prop data "usage")
  ])).

(** [!cmsCache.lastFetch || Date.now() - cmsCache.lastFetch > CACHE_DURATION]. *)
Definition isStale (c : Cache) (t : Z) : bool :=
  match lastFetch c with
  | None => true
  | Some last => (last =? 0)%Z || (CACHE_DURATION <? t - last)%Z
  end.

(** [history = []] when the body has none; [history.slice(-10).map] needs an
    array. *)
Definition historyOf (history : JSValue) : Result (list JSValue) :=
  match history with
  | JUndefined => Ok []
  | _ => asArray history
  end.

(** [POST /api/chat] on the [message] and the [history] that the
    destructuring of the body gave ([undefined] for a key the body does not
    have; the default of [history] is taken in [historyOf]): the handler as
    it runs on a request whose body is an object.  [chatRoute] below is the
    handler on the body itself. *)
Definition postChat (fuel : nat) (message history : JSValue) : Task HttpResponse :=
  if negb (truthy ANTHROPIC_API_KEY) then
    ret (resStatusJson 500
           (JObj [("error", JStr "Anthropic API key not configured")]))
  else if negb (truthy message) then
    ret (resStatusJson 400 (JObj [("error", JStr "Message is required")]))
  else
    tryCatch
      (let! c0 := getCache in
       let! t := dateNow in
       let! _ := if isStale c0 t then refreshCMSCache fuel else ret tt in
       let! turns := liftR (historyOf history) in
       let! c := getCache in
       let! request := liftR (chatRequest c turns message) in
       let! response := awaitFetch request in
       if negb (ok response) then
         let! errorData := awaitJson response in
         let! error := liftR (getProp errorData "error") in
         ret (resStatusJson (status response)
                (JObj [("error", optProp error "message" ||| JStr "API error")]))
       else
         let! data := awaitJson response in
         let! content := liftR (getProp data "content") in
         let! first := liftR (index0 content) in
         let rawResponse := optProp first "text" ||| JStr "" in
         let! c' := getCache in
         liftR (chatReply c' data rawResponse))
      (fun _ =>
         ret (resStatusJson 500
                (JObj [("error", JStr "Failed to process chat request")]))).

(** The handler of [POST /api/chat] on [req.body], which is [undefined] when
    the request came without a body that was parsed.  The destructuring
    [const { message, history = [] } = req.body] sits between the test of
    the credential and the [try]: on a body that is [undefined] or [null] it
    throws a [TypeError] that nothing in the handler catches. *)
Definition chatRoute (fuel : nat) (body : JSValue) : Task HttpResponse :=
  if negb (truthy ANTHROPIC_API_KEY) then
    ret (resStatusJson 500
           (JObj [("error", JStr "Anthropic API key not configured")]))
  else
    let! message := liftR (getProp body "message") in
    let! history := liftR (getProp body "history") in
    postChat fuel message history.

End Service.

(* ================================================================= *)
(** ** The legacy variant of the server *)

(** The earlier server differs in three places the properties below touch:
    its refresh also loads a third collection, its chat route forwards the
    history as it came, and it has the [/api/hotels/markers] route. *)
Section LegacyService.

Variable World : Type.
Variable fetch : World -> Request -> World * FetchOutcome.
Variable now : World -> Z.
Variable env : Env.

Notation "'let!' x ':=' t 'in' k" := (bindT World t (fun x => k))
  (at level 10, x name, t at level 100, k at level 200).

(** One round of the [for] loop of the legacy refresh, on
    [(hotelsCollectionId, regionsCollectionId, collectionsCollectionId)]. *)
Definition legacyPickCollection (ids : JSValue * JSValue * JSValue)
    (collection : JSValue) : Result (JSValue * JSValue * JSValue) :=
  let '(hotelsId, regionsId, collectionsId) := ids in
  let* displayName := getProp collection "displayName" in
  let* name :=
    toLowerCaseOf (displayName ||| prop collection "slug" ||| JStr "") in
  if includes name "hotel" && negb (includes name "type")
  then Ok (prop collection "id", regionsId, collectionsId)
  else if includes name "region" || includes name "location"
  then Ok (hotelsId, prop collection "id", collectionsId)
  else if (name =? "collections") || includes name "collection"
  then Ok (hotelsId, regionsId, prop collection "id")
  else Ok ids.

Definition legacyRefreshCMSCache_try (fuel : nat) : Task World unit :=
  let! collectionsData := fetchWebflowCollections World fetch env in
  let! found := liftR World (getProp collectionsData "collections") in
  let! collections := liftR World (iterate (found ||| JArr [])) in
  let! ids :=
    liftR World (foldR legacyPickCollection (JNull, JNull, JNull) collections) in
  let '(hotelsCollectionId, regionsCollectionId, collectionsCollectionId) := ids in
  let! _ :=
    if truthy hotelsCollectionId then
      let! items := fetchAllCollectionItems World fetch env fuel hotelsCollectionId in
      modifyCache World (setHotels items)
    else ret World tt in
  let! _ :=
    if truthy regionsCollectionId then
      let! items := fetchAllCollectionItems World fetch env fuel regionsCollectionId in
      modifyCache World (setRegions items)
    else ret World tt in
  let! _ :=
    if truthy collectionsCollectionId then
      let! items :=
        fetchAllCollectionItems World fetch env fuel collectionsCollectionId in
      modifyCache World (setCollections items)
    else ret World tt in
  let! t := dateNow World now in
  modifyCache World (setLastFetch t).

Definition legacyRefreshCMSCache (fuel : nat) : Task World unit :=
  if negb (truthy (WEBFLOW_API_TOKEN env)) then ret World tt
  else tryCatch World (legacyRefreshCMSCache_try fuel) (fun _ => ret World tt).

(** [messages] of the legacy chat route: every turn of the history. *)
Definition legacyChatMessages (history : list JSValue) (message : JSValue)
  : Result (list JSValue) :=
  let* turns :=
    mapR (fun msg =>
            let* role := getProp msg "role" in
            Ok (JObj [("role", role); ("content", prop msg "content")]))
         history in
  Ok (turns ++ [userTurn message]).

(** The object literal of the [map] callback of the markers route. *)
Definition markerRecord (hotel : JSValue) : JSValue :=
  let f := prop hotel "fieldData" in
  JObj [
    ("name", prop f "name" ||| prop f "hotel-name" ||| JStr "Unnamed");
    ("slug", prop f "slug");
    ("region", prop f "region" ||| prop f "location" ||| JStr "Portugal");
    ("lat", prop f "latitude" ||| prop f "lat");
    ("lng", prop f "longitude" ||| prop f "lng" ||| prop f "lon");
    ("image", imageUrl f)
  ].

(** [h => h.lat && h.lng]. *)
Definition hasCoordinates (h : JSValue) : bool :=
  truthy (prop h "lat" &&& prop h "lng").

(** [GET /api/hotels/markers]. *)
Definition getMarkers (c : Cache) : Result HttpResponse :=
  let* kept := filterR listed (hotels c) in
  Ok (resJson (JArr (filter hasCoordinates (map markerRecord kept)))).

End LegacyService.


(* ================================================================= *)
(** ** The legacy variant: prompt, statistics and chat route *)

(** [v.substring(0, n)] on a value: only a string has the method. *)
Definition substring0Of (n : nat) (v : JSValue) : Result string :=
  match v with
  | JStr s => Ok (substring0 n s)
  | _ => Throw TypeError
  end.

Section LegacyRoutes.

Variable World : Type.
Variable fetch : World -> Request -> World * FetchOutcome.
Variable now : World -> Z.
Variable env : Env.

Notation "'let!' x ':=' t 'in' k" := (bindT World t (fun x => k))
  (at level 10, x name, t at level 100, k at level 200).

(** The bullet sign that opens a summary line, and the fixed wording of the
    legacy prompt before and after the hotel context; nothing below depends
    on what they say. *)
Variable bullet : string.
Variable legacyBasePrompt legacyPromptTail : string.

(** The [map] callback of [buildHotelContext], for an item that passed the
    filter. *)
Definition hotelSummary (hotel : JSValue) : Result string :=
  let f := prop hotel "fieldData" in
  let name := prop f "name" ||| prop f "hotel-name" ||| JStr "Unnamed" in
  let region :=
    prop f "region" ||| prop f "location" ||| prop f "region-2"
    ||| JStr "Portugal" in
  let description :=
    prop f "short-description" ||| prop f "description"
    ||| prop f "meta-description" ||| JStr "" in
  let rooms := prop f "number-of-rooms" ||| prop f "rooms" ||| JStr "" in
  let slug := prop f "slug" ||| JStr "" in
  let* nameText := stringOf name in
  let summary0 := bullet ^^ " " ^^ nameText in
  let* summary1 :=
    if truthy region then
      let* regionText := stringOf region in
      Ok (summary0 ^^ " (" ^^ regionText ^^ ")")
    else Ok summary0 in
  let* summary2 :=
    if truthy rooms then
      let* roomsText := stringOf rooms in
      Ok (summary1 ^^ " - " ^^ roomsText ^^ " rooms")
    else Ok summary1 in
  let* summary3 :=
    if truthy description then
      let* head := substring0Of 150 description in
      Ok (summary2 ^^ ": " ^^ head)
    else Ok summary2 in
  if truthy slug then
    let* slugText := stringOf slug in
    Ok (summary3 ^^ " [joandso.com/hotels-portugal/" ^^ slugText ^^ "]")
  else Ok summary3.

Definition contextHeader (n : nat) : string :=
  LF ^^ LF ^^ "--- CURRENT HOTEL DATABASE (" ^^ numToString (numOfNat n)
  ^^ " properties) ---" ^^ LF.

Definition buildHotelContext (c : Cache) : Result string :=
  if (List.length (hotels c) =? 0)%nat then Ok ""
  else
    let* kept := filterR listed (hotels c) in
    let* hotelSummaries := mapR hotelSummary (firstn 100 kept) in
    Ok (contextHeader (List.length (hotels c)) ^^ joinStr LF hotelSummaries).

Definition legacyBuildSystemPrompt (c : Cache) : Result string :=
  let* hotelContext := buildHotelContext c in
  Ok (legacyBasePrompt ^^ hotelContext ^^ legacyPromptTail).

(** [cmsCache.lastFetch ? Date.now() - cmsCache.lastFetch : null]. *)
Definition cacheAge (c : Cache) (t : Z) : option Z :=
  match lastFetch c with
  | Some last => if (last =? 0)%Z then None else Some (t - last)%Z
  | None => None
  end.

(** [GET /api/cms/stats]. *)
Definition getStats : Task World HttpResponse :=
  let! c := getCache World in
  let! t := dateNow World now in
  ret World (resJson (JObj [
    ("hotels", JNum (numOfNat (List.length (hotels c))));
    ("regions", JNum (numOfNat (List.length (regions c))));
    ("collections", JNum (numOfNat (List.length (collections c))));
    ("lastFetch", timestamp (lastFetch c));
    ("cacheAge", timestamp (cacheAge c t))
  ])).

(** [POST /api/cms/refresh] of the legacy variant. *)
Definition legacyPostRefresh (fuel : nat) : Task World HttpResponse :=
  let! _ := legacyRefreshCMSCache World fetch now env fuel in
  let! c := getCache World in
  ret World
    (resJson (JObj [("success", JBool true); ("hotelCount", hotelCount c)])).

Definition noResponse : string := "I couldn't generate a response.".

(** [POST /api/chat] of the legacy variant, on the [message] and the
    [history] that the destructuring of the body gave: the model's text is
    passed on as it is.  [legacyChatRoute] below is the handler on the body
    itself. *)
Definition legacyPostChat (fuel : nat) (message history : JSValue)
  : Task World HttpResponse :=
  if negb (truthy (ANTHROPIC_API_KEY env)) then
    ret World (resStatusJson 500
                 (JObj [("error", JStr "Anthropic API key not configured")]))
  else if negb (truthy message) then
    ret World (resStatusJson 400 (JObj [("error", JStr "Message is required")]))
  else
    tryCatch World
      (let! c0 := getCache World in
       let! t := dateNow World now in
       let! _ :=
         if isStale c0 t then legacyRefreshCMSCache World fetch now env fuel
         else ret World tt in
       let! turns := liftR World (historyOf history) in
       let! messages := liftR World (legacyChatMessages turns message) in
       let! c := getCache World in
       let! system := liftR World (legacyBuildSystemPrompt c) in
       let! response :=
         awaitFetch World fetch
           (CreateMessage (toString (ANTHROPIC_API_KEY env))
              "claude-sonnet-4-20250514" 1024 system messages) in
       if negb (ok response) then
         let! errorData := awaitJson World response in
         let! error := liftR World (getProp errorData "error") in
         ret World
           (resStatusJson (status response)
              (JObj [("error", optProp error "message" ||| JStr "API error")]))
       else
         let! data := awaitJson World response in
         let! content := liftR World (getProp data "content") in
         let! first := liftR World (index0 content) in
         ret World
           (resJson (JObj [
              ("response", optProp first "text" ||| JStr noResponse);
              ("usage", prop data "usage")
            ])))
      (fun _ =>
         ret World
           (resStatusJson 500
              (JObj [("error", JStr "Failed to process chat request")]))).

(** The legacy handler on [req.body]: the destructuring of the body comes
    after the test of the credential and before the [try], as in the current
    server. *)
Definition legacyChatRoute (fuel : nat) (body : JSValue)
  : Task World HttpResponse :=
  if negb (truthy (ANTHROPIC_API_KEY env)) then
    ret World (resStatusJson 500
                 (JObj [("error", JStr "Anthropic API key not configured")]))
  else
    let! message := liftR World (getProp body "message") in
    let! history := liftR World (getProp body "history") in
    legacyPostChat fuel message history.

End LegacyRoutes.

(* ================================================================= *)
(** * Vocabulary of the properties *)

(** The definitions below are not part of the server: they name the inputs,
    the sample worlds and the reference behaviour the properties speak of. *)

(** A [ChatTurn] of the data model, and the object the caller sends for it. *)
Record ChatTurn : Type := {
  role : string;
  content : string
}.

Definition turnValue (t : ChatTurn) : JSValue :=
  JObj [("role", JStr (role t)); ("content", JStr (content t))].

(** What the route forwards for an arbitrary turn object: [role] and
    [content], the latter serialised when it is not a string. *)
Definition forwarded (stringify : JSValue -> JSValue) (msg : JSValue) : JSValue :=
  JObj [
    ("role", prop msg "role");
    ("content",
      if isString (prop msg "content") then prop msg "content"
      else stringify (prop msg "content"))
  ].

(** A history of [n] turns. *)
Definition turnsOf (n : nat) : list ChatTurn :=
  map (fun i => {| role := "user"; content := numToString (numOfNat i) |})
      (seq 0 n).

(** A network that keeps the requests it receives, in order, and answers
    each of them by [answer]. *)
Definition recording (answer : Request -> FetchOutcome)
    (received : list Request) (req : Request) : list Request * FetchOutcome :=
  (received ++ [req], answer req).

(** The turn of the new user message, as the chat-completion endpoint is to
    receive it. *)
Definition newUserTurn (message : JSValue) : JSValue :=
  JObj [("role", JStr "user"); ("content", message)].

(** A credential is configured when its variable is set to a non-empty
    string. *)
Definition configured (x : option string) : bool :=
  match x with
  | Some (String _ _) => true
  | _ => false
  end.

(** Two environments that differ in the two secrets only. *)
Definition envSecretsA : Env :=
  {| WEBFLOW_API_TOKEN_env := Some "cms-secret-A";
     WEBFLOW_SITE_ID_env := None;
     ANTHROPIC_API_KEY_env := Some "chat-secret-A";
     MAPBOX_TOKEN_env := Some "pk.public" |}.

Definition envSecretsB : Env :=
  {| WEBFLOW_API_TOKEN_env := Some "cms-secret-B";
     WEBFLOW_SITE_ID_env := None;
     ANTHROPIC_API_KEY_env := Some "chat-secret-B";
     MAPBOX_TOKEN_env := Some "pk.public" |}.

(** The cache of the running example: one hotel, fetched a minute before the
    clock of the sample worlds. *)
Definition memmoAlfama : JSValue :=
  JObj [("fieldData", JObj [
    ("name", JStr "Memmo Alfama");
    ("slug", JStr "memmo-alfama");
    ("region", JStr "Lisbon")
  ])].

Definition memmoCache : Cache :=
  {| hotels := [memmoAlfama]; regions := []; collections := [];
     lastFetch := Some 1700000000000%Z |}.

Definition memmoRecord : JSValue :=
  JObj [
    ("name", JStr "Memmo Alfama");
    ("slug", JStr "memmo-alfama");
    ("region", JStr "Lisbon");
    ("description", JStr "");
    ("lat", JNull);
    ("lng", JNull);
    ("image", JStr "");
    ("bookingUrl", JStr "");
    ("rooms", JStr "");
    ("url", JStr "https://joandso.com/hotels-portugal/memmo-alfama")
  ].

Definition chatEnv : Env :=
  {| WEBFLOW_API_TOKEN_env := None;
     WEBFLOW_SITE_ID_env := None;
     ANTHROPIC_API_KEY_env := Some "chat-key";
     MAPBOX_TOKEN_env := None |}.

Definition sampleUsage : JSValue :=
  JObj [("input_tokens", JNum (Finite 812 0));
        ("output_tokens", JNum (Finite 37 0))].

(** The body of a successful chat completion whose text is [text]. *)
Definition completion (text : string) : JSValue :=
  JObj [
    ("content", JArr [JObj [("type", JStr "text"); ("text", JStr text)]]);
    ("usage", sampleUsage)
  ].

(** A world whose chat-completion endpoint answers every request with the
    text [text], and in which nothing else is reachable. *)
Definition answering (text : string) (w : unit) (req : Request)
  : unit * FetchOutcome :=
  (w, match req with
      | CreateMessage _ _ _ _ _ =>
          Responded {| ok := true; status := 200; json := Ok (completion text) |}
      | _ => Rejected
      end).

Definition sampleClock (w : unit) : Z := 1700000060000%Z.

Definition sampleReply : string :=
  dq "{'message':'Great pick!','hotels':['memmo-alfama','nonexistent-slug'],'mapAction':null}".

(** A reply of the model that names the archived hotel of [closedCache]. *)
Definition closedReply : string :=
  dq "{'message':'Try this one.','hotels':['closed-inn'],'mapAction':null}".

(** [slug] resolves to the cached item [h]. *)
Definition hasSlug (slug : JSValue) (h : JSValue) : bool :=
  strictEq (optProp (prop h "fieldData") "slug") slug.

(** The conversions of a record return on the field data [f]; and a cached
    item the helpers read without throwing: it is not [null] or [undefined]
    and the conversions return on its field data. *)
Definition converts (f : JSValue) : bool :=
  printable (prop f "latitude" ||| prop f "lat")
  && printable (prop f "longitude" ||| prop f "lng" ||| prop f "lon")
  && printable (prop f "slug").

Definition readable (h : JSValue) : bool :=
  negb (nullish h) && converts (prop h "fieldData").

(** The cards of the slugs that resolve, in the order of the reply. *)
Definition cardsFor (c : Cache) (slugs : list string) : list JSValue :=
  flat_map
    (fun s =>
       match find (hasSlug (JStr s)) (hotels c) with
       | Some h => [slugRecord (prop h "fieldData")]
       | None => []
       end)
    slugs.


(** An item is flagged when its field data carries a truthy [archived] or
    [is-closed]. *)
Definition flagged (h : JSValue) : bool :=
  let f := prop h "fieldData" in
  truthy (prop f "archived") || truthy (prop f "is-closed").

(** The items the listings keep: those with field data and no flag. *)
Definition open (h : JSValue) : bool :=
  truthy (prop h "fieldData") && negb (flagged h).

(** A cache whose only hotel is archived. *)
Definition closedInn : JSValue :=
  JObj [("fieldData", JObj [
    ("name", JStr "Closed Inn");
    ("slug", JStr "closed-inn");
    ("archived", JBool true);
    ("latitude", JStr "38.7139");
    ("longitude", JStr "-9.1334")
  ])].

Definition closedCache : Cache :=
  {| hotels := [closedInn]; regions := []; collections := [];
     lastFetch := Some 1700000000000%Z |}.

Definition closedInnRecord : JSValue :=
  JObj [
    ("name", JStr "Closed Inn");
    ("slug", JStr "closed-inn");
    ("region", JStr "Portugal");
    ("description", JStr "");
    ("lat", JNum (Finite 387139 (-4)));
    ("lng", JNum (Finite (-91334) (-4)));
    ("image", JStr "");
    ("bookingUrl", JStr "");
    ("rooms", JStr "");
    ("url", JStr "https://joandso.com/hotels-portugal/closed-inn")
  ].


(** The item whose field data is [f]. *)
Definition asItem (f : JSValue) : JSValue := JObj [("fieldData", f)].


(** The value the latitude is parsed from, and the one for the longitude. *)
Definition latSource (f : JSValue) : JSValue :=
  prop f "latitude" ||| prop f "lat".
Definition lngSource (f : JSValue) : JSValue :=
  prop f "longitude" ||| prop f "lng" ||| prop f "lon".

Definition equatorHotel : JSValue :=
  JObj [("name", JStr "Linha do Equador"); ("slug", JStr "linha-do-equador");
        ("latitude", JStr "0"); ("longitude", JStr "6.5228")].

(** A CMS that holds [items] in every collection and serves them in pages of
    the requested size; the page with index [failPage], when there is one, is
    answered with status 503.  Its world is the list of the requests it has
    received. *)
Definition cmsServer (items : list JSValue) (failPage : option nat)
    (received : list Request) (req : Request) : list Request * FetchOutcome :=
  (received ++ [req],
   match req with
   | ListItems _ _ offset size =>
       if match failPage with
          | Some p => (offset =? p * size)%nat
          | None => false
          end
       then Responded {| ok := false; status := 503; json := Throw SyntaxError |}
       else Responded {| ok := true; status := 200;
                         json := Ok (JObj [("items",
                                            JArr (firstn size (skipn offset items)))]) |}
   | _ => Rejected
   end).

(** The first [k] page requests for the collection [id]. *)
Definition pageRequests (env : Env) (id : JSValue) (first k : nat) : list Request :=
  map (fun i => ListItems (bearer env) (toString id) (i * 100) 100) (seq first k).

(** The number of page requests for [n] items when none fails: the full
    pages, then the page that comes back short (it is empty when [n] is a
    multiple of 100). *)
Definition pagesFor (n : nat) : nat := S (n / 100).

Definition requestsIssued (n : nat) (failPage : option nat) : nat :=
  match failPage with
  | Some p => Nat.min (S p) (pagesFor n)
  | None => pagesFor n
  end.

(** The page with index [i] of the collection, and the number of pages that
    are fetched with success. *)
Definition pageOf (items : list JSValue) (i : nat) : list JSValue :=
  firstn 100 (skipn (i * 100) items).

Definition pagesFetched (n : nat) (failPage : option nat) : nat :=
  match failPage with
  | Some p => if (p <? pagesFor n)%nat then p else pagesFor n
  | None => pagesFor n
  end.

Definition itemsFetched (items : list JSValue) (failPage : option nat)
  : list JSValue :=
  match failPage with
  | Some p => if (p <? pagesFor (List.length items))%nat
              then firstn (p * 100) items else items
  | None => items
  end.

Definition cmsEnv : Env :=
  {| WEBFLOW_API_TOKEN_env := Some "cms-token";
     WEBFLOW_SITE_ID_env := None;
     ANTHROPIC_API_KEY_env := Some "chat-key";
     MAPBOX_TOKEN_env := None |}.

(** A CMS with a hotels and a regions collection: the hotels collection
    answers with one item, the regions collection cannot be reached. *)
Definition siteCollections : JSValue :=
  JObj [("collections", JArr [
    JObj [("id", JStr "col-hotels"); ("displayName", JStr "Hotels")];
    JObj [("id", JStr "col-regions"); ("displayName", JStr "Regions")]
  ])].

Definition regionsUnreachable (w : unit) (req : Request) : unit * FetchOutcome :=
  (w, match req with
      | ListCollections _ _ =>
          Responded {| ok := true; status := 200; json := Ok siteCollections |}
      | ListItems _ id _ _ =>
          if id =? "col-hotels" then
            Responded {| ok := true; status := 200;
                         json := Ok (JObj [("items", JArr [memmoAlfama])]) |}
          else Rejected
      | CreateMessage _ _ _ _ _ => Rejected
      end).

(** The steps of one run of the refresh.  [picked]: the listing of the
    collections, fetched from the state [s], left the process in the state
    [s1] and named [hotelsId] and [regionsId].  [loaded]: the collection [id]
    was fetched in full from [s1] and put in the cache by [store], or there was
    no [id] and nothing was done; the process is then in [sh]. *)
Definition picked {World : Type} (fetch : World -> Request -> World * FetchOutcome)
    (env : Env) (s s1 : State World) (hotelsId regionsId : JSValue) : Prop :=
  exists (data found : JSValue) (listing : list JSValue),
    fetchWebflowCollections World fetch env s = Some (s1, Ok data)
    /\ getProp data "collections" = Ok found
    /\ iterate (found ||| JArr []) = Ok listing
    /\ foldR pickCollection (JNull, JNull) listing = Ok (hotelsId, regionsId).

Definition legacyPicked {World : Type}
    (fetch : World -> Request -> World * FetchOutcome) (env : Env)
    (s s1 : State World) (hotelsId regionsId collectionsId : JSValue) : Prop :=
  exists (data found : JSValue) (listing : list JSValue),
    fetchWebflowCollections World fetch env s = Some (s1, Ok data)
    /\ getProp data "collections" = Ok found
    /\ iterate (found ||| JArr []) = Ok listing
    /\ foldR legacyPickCollection (JNull, JNull, JNull) listing
       = Ok (hotelsId, regionsId, collectionsId).

Definition loaded {World : Type} (fetch : World -> Request -> World * FetchOutcome)
    (env : Env) (fuel : nat) (id : JSValue)
    (store : list JSValue -> Cache -> Cache) (s1 sh : State World) : Prop :=
  (truthy id = false /\ sh = s1)
  \/ exists (s2 : State World) (items : list JSValue),
       truthy id = true
       /\ fetchAllCollectionItems World fetch env fuel id s1 = Some (s2, Ok items)
       /\ sh = {| world := world World s2;
                  cache := store items (cache World s1) |}.

Definition lisbonRegion : JSValue :=
  JObj [("fieldData", JObj [("name", JStr "Lisbon"); ("slug", JStr "lisbon")])].

Definition cacheBefore : Cache :=
  {| hotels := [closedInn]; regions := [lisbonRegion]; collections := [];
     lastFetch := Some 1700000000000%Z |}.

(** The text [T] inside a markdown code fence: the opening marker [opener],
    a line break, [T], a line break and the closing marker. *)
Definition fenced (opener T : string) : string :=
  opener ^^ LF ^^ T ^^ LF ^^ "```".

Definition sampleReplyFenced : string := fenced "```json" sampleReply.

(** A number in canonical form: the mantissa of a non-zero finite number does
    not end in a decimal zero, and zero is [Finite 0 0]. *)
Definition canonical (n : JSNum) : Prop :=
  match n with
  | Finite m e => (m = 0 /\ e = 0)%Z \/ (m <> 0 /\ m mod 10 <> 0)%Z
  | _ => True
  end.

(** A finite number within the range of the non-zero doubles: reading its
    decimal rounds neither to zero nor to an infinity. *)
Definition inRange (n : JSNum) : Prop :=
  match n with
  | Finite m e => roundsToZero m e = false /\ roundsToInfinity m e = false
  | _ => True
  end.

(** The sign and digits of an exponent part. *)
Definition exponentText (x : Z) : string :=
  (if (x <? 0)%Z then "-" else "+") ^^ digitsOf (Z.abs x).

(** The record [r] with its [image] and [bookingUrl] emptied. *)
Definition withoutLinks (r : JSValue) : JSValue :=
  match r with
  | JObj ps =>
      JObj (map (fun kv : string * JSValue =>
                   if (fst kv =? "image") || (fst kv =? "bookingUrl")
                   then (fst kv, JStr "") else kv) ps)
  | _ => r
  end.

(** Field data with a cover image and a booking link. *)
Definition memmoWithLinks : JSValue :=
  JObj [
    ("name", JStr "Memmo Alfama");
    ("slug", JStr "memmo-alfama");
    ("region", JStr "Lisbon");
    ("latitude", JStr "38.7108");
    ("longitude", JStr "-9.1303");
    ("cover-image", JObj [("url", JStr "https://cdn.joandso.com/memmo.jpg")]);
    ("booking-url", JStr "https://book.joandso.com/memmo-alfama")
  ].

(** A run of decimal digits. *)
Fixpoint allDigits (s : string) : bool :=
  match s with
  | "" => true
  | String c r => isDigit c && allDigits r
  end.

(** [s] is empty or starts with a character that is not a digit. *)
Definition digitsEnd (s : string) : bool :=
  match s with
  | "" => true
  | String c _ => negb (isDigit c)
  end.

(** A string that is empty or starts with a character [trim] keeps. *)
Definition solidStart (s : string) : Prop :=
  match s with
  | "" => True
  | String c _ => isWhiteSpace c = false
  end.

(* ================================================================= *)
(** * Vocabulary of the further properties *)

(** The listing of the collections did not come through: the network
    rejected the request, the status was a failure, or the body was not
    JSON. *)
Definition listingFailed (out : FetchOutcome) : Prop :=
  match out with
  | Rejected => True
  | Responded r => ok r = false \/ exists e, json r = Throw e
  end.

(** The name under which the refresh looks at a collection. *)
Definition collectionName (collection : JSValue) : Result string :=
  toLowerCaseOf
    (prop collection "displayName" ||| prop collection "slug" ||| JStr "").

Definition namesHotels (name : string) : bool :=
  includes name "hotel" && negb (includes name "type").

Definition namesRegions (name : string) : bool :=
  includes name "region" || includes name "location".

(** A coordinate of a record: [null], or a number that is neither zero nor
    [NaN]. *)
Definition coordinate (v : JSValue) : Prop :=
  v = JNull \/ exists n : JSNum, v = JNum n /\ numTruthy n = true.

(** [t] is a contiguous part of [s]. *)
Definition partOf (t s : string) : Prop :=
  exists a b : string, s = a ^^ t ^^ b.

Definition hotelBase : string := "https://joandso.com/hotels-portugal/".

(** A CMS with three collections, the third of which cannot be reached. *)
Definition siteThreeCollections : JSValue :=
  JObj [("collections", JArr [
    JObj [("id", JStr "col-hotels"); ("displayName", JStr "Hotels")];
    JObj [("id", JStr "col-regions"); ("displayName", JStr "Regions")];
    JObj [("id", JStr "col-themes"); ("displayName", JStr "Collections")]
  ])].

Definition themesUnreachable (w : unit) (req : Request) : unit * FetchOutcome :=
  (w, match req with
      | ListCollections _ _ =>
          Responded {| ok := true; status := 200; json := Ok siteThreeCollections |}
      | ListItems _ id _ _ =>
          if id =? "col-hotels" then
            Responded {| ok := true; status := 200;
                         json := Ok (JObj [("items", JArr [memmoAlfama])]) |}
          else if id =? "col-regions" then
            Responded {| ok := true; status := 200;
                         json := Ok (JObj [("items", JArr [lisbonRegion])]) |}
          else Rejected
      | CreateMessage _ _ _ _ _ => Rejected
      end).

(** A CMS that lists a hotels collection and answers every page request with
    status 503; and one whose listing of collections is itself unreachable. *)
Definition siteHotelsOnly : JSValue :=
  JObj [("collections", JArr [
    JObj [("id", JStr "col-hotels"); ("displayName", JStr "Hotels")]
  ])].

Definition pagesFailing (w : unit) (req : Request) : unit * FetchOutcome :=
  (w, match req with
      | ListCollections _ _ =>
          Responded {| ok := true; status := 200; json := Ok siteHotelsOnly |}
      | ListItems _ _ _ _ =>
          Responded {| ok := false; status := 503; json := Throw SyntaxError |}
      | CreateMessage _ _ _ _ _ => Rejected
      end).

Definition offline (w : unit) (req : Request) : unit * FetchOutcome :=
  (w, Rejected).



(** The name of a collection, when it has one ([""] stands for a name that
    cannot be read); a listing entry is well named when reading its name does
    not throw. *)
Definition nameOf (collection : JSValue) : string :=
  match collectionName collection with
  | Ok name => name
  | Throw _ => ""
  end.

Definition wellNamed (collection : JSValue) : Prop :=
  nullish collection = false /\ exists name, collectionName collection = Ok name.

(** The [id] of the last entry of a listing that satisfies [p]; [null] when
    there is none. *)
Definition idOfLast (p : JSValue -> bool) (listing : list JSValue) : JSValue :=
  match find p (rev listing) with
  | Some collection => prop collection "id"
  | None => JNull
  end.

Definition takenForHotels (collection : JSValue) : bool :=
  namesHotels (nameOf collection).

Definition takenForRegions (collection : JSValue) : bool :=
  negb (namesHotels (nameOf collection)) && namesRegions (nameOf collection).

Definition mixedListing : list JSValue :=
  [ JObj [("id", JStr "a"); ("displayName", JStr "Hotels")];
    JObj [("id", JStr "b"); ("displayName", JStr "Hotel Types")];
    JObj [("id", JStr "c"); ("slug", JStr "boutique-hotels-by-region")];
    JObj [("id", JStr "d"); ("displayName", JStr "Locations")];
    JObj [("id", JStr "e"); ("displayName", JStr "Authors")] ].

(** The keys on which the record of the lookup by slug and the record of the
    listing are built alike. *)
Definition sharedKeys : list string :=
  ["name"; "slug"; "region"; "lat"; "lng"; "image"; "bookingUrl"; "url"].

Definition isNullish (v : JSValue) : bool := nullish v.

(** A cache that holds the archived hotel next to an open one. *)
Definition mixedCache : Cache :=
  {| hotels := [closedInn; memmoAlfama]; regions := []; collections := [];
     lastFetch := Some 1700000000000%Z |}.

Definition notFound : HttpResponse :=
  {| statusCode := 404; body := JObj [("error", JStr "Hotel not found")] |}.

Definition keyMissing : HttpResponse :=
  {| statusCode := 500;
     body := JObj [("error", JStr "Anthropic API key not configured")] |}.

Definition messageRequired : HttpResponse :=
  {| statusCode := 400; body := JObj [("error", JStr "Message is required")] |}.

Definition chatFailed : HttpResponse :=
  {| statusCode := 500;
     body := JObj [("error", JStr "Failed to process chat request")] |}.


Definition noKeyEnv : Env :=
  {| WEBFLOW_API_TOKEN_env := Some "cms-token";
     WEBFLOW_SITE_ID_env := None;
     ANTHROPIC_API_KEY_env := None;
     MAPBOX_TOKEN_env := None |}.

(** A card is the lookup record of some cached item. *)
Definition cardOf (c : Cache) (card : JSValue) : Prop :=
  exists h : JSValue, In h (hotels c) /\ card = slugRecord (prop h "fieldData").


(** What the legacy chat route answers to an upstream answer [data] whose
    first content block is [first]. *)
Definition legacyAnswer (data first : JSValue) : HttpResponse :=
  resJson (JObj [
    ("response", optProp first "text" ||| JStr noResponse);
    ("usage", prop data "usage")
  ]).

(** An item whose coordinates are stored as text, one of them ["0"]. *)
Definition equatorItem : JSValue := asItem equatorHotel.

Definition equatorCache : Cache :=
  {| hotels := [equatorItem; closedInn; memmoAlfama]; regions := [];
     collections := []; lastFetch := Some 1700000000000%Z |}.

Definition equatorMarker : JSValue :=
  JObj [("name", JStr "Linha do Equador");
        ("slug", JStr "linha-do-equador");
        ("region", JStr "Portugal");
        ("lat", JStr "0");
        ("lng", JStr "6.5228");
        ("image", JUndefined)].

(** A cache the listing reads without throwing: no item is [null] or
    [undefined], and the conversions of a record return on the field data of
    every open item. *)
Definition listable (c : Cache) : bool :=
  negb (existsb isNullish (hotels c))
  && forallb (fun h => converts (prop h "fieldData")) (filter open (hotels c)).

(** An item whose latitude is an object with a key [toString] of its own, as
    a CMS field of that name would come out of [JSON.parse]. *)
Definition oddItem : JSValue :=
  JObj [("fieldData", JObj [
    ("name", JStr "Casa Estranha");
    ("slug", JStr "casa-estranha");
    ("latitude", JObj [("toString", JStr "38.7")])
  ])].

Definition oddCache : Cache :=
  {| hotels := [memmoAlfama; oddItem]; regions := []; collections := [];
     lastFetch := Some 1700000000000%Z |}.

(** A CMS that lists a hotels collection and whose page requests the
    network rejects. *)
Definition pagesRejected (w : unit) (req : Request) : unit * FetchOutcome :=
  (w, match req with
      | ListCollections _ _ =>
          Responded {| ok := true; status := 200; json := Ok siteHotelsOnly |}
      | _ => Rejected
      end).

(** A page request that does not come through as a page: the network rejects
    it, or the answer has an ok status and a body that is not JSON. *)
Definition pageLost (out : FetchOutcome) : Prop :=
  out = Rejected
  \/ exists (st : nat) (e : JSError),
       out = Responded {| ok := true; status := st; json := Throw e |}.
(* ================================================================= *)
(** * Properties *)

(** ** Operators and list helpers *)

Lemma jor_truthy (a b : JSValue) : truthy a = true -> a ||| b = a.
Proof. unfold jor; intros ->; reflexivity. Qed.

Lemma jor_falsy (a b : JSValue) : truthy a = false -> a ||| b = b.
Proof. unfold jor; intros ->; reflexivity. Qed.

Lemma truthy_jor (a b : JSValue) : truthy (a ||| b) = truthy a || truthy b.
Proof. unfold jor; destruct (truthy a) eqn:E; simpl; auto. Qed.

Lemma truthy_jand (a b : JSValue) : truthy (a &&& b) = truthy a && truthy b.
Proof. unfold jand; destruct (truthy a) eqn:E; simpl; auto. Qed.

Lemma truthy_jnot (a : JSValue) : truthy (jnot a) = negb (truthy a).
Proof. reflexivity. Qed.

Lemma jor_undefined_l (b : JSValue) : JUndefined ||| b = b.
Proof. reflexivity. Qed.

Lemma truthy_not_nullish (v : JSValue) : truthy v = true -> nullish v = false.
Proof. destruct v; simpl; congruence. Qed.

Lemma sliceLast_length {A : Type} (n : nat) (xs : list A) :
  List.length (sliceLast n xs) = Nat.min n (List.length xs).
Proof. unfold sliceLast; rewrite length_skipn; lia. Qed.

Lemma sliceLast_suffix {A : Type} (n : nat) (xs : list A) :
  exists earlier, xs = earlier ++ sliceLast n xs.
Proof.
  exists (firstn (List.length xs - n) xs).
  unfold sliceLast; symmetry; apply firstn_skipn.
Qed.

Lemma sliceLast_map {A B : Type} (g : A -> B) (n : nat) (xs : list A) :
  sliceLast n (map g xs) = map g (sliceLast n xs).
Proof. unfold sliceLast; rewrite length_map, skipn_map; reflexivity. Qed.

Lemma sliceLast_short {A : Type} (n : nat) (xs : list A) :
  (List.length xs <= n)%nat -> sliceLast n xs = xs.
Proof.
  intros H; unfold sliceLast.
  replace (List.length xs - n)%nat with 0%nat by lia; reflexivity.
Qed.

Lemma mapR_map_ok {A B C : Type} (f : B -> Result C) (g : A -> B) (h : A -> C) :
  (forall a, f (g a) = Ok (h a)) ->
  forall xs, mapR f (map g xs) = Ok (map h xs).
Proof.
  intros Hf; induction xs as [|x xs IH]; simpl; [reflexivity|].
  rewrite Hf; simpl; rewrite IH; reflexivity.
Qed.

(* ================================================================= *)
(** ** The history forwarded by the chat route *)

Lemma forwardTurn_turnValue (stringify : JSValue -> JSValue) (t : ChatTurn) :
  forwardTurn stringify (turnValue t) = Ok (turnValue t).
Proof. reflexivity. Qed.

Lemma chatMessages_turns (stringify : JSValue -> JSValue)
    (history : list ChatTurn) (message : JSValue) :
  chatMessages stringify (map turnValue history) message
  = Ok (map turnValue (sliceLast 10 history) ++ [newUserTurn message]).
Proof.
  unfold chatMessages.
  rewrite sliceLast_map.
  rewrite (mapR_map_ok (forwardTurn stringify) turnValue turnValue)
    by apply forwardTurn_turnValue.
  reflexivity.
Qed.

(** The same for turns of any shape, as long as the last ten are objects (a
    [null] among them makes the route answer 500): only [role] and [content]
    are forwarded. *)
Lemma chat_forwards_reshaped_turns :
  forall (stringify : JSValue -> JSValue) (history : list JSValue)
         (message : JSValue),
    Forall (fun msg => nullish msg = false) (sliceLast 10 history) ->
    chatMessages stringify history message
    = Ok (map (forwarded stringify) (sliceLast 10 history) ++ [userTurn message]).
Proof.
  intros stringify history message Hobj; unfold chatMessages.
  replace (mapR (forwardTurn stringify) (sliceLast 10 history))
    with (Ok (map (forwarded stringify) (sliceLast 10 history)));
    [reflexivity|].
  induction Hobj as [|msg rest Hmsg _ IH]; [reflexivity|].
  cbn [mapR map]; unfold forwardTurn at 1, getProp; rewrite Hmsg.
  cbn [bind]; rewrite <- IH; reflexivity.
Qed.

(** The legacy chat route forwards the whole history, whatever its length. *)
Lemma legacy_chat_forwards_whole_history :
  forall (history : list ChatTurn) (message : JSValue),
    legacyChatMessages (map turnValue history) message
      = Ok (map turnValue history ++ [userTurn message]).
Proof.
  intros history message; unfold legacyChatMessages.
  rewrite (mapR_map_ok _ turnValue turnValue) by reflexivity.
  reflexivity.
Qed.

(** With the credential set and a message, once the refresh of a stale
    cache (if one is due) has come to its end, the handler gets as far as the
    upstream call: whatever the answer, the request has been sent, once, and
    the cache is as the refresh left it. *)
Lemma postChat_reaches_fetch :
  forall (World : Type) (fetch : World -> Request -> World * FetchOutcome)
         (now : World -> Z) (env : Env) (promptHead promptTail : string)
         (JSON_parse : string -> Result JSValue)
         (JSON_stringify : JSValue -> JSValue)
         (fuel : nat) (message history : JSValue) (s s1 : State World)
         (turns : list JSValue) (req : Request),
    truthy (ANTHROPIC_API_KEY env) = true ->
    truthy message = true ->
    (if isStale (cache World s) (now (world World s))
     then refreshCMSCache World fetch now env fuel
     else ret World tt) s = Some (s1, Ok tt) ->
    historyOf history = Ok turns ->
    chatRequest env promptHead promptTail JSON_stringify (cache World s1) turns
      message = Ok req ->
    exists r : Result HttpResponse,
      postChat World fetch now env promptHead promptTail JSON_parse
        JSON_stringify fuel message history s
      = Some ({| world := fst (fetch (world World s1) req);
                 cache := cache World s1 |}, r).
Proof.
  intros World fetch now env ph pt parse stringify fuel message history s s1
         turns req Hkey Hmsg Hstep Hhist Hreq.
  unfold postChat; rewrite Hkey, Hmsg; cbn [negb].
  unfold tryCatch.
  unfold bindT at 1, getCache at 1.
  unfold bindT at 1, dateNow at 1.
  unfold bindT at 1; rewrite Hstep.
  unfold bindT, getCache, awaitFetch, awaitJson, liftR, ret.
  rewrite Hhist, Hreq.
  destruct (fetch (world World s1) req) as [w' [|r]]; cbn [fst world cache];
    [eexists; reflexivity|].
  destruct (negb (ok r)).
  - destruct (json r) as [errorData|e]; [|eexists; reflexivity].
    destruct (getProp errorData "error") as [err|e]; eexists; reflexivity.
  - destruct (json r) as [data|e]; [|eexists; reflexivity].
    destruct (getProp data "content") as [content|e]; [|eexists; reflexivity].
    destruct (index0 content) as [first|e]; [|eexists; reflexivity].
    cbn [cache].
    destruct (chatReply parse (cache World s1) data
                (optProp first "text" ||| JStr "")) as [response|e];
      eexists; reflexivity.
Qed.

Lemma legacyPostChat_reaches_fetch :
  forall (World : Type) (fetch : World -> Request -> World * FetchOutcome)
         (now : World -> Z) (env : Env) (bullet base tail : string)
         (fuel : nat) (message history : JSValue) (s s1 : State World)
         (turns messages : list JSValue) (system : string),
    truthy (ANTHROPIC_API_KEY env) = true ->
    truthy message = true ->
    (if isStale (cache World s) (now (world World s))
     then legacyRefreshCMSCache World fetch now env fuel
     else ret World tt) s = Some (s1, Ok tt) ->
    historyOf history = Ok turns ->
    legacyChatMessages turns message = Ok messages ->
    legacyBuildSystemPrompt bullet base tail (cache World s1) = Ok system ->
    exists r : Result HttpResponse,
      legacyPostChat World fetch now env bullet base tail fuel message history s
      = Some ({| world :=
                   fst (fetch (world World s1)
                          (CreateMessage (toString (ANTHROPIC_API_KEY env))
                             "claude-sonnet-4-20250514" 1024 system messages));
                 cache := cache World s1 |}, r).
Proof.
  intros World fetch now env bullet base tail fuel message history s s1
         turns messages system Hkey Hmsg Hstep Hhist Hmessages Hsystem.
  unfold legacyPostChat; rewrite Hkey, Hmsg; cbn [negb].
  unfold tryCatch.
  unfold bindT at 1, getCache at 1.
  unfold bindT at 1, dateNow at 1.
  unfold bindT at 1; rewrite Hstep.
  unfold bindT, getCache, awaitFetch, awaitJson, liftR, ret.
  rewrite Hhist, Hmessages, Hsystem.
  destruct (fetch (world World s1) _) as [w' [|r]]; cbn [fst world cache];
    [eexists; reflexivity|].
  destruct (negb (ok r)).
  - destruct (json r) as [errorData|e]; [|eexists; reflexivity].
    destruct (getProp errorData "error") as [err|e]; eexists; reflexivity.
  - destruct (json r) as [data|e]; [|eexists; reflexivity].
    destruct (getProp data "content") as [content|e]; [|eexists; reflexivity].
    destruct (index0 content) as [first|e]; eexists; reflexivity.
Qed.

Lemma configured_key (env : Env) (key : string) :
  ANTHROPIC_API_KEY_env env = Some key -> key <> "" ->
  truthy (ANTHROPIC_API_KEY env) = true
  /\ toString (ANTHROPIC_API_KEY env) = key.
Proof.
  intros Hkey Hne; unfold ANTHROPIC_API_KEY; rewrite Hkey.
  split; [|reflexivity].
  destruct key; [contradiction|reflexivity].
Qed.

(** C3 (as amended). On a network that records what it receives, with the
    credential set and a message: once the refresh of a stale cache, if one
    is due, has come to its end and the system prompt is built, the chat
    route of the current server sends one request to the chat-completion
    endpoint, and its [messages] are the most recent ten turns of the
    history (all of them when there are ten or fewer) followed by the turn of
    the new user message; the turns before the last ten are not sent.  Under
    the same conditions the chat route of the legacy variant sends one
    request whose [messages] are all the turns of the history followed by the
    turn of the new user message. *)
Theorem chat_forwards_last_ten_turns :
  forall (answer : Request -> FetchOutcome) (now : list Request -> Z)
         (env : Env) (key : string)
         (JSON_parse : string -> Result JSValue)
         (JSON_stringify : JSValue -> JSValue)
         (fuel : nat) (history : list ChatTurn) (message : JSValue)
         (s : State (list Request)),
    ANTHROPIC_API_KEY_env env = Some key ->
    key <> "" ->
    truthy message = true ->
    exists earlier recent : list ChatTurn,
      history = earlier ++ recent
      /\ List.length recent = Nat.min 10 (List.length history)
      /\ (forall (s1 : State (list Request))
                 (promptHead promptTail system : string),
            (if isStale (cache (list Request) s)
                  (now (world (list Request) s))
             then refreshCMSCache (list Request) (recording answer) now env fuel
             else ret (list Request) tt) s = Some (s1, Ok tt) ->
            buildSystemPrompt promptHead promptTail (cache (list Request) s1)
              = Ok system ->
            exists r : Result HttpResponse,
              postChat (list Request) (recording answer) now env promptHead
                promptTail JSON_parse JSON_stringify fuel message
                (JArr (map turnValue history)) s
              = Some ({| world :=
                           world (list Request) s1
                           ++ [CreateMessage key "claude-sonnet-4-20250514"
                                 1024 system
                                 (map turnValue recent
                                  ++ [newUserTurn message])];
                         cache := cache (list Request) s1 |}, r))
      /\ (forall (s1 : State (list Request))
                 (bullet base tail system : string),
            (if isStale (cache (list Request) s)
                  (now (world (list Request) s))
             then legacyRefreshCMSCache (list Request) (recording answer) now
                    env fuel
             else ret (list Request) tt) s = Some (s1, Ok tt) ->
            legacyBuildSystemPrompt bullet base tail (cache (list Request) s1)
              = Ok system ->
            exists r : Result HttpResponse,
              legacyPostChat (list Request) (recording answer) now env bullet
                base tail fuel message (JArr (map turnValue history)) s
              = Some ({| world :=
                           world (list Request) s1
                           ++ [CreateMessage key "claude-sonnet-4-20250514"
                                 1024 system
                                 (map turnValue history
                                  ++ [newUserTurn message])];
                         cache := cache (list Request) s1 |}, r)).
Proof.
  intros answer now env key parse stringify fuel history message s
         Hkey Hne Hmsg.
  destruct (configured_key env key Hkey Hne) as [Hset Htext].
  exists (firstn (List.length history - 10) history), (sliceLast 10 history).
  split; [unfold sliceLast; symmetry; apply firstn_skipn|].
  split; [apply sliceLast_length|].
  split.
  - intros s1 ph pt system Hstep Hsystem.
    destruct (postChat_reaches_fetch (list Request) (recording answer) now env
                ph pt parse stringify fuel message
                (JArr (map turnValue history)) s s1
                (map turnValue history)
                (CreateMessage key "claude-sonnet-4-20250514" 1024 system
                   (map turnValue (sliceLast 10 history)
                    ++ [newUserTurn message]))
                Hset Hmsg Hstep eq_refl) as [r Hr].
    { unfold chatRequest; rewrite chatMessages_turns; cbn [bind].
      rewrite Hsystem; cbn [bind]; rewrite Htext; reflexivity. }
    exists r; exact Hr.
  - intros s1 bullet base tail system Hstep Hsystem.
    destruct (legacyPostChat_reaches_fetch (list Request) (recording answer)
                now env bullet base tail fuel message
                (JArr (map turnValue history)) s s1
                (map turnValue history)
                (map turnValue history ++ [newUserTurn message]) system
                Hset Hmsg Hstep eq_refl
                (legacy_chat_forwards_whole_history history message) Hsystem)
      as [r Hr].
    exists r; rewrite Hr, Htext; reflexivity.
Qed.

(** An instance: of a history of twelve turns the current server forwards
    ten. *)
Lemma chat_forwards_last_ten_turns_witness :
  exists earlier recent : list ChatTurn,
    turnsOf 12 = earlier ++ recent /\ List.length recent = 10%nat.
Proof.
  destruct (chat_forwards_last_ten_turns (fun _ => Rejected) (fun _ => 0%Z)
              chatEnv "chat-key" jsonParse jsonStringify 0 (turnsOf 12)
              (JStr "And now?") {| world := []; cache := memmoCache |} eq_refl)
    as [earlier [recent [Hsplit [Hlen _]]]].
  - discriminate.
  - reflexivity.
  - exists earlier, recent; split; [exact Hsplit|exact Hlen].
Defined.

(** Counterexample to C3 as stated, in the legacy variant: of a history of
    eleven turns the legacy chat route forwards all eleven, the oldest first,
    and then the new user turn: twelve messages where the last ten and the new
    turn make eleven. *)
Lemma legacy_forwards_all_eleven_turns :
  legacyPostChat (list Request) (recording (fun _ => Rejected)) (fun _ => 0%Z)
    chatEnv "*" "BASE" "TAIL" 0 (JStr "And now?")
    (JArr (map turnValue (turnsOf 11)))
    {| world := []; cache := cmsCache0 |}
  = Some ({| world :=
               [CreateMessage "chat-key" "claude-sonnet-4-20250514" 1024
                  "BASETAIL"
                  (map turnValue (turnsOf 11)
                   ++ [JObj [("role", JStr "user");
                             ("content", JStr "And now?")]])];
             cache := cmsCache0 |},
          Ok {| statusCode := 500;
                body := JObj [("error",
                               JStr "Failed to process chat request")] |})
  /\ List.length
       (map turnValue (turnsOf 11)
        ++ [JObj [("role", JStr "user"); ("content", JStr "And now?")]])
     = 12%nat
  /\ List.length
       (map turnValue (sliceLast 10 (turnsOf 11))
        ++ [JObj [("role", JStr "user"); ("content", JStr "And now?")]])
     = 11%nat
  /\ hd JNull (map turnValue (turnsOf 11))
     = JObj [("role", JStr "user"); ("content", JStr "0")].
Proof.
  repeat split; vm_compute; reflexivity.
Qed.

(* ================================================================= *)
(** ** [GET /api/config] *)

Lemma truthy_envValue (x : option string) : truthy (envValue x) = configured x.
Proof. destruct x as [[|ch s]|]; reflexivity. Qed.

(** C9. Two runs of [GET /api/config] that agree on the cache and on the map
    token, and in which each of the CMS credential and the chat-completion
    credential is configured in both runs or in neither, answer with the same
    body: the two credentials reach the response as the booleans [hasWebflow]
    and [hasClaude] only. *)
Theorem config_exposes_presence_flags_only :
  forall (e1 e2 : Env) (c : Cache),
    MAPBOX_TOKEN_env e1 = MAPBOX_TOKEN_env e2 ->
    configured (WEBFLOW_API_TOKEN_env e1) = configured (WEBFLOW_API_TOKEN_env e2) ->
    configured (ANTHROPIC_API_KEY_env e1) = configured (ANTHROPIC_API_KEY_env e2) ->
    getConfig e1 c = getConfig e2 c
    /\ getConfig e1 c =
         resJson (JObj [
           ("mapboxToken", envValue (MAPBOX_TOKEN_env e1) ||| JStr "");
           ("hasWebflow", JBool (configured (WEBFLOW_API_TOKEN_env e1)));
           ("hasClaude", JBool (configured (ANTHROPIC_API_KEY_env e1)));
           ("hotelCount", hotelCount c)
         ]).
Proof.
  intros e1 e2 c Hm Hw Ha.
  assert (shape : forall e, getConfig e c =
            resJson (JObj [
              ("mapboxToken", envValue (MAPBOX_TOKEN_env e) ||| JStr "");
              ("hasWebflow", JBool (configured (WEBFLOW_API_TOKEN_env e)));
              ("hasClaude", JBool (configured (ANTHROPIC_API_KEY_env e)));
              ("hotelCount", hotelCount c)])).
  { intros e; unfold getConfig, jnot, MAPBOX_TOKEN, WEBFLOW_API_TOKEN,
      ANTHROPIC_API_KEY; simpl.
    rewrite !truthy_envValue, !negb_involutive; reflexivity. }
  split; [|apply shape].
  rewrite (shape e1), (shape e2), Hm, Hw, Ha; reflexivity.
Qed.

(** An instance: two environments with different secrets, both configured. *)
Lemma config_exposes_presence_flags_only_witness :
  getConfig envSecretsA cmsCache0 = getConfig envSecretsB cmsCache0.
Proof.
  apply (config_exposes_presence_flags_only envSecretsA envSecretsB cmsCache0);
    reflexivity.
Defined.

(* ================================================================= *)
(** ** The chat route, from the upstream answer on *)

Section ChatRoute.

Variable World : Type.
Variable fetch : World -> Request -> World * FetchOutcome.
Variable now : World -> Z.
Variable env : Env.
Variable promptHead promptTail : string.
Variable JSON_parse : string -> Result JSValue.
Variable JSON_stringify : JSValue -> JSValue.


End ChatRoute.





(* ================================================================= *)
(** ** Slug resolution *)

Lemma findR_hasSlug (slug : JSValue) (hs : list JSValue) :
  Forall (fun h => nullish h = false) hs ->
  findR (fun h =>
           let* fieldData := getProp h "fieldData" in
           Ok (strictEq (optProp fieldData "slug") slug)) hs
  = Ok (find (hasSlug slug) hs).
Proof.
  induction 1 as [|h hs Hh _ IH]; simpl; [reflexivity|].
  unfold getProp; rewrite Hh; simpl.
  fold (hasSlug slug h).
  destruct (hasSlug slug h); [reflexivity|exact IH].
Qed.

Lemma hasSlug_string_item (s : string) (h : JSValue) :
  hasSlug (JStr s) h = true ->
  truthy h = true /\ nullish (prop h "fieldData") = false.
Proof.
  unfold hasSlug, optProp; intros H.
  destruct (nullish (prop h "fieldData")) eqn:N; [discriminate|].
  split; [|reflexivity].
  destruct h; simpl in N; try discriminate; reflexivity.
Qed.

Lemma recordConversions_converts (f : JSValue) :
  recordConversions f = if converts f then Ok tt else Throw TypeError.
Proof.
  unfold recordConversions, converts, stringOf.
  destruct (printable (prop f "latitude" ||| prop f "lat")); [|reflexivity].
  destruct (printable (prop f "longitude" ||| prop f "lng" ||| prop f "lon"));
    [|reflexivity].
  destruct (printable (prop f "slug")); reflexivity.
Qed.

Lemma readable_item (h : JSValue) :
  readable h = true -> nullish h = false /\ converts (prop h "fieldData") = true.
Proof.
  unfold readable; intros H; apply andb_true_iff in H; destruct H as [Hn Hc].
  apply negb_true_iff in Hn; split; assumption.
Qed.

Lemma readable_not_nullish (hs : list JSValue) :
  Forall (fun h => readable h = true) hs ->
  Forall (fun h => nullish h = false) hs.
Proof.
  intros H; eapply Forall_impl; [|exact H].
  intros h Hh; exact (proj1 (readable_item h Hh)).
Qed.

(** The lookup by slug over a cache without [null] items: the first item
    with the slug, converted; [null] when there is none. *)
Lemma getHotelBySlug_string (c : Cache) (s : string) :
  Forall (fun h => nullish h = false) (hotels c) ->
  getHotelBySlug c (JStr s)
  = match find (hasSlug (JStr s)) (hotels c) with
    | Some h =>
        if converts (prop h "fieldData")
        then Ok (slugRecord (prop h "fieldData"))
        else Throw TypeError
    | None => Ok JNull
    end.
Proof.
  intros Hitems; unfold getHotelBySlug.
  rewrite (findR_hasSlug (JStr s) (hotels c) Hitems); simpl.
  destruct (find (hasSlug (JStr s)) (hotels c)) as [h|] eqn:F; [|reflexivity].
  apply find_some in F; destruct F as [_ F].
  destruct (hasSlug_string_item s h F) as [Ht Hn].
  rewrite Ht, Hn, recordConversions_converts; cbn [negb].
  destruct (converts (prop h "fieldData")); reflexivity.
Qed.

Lemma getHotelBySlug_readable (c : Cache) (s : string) :
  Forall (fun h => readable h = true) (hotels c) ->
  getHotelBySlug c (JStr s)
  = Ok match find (hasSlug (JStr s)) (hotels c) with
       | Some h => slugRecord (prop h "fieldData")
       | None => JNull
       end.
Proof.
  intros Hitems.
  rewrite (getHotelBySlug_string c s (readable_not_nullish _ Hitems)).
  destruct (find (hasSlug (JStr s)) (hotels c)) as [h|] eqn:F; [|reflexivity].
  apply find_some in F; destruct F as [Hin _].
  rewrite Forall_forall in Hitems.
  rewrite (proj2 (readable_item h (Hitems h Hin))); reflexivity.
Qed.

Lemma resolve_all (c : Cache) (slugs : list string) :
  Forall (fun h => readable h = true) (hotels c) ->
  (let* found := mapR (getHotelBySlug c) (map JStr slugs) in
   Ok (filter (fun h => negb (strictEq h JNull)) found))
  = Ok (cardsFor c slugs).
Proof.
  intros Hitems; induction slugs as [|s slugs IH]; [reflexivity|].
  simpl; rewrite (getHotelBySlug_readable c s Hitems); simpl.
  destruct (mapR (getHotelBySlug c) (map JStr slugs)) as [found|e];
    simpl in *; [|discriminate].
  injection IH as IH.
  destruct (find (hasSlug (JStr s)) (hotels c)); simpl; rewrite IH; reflexivity.
Qed.

(** C5 (where the code departs from it). The slugs of a reply are resolved
    against the cached items, not against the set the listing shows.  Over a
    cache of items that can be read, the cards are the lookup records of the
    slugs that name a cached item, in the order of the reply, and a slug that
    names none adds no card and raises no error: with Memmo Alfama cached and
    a reply that lists [memmo-alfama] and [nonexistent-slug],
    [POST /api/chat] answers 200 with exactly one hotel, the Memmo Alfama
    record.  But an archived item, which the listing leaves out, is a cached
    item all the same: a reply that names its slug gets its record as a
    card. *)
Theorem chat_resolves_slugs_against_whole_cache :
  (forall (c : Cache) (parsed : JSValue) (slugs : list string),
      Forall (fun h => readable h = true) (hotels c) ->
      nullish parsed = false ->
      prop parsed "hotels" = JArr (map JStr slugs) ->
      hotelCards c parsed = Ok (cardsFor c slugs)
      /\ (List.length (cardsFor c slugs) <= List.length slugs)%nat)
  /\ postChat unit (answering sampleReply) sampleClock chatEnv "" ""
       jsonParse jsonStringify 1 (JStr "Somewhere in Alfama?") JUndefined
       {| world := tt; cache := memmoCache |}
     = Some ({| world := tt; cache := memmoCache |},
             Ok {| statusCode := 200;
                   body := JObj [
                     ("message", JStr "Great pick!");
                     ("hotels", JArr [memmoRecord]);
                     ("mapAction", JNull);
                     ("usage", sampleUsage)] |})
  /\ flagged closedInn = true
  /\ getAllHotels closedCache = Ok []
  /\ postChat unit (answering closedReply) sampleClock chatEnv "" ""
       jsonParse jsonStringify 1 (JStr "Anything quiet?") JUndefined
       {| world := tt; cache := closedCache |}
     = Some ({| world := tt; cache := closedCache |},
             Ok {| statusCode := 200;
                   body := JObj [
                     ("message", JStr "Try this one.");
                     ("hotels", JArr [closedInnRecord]);
                     ("mapAction", JNull);
                     ("usage", sampleUsage)] |}).
Proof.
  split; [|repeat split; vm_compute; reflexivity].
  intros c parsed slugs Hitems Hparsed Hslugs; split.
  - unfold hotelCards, getProp; rewrite Hparsed, Hslugs; simpl.
    apply resolve_all; exact Hitems.
  - clear Hparsed Hslugs.
    unfold cardsFor; induction slugs as [|s slugs IH]; simpl; [lia|].
    rewrite length_app.
    destruct (find (hasSlug (JStr s)) (hotels c)); simpl; lia.
Qed.

(** An instance of the general part: the reply of the example, parsed. *)
Lemma chat_resolves_slugs_against_whole_cache_witness :
  hotelCards memmoCache
    (JObj [("message", JStr "Great pick!");
           ("hotels", JArr [JStr "memmo-alfama"; JStr "nonexistent-slug"]);
           ("mapAction", JNull)])
  = Ok [memmoRecord].
Proof.
  refine (proj1 (proj1 chat_resolves_slugs_against_whole_cache
            memmoCache _ ["memmo-alfama"; "nonexistent-slug"] _ _ _)).
  - repeat constructor.
  - reflexivity.
  - reflexivity.
Defined.

(* ================================================================= *)
(** ** Archived and closed items *)

Lemma listed_open (h : JSValue) :
  nullish h = false -> listed h = Ok (open h).
Proof.
  intros Hh; unfold listed, getProp, open, flagged; rewrite Hh; simpl.
  rewrite !truthy_jand, !truthy_jnot, negb_orb, andb_assoc; reflexivity.
Qed.

Lemma filterR_listed (hs kept : list JSValue) :
  filterR listed hs = Ok kept -> kept = filter open hs.
Proof.
  revert kept; induction hs as [|h hs IH]; simpl; intros kept H.
  - injection H as <-; reflexivity.
  - destruct (nullish h) eqn:Hh.
    + unfold listed, getProp in H; rewrite Hh in H; discriminate.
    + rewrite (listed_open h Hh) in H; simpl in H.
      destruct (filterR listed hs) as [rest|e]; simpl in H; [|discriminate].
      injection H as <-; rewrite (IH rest eq_refl).
      destruct (open h); reflexivity.
Qed.

Lemma mapR_guarded {A B : Type} (g : A -> Result unit) (f : A -> B)
    (xs : list A) (ys : list B) :
  mapR (fun x => let* _ := g x in Ok (f x)) xs = Ok ys ->
  ys = map f xs /\ Forall (fun x => g x = Ok tt) xs.
Proof.
  revert ys; induction xs as [|x xs IH]; intros ys H.
  - injection H as <-; split; constructor.
  - cbn [mapR] in H.
    destruct (g x) as [[]|e] eqn:G; cbn [bind] in H; [|discriminate].
    destruct (mapR (fun x => let* _ := g x in Ok (f x)) xs) as [rest|e];
      cbn [bind] in H; [|discriminate].
    injection H as <-.
    destruct (IH rest eq_refl) as [-> Hall].
    split; [reflexivity|constructor; assumption].
Qed.

Lemma mapR_guarded_ok {A B : Type} (g : A -> Result unit) (f : A -> B)
    (xs : list A) :
  Forall (fun x => g x = Ok tt) xs ->
  mapR (fun x => let* _ := g x in Ok (f x)) xs = Ok (map f xs).
Proof.
  induction 1 as [|x xs Hx _ IH]; [reflexivity|].
  cbn [mapR map]; rewrite Hx; cbn [bind]; rewrite IH; reflexivity.
Qed.

(** The full listing shows the records of the open items only: a flagged
    item is not among the items it is built from. *)
Lemma getAllHotels_hides_flagged (c : Cache) (out : list JSValue) :
  getAllHotels c = Ok out ->
  out = map listingRecord (filter open (hotels c))
  /\ forall h, In h (filter open (hotels c)) -> flagged h = false.
Proof.
  unfold getAllHotels; intros H.
  destruct (filterR listed (hotels c)) as [kept|e] eqn:F; simpl in H;
    [|discriminate].
  apply mapR_guarded in H; destruct H as [-> _].
  rewrite (filterR_listed _ _ F); split; [reflexivity|].
  intros h Hin; apply filter_In in Hin; destruct Hin as [_ Ho].
  unfold open in Ho; apply andb_true_iff in Ho; destruct Ho as [_ Ho].
  now apply negb_true_iff in Ho.
Qed.

(** So does the marker listing of the legacy variant. *)
Lemma getMarkers_hides_flagged (c : Cache) (out : HttpResponse) :
  getMarkers c = Ok out ->
  out = resJson (JArr (filter hasCoordinates
                         (map markerRecord (filter open (hotels c)))))
  /\ forall h, In h (filter open (hotels c)) -> flagged h = false.
Proof.
  unfold getMarkers; intros H.
  destruct (filterR listed (hotels c)) as [kept|e] eqn:F; simpl in H;
    [|discriminate].
  injection H as <-; rewrite (filterR_listed _ _ F); split; [reflexivity|].
  intros h Hin; apply filter_In in Hin; destruct Hin as [_ Ho].
  unfold open in Ho; apply andb_true_iff in Ho; destruct Ho as [_ Ho].
  now apply negb_true_iff in Ho.
Qed.

(** C2 (where the code departs from it). With an archived hotel in the cache,
    the two listings leave it out, but the lookup by slug serves its record:
    [GET /api/hotels/closed-inn] answers 200 with it, and the chat route
    returns it as a card when the reply names its slug. *)
Theorem archived_hotel_is_served_by_slug :
  flagged closedInn = true
  /\ getAllHotels closedCache = Ok []
  /\ getMarkers closedCache = Ok (resJson (JArr []))
  /\ getHotel closedCache "closed-inn" = Ok (resJson closedInnRecord)
  /\ hotelCards closedCache (JObj [("hotels", JArr [JStr "closed-inn"])])
     = Ok [closedInnRecord].
Proof.
  repeat split; vm_compute; reflexivity.
Qed.

(* ================================================================= *)
(** ** Coordinates *)






Lemma hasCoordinates_lat_null (r : JSValue) :
  prop r "lat" = JNull -> hasCoordinates r = false.
Proof. unfold hasCoordinates; intros ->; reflexivity. Qed.

Lemma hasCoordinates_lng_null (r : JSValue) :
  prop r "lng" = JNull -> hasCoordinates r = false.
Proof.
  unfold hasCoordinates; intros ->.
  rewrite truthy_jand; apply andb_false_r.
Qed.









(* ================================================================= *)
(** ** Paging through a collection *)

Lemma firstn_page {A : Type} (off size : nat) (xs : list A) :
  firstn off xs ++ firstn size (skipn off xs) = firstn (off + size) xs.
Proof.
  revert xs; induction off as [|off IH]; intros xs; simpl; [reflexivity|].
  destruct xs as [|x xs]; simpl.
  - rewrite firstn_nil; reflexivity.
  - rewrite IH; reflexivity.
Qed.

Lemma page_length {A : Type} (off size : nat) (xs : list A) :
  List.length (firstn size (skipn off xs)) = Nat.min size (List.length xs - off).
Proof. rewrite length_firstn, length_skipn; reflexivity. Qed.

Lemma pagesFor_bounds (n : nat) :
  ((pagesFor n - 1) * 100 <= n < pagesFor n * 100)%nat.
Proof.
  unfold pagesFor.
  pose proof (Nat.div_mod_eq n 100) as E.
  pose proof (Nat.mod_upper_bound n 100) as B.
  lia.
Qed.

(** The loop, entered at page [i] with the first [i] pages gathered: it issues
    the requests for the pages [i], [i + 1], ... up to the first page that
    fails or comes back short, and returns what the pages before a failure
    held. *)
Lemma fetchPages_run (env : Env) (id : JSValue) (items : list JSValue)
    (failPage : option nat) (c : Cache) :
  printable id = true ->
  forall (n i fuel : nat) (received : list Request),
    match failPage with Some p => (i <= p)%nat | None => True end ->
    (i + n = requestsIssued (List.length items) failPage)%nat ->
    (0 < n <= fuel)%nat ->
    fetchPages (list Request) (cmsServer items failPage) env fuel id
      (firstn (i * 100) items) (i * 100)
      {| world := received; cache := c |}
    = Some ({| world := received ++ pageRequests env id i n; cache := c |},
            Ok (itemsFetched items failPage)).
Proof.
  intros Hid.
  pose proof (pagesFor_bounds (List.length items)) as Hq.
  remember (itemsFetched items failPage) as fetched eqn:Hfetched.
  induction n as [|n IH]; intros i fuel received Hfail Hn Hfuel; [lia|].
  destruct fuel as [|fuel]; [lia|].
  assert (Hstep : forall page,
            firstn (i * 100) items ++ firstn 100 (skipn (i * 100) items) = page ->
            page = firstn (S i * 100) items).
  { intros page <-; rewrite firstn_page; f_equal; lia. }
  assert (Hlen : List.length (firstn 100 (skipn (i * 100) items))
                 = Nat.min 100 (List.length items - i * 100))
    by apply page_length.
  assert (Hreqs : forall m, pageRequests env id i (S m)
                  = ListItems (bearer env) (toString id) (i * 100) 100
                    :: pageRequests env id (S i) m) by reflexivity.
  rewrite Hreqs.
  cbn [fetchPages].
  unfold bindT at 1, liftR at 1, stringOf; rewrite Hid.
  unfold bindT at 1, awaitFetch; cbn [world cache cmsServer fst snd].
  unfold limit.
  destruct (match failPage with
            | Some p => (i * 100 =? p * 100)%nat
            | None => false
            end) eqn:Hhit.
  - (* the request for page [i] is answered with a failure *)
    destruct failPage as [p|]; [|discriminate].
    apply Nat.eqb_eq in Hhit.
    assert (i = p) by lia; subst i.
    cbn [requestsIssued] in Hn.
    assert (n = 0)%nat by lia; subst n.
    assert (Hlt : (p <? pagesFor (List.length items))%nat = true)
      by (apply Nat.ltb_lt; lia).
    cbn [ok negb]; unfold ret.
    rewrite Hfetched; cbn [itemsFetched]; rewrite Hlt.
    reflexivity.
  - cbn [ok negb json].
    unfold bindT, awaitJson, liftR, getProp.
    cbn [nullish prop lookup String.eqb Ascii.eqb Bool.eqb json bind iterate
         jor jand truthy lengthIs].
    rewrite Hlen.
    destruct (Nat.min 100 (List.length items - i * 100) =? 100)%nat eqn:Hfull.
    + apply Nat.eqb_eq in Hfull.
      cbn [truthy].
      rewrite (Hstep _ eq_refl).
      replace (i * 100 + 100)%nat with (S i * 100)%nat by lia.
      rewrite (IH (S i) fuel).
      * rewrite <- app_assoc; reflexivity.
      * destruct failPage as [p|]; [|exact I].
        apply Nat.eqb_neq in Hhit; lia.
      * destruct failPage as [p|]; cbn [requestsIssued] in *; lia.
      * destruct failPage as [p|]; cbn [requestsIssued] in *;
          [apply Nat.eqb_neq in Hhit|]; lia.
    + apply Nat.eqb_neq in Hfull.
      cbn [truthy]; unfold ret.
      rewrite (Hstep _ eq_refl).
      assert (n = 0)%nat
        by (destruct failPage as [p|]; cbn [requestsIssued] in *;
            [apply Nat.eqb_neq in Hhit|]; lia).
      subst n.
      rewrite firstn_all2 by lia.
      rewrite Hfetched.
      destruct failPage as [p|]; cbn [itemsFetched requestsIssued] in *;
        [|reflexivity].
      apply Nat.eqb_neq in Hhit.
      assert (Hge : (p <? pagesFor (List.length items))%nat = false)
        by (apply Nat.ltb_ge; lia).
      rewrite Hge; reflexivity.
Qed.

Lemma pagesFor_ceiling (n : nat) :
  ((n mod 100 <> 0 -> pagesFor n = (n + 99) / 100)
   /\ (n mod 100 = 0 -> pagesFor n = S ((n + 99) / 100)))%nat.
Proof.
  unfold pagesFor.
  pose proof (Nat.div_mod_eq n 100) as E.
  pose proof (Nat.mod_upper_bound n 100) as B.
  split; intros H.
  - apply (Nat.div_unique _ 100 _ (n mod 100 - 1)); lia.
  - f_equal; apply (Nat.div_unique _ 100 _ 99); lia.
Qed.

Lemma concat_pages (items : list JSValue) (k : nat) :
  List.concat (map (pageOf items) (seq 0 k)) = firstn (k * 100) items.
Proof.
  induction k as [|k IH]; [reflexivity|].
  rewrite seq_S, map_app, concat_app, IH; cbn [map List.concat].
  rewrite app_nil_r; unfold pageOf.
  rewrite firstn_page; f_equal; lia.
Qed.

Lemma itemsFetched_pages (items : list JSValue) (failPage : option nat) :
  itemsFetched items failPage
  = List.concat (map (pageOf items)
              (seq 0 (pagesFetched (List.length items) failPage))).
Proof.
  pose proof (pagesFor_bounds (List.length items)) as Hq.
  rewrite concat_pages; unfold itemsFetched, pagesFetched.
  destruct failPage as [p|].
  - destruct (p <? pagesFor (List.length items))%nat; [reflexivity|].
    rewrite firstn_all2 by lia; reflexivity.
  - rewrite firstn_all2 by lia; reflexivity.
Qed.

(** C4 (as amended). For a collection of [N] items served in pages of 100,
    under an id that converts to a string (as every string does),
    [fetchAllCollectionItems] issues [N / 100 + 1] page requests when no
    request fails: that is [ceil(N / 100)] when [N] is not a multiple of 100,
    and one more (a last, empty page) when it is.  When the request for page
    [p] is answered with a failure status the loop ends there without
    throwing, after [p + 1] requests.  It returns the items of the pages
    fetched before that, in order: all [N] items when nothing fails. *)
Theorem fetchAll_pages_through_collection :
  forall (env : Env) (id : JSValue) (items : list JSValue)
         (failPage : option nat) (fuel : nat)
         (received : list Request) (c : Cache),
    printable id = true ->
    (requestsIssued (List.length items) failPage <= fuel)%nat ->
    fetchAllCollectionItems (list Request) (cmsServer items failPage) env fuel id
      {| world := received; cache := c |}
    = Some ({| world :=
                 received
                 ++ pageRequests env id 0
                      (requestsIssued (List.length items) failPage);
               cache := c |},
            Ok (itemsFetched items failPage))
    /\ List.length
         (pageRequests env id 0 (requestsIssued (List.length items) failPage))
       = requestsIssued (List.length items) failPage
    /\ itemsFetched items failPage
       = List.concat (map (pageOf items)
                   (seq 0 (pagesFetched (List.length items) failPage)))
    /\ requestsIssued (List.length items) None = (List.length items / 100 + 1)%nat
    /\ (requestsIssued (List.length items) failPage
        <= requestsIssued (List.length items) None)%nat
    /\ itemsFetched items None = items
    /\ (List.length items mod 100 <> 0 ->
        requestsIssued (List.length items) None
        = ((List.length items + 99) / 100)%nat)
    /\ (List.length items mod 100 = 0 ->
        requestsIssued (List.length items) None
        = S ((List.length items + 99) / 100))%nat.
Proof.
  intros env id items failPage fuel received c Hid Hfuel.
  split.
  { unfold fetchAllCollectionItems.
    apply (fetchPages_run env id items failPage c Hid
             (requestsIssued (List.length items) failPage) 0 fuel received).
    - destruct failPage; [lia|exact I].
    - reflexivity.
    - split; [|exact Hfuel].
      destruct failPage; unfold requestsIssued, pagesFor; lia. }
  split.
  { unfold pageRequests; rewrite length_map, length_seq; reflexivity. }
  split; [apply itemsFetched_pages|].
  split; [unfold requestsIssued, pagesFor; rewrite Nat.add_1_r; reflexivity|].
  split; [destruct failPage; unfold requestsIssued; lia|].
  split; [reflexivity|].
  exact (pagesFor_ceiling (List.length items)).
Qed.

(** An instance: 250 items come in three pages. *)
Lemma fetchAll_pages_through_collection_witness :
  fetchAllCollectionItems (list Request)
    (cmsServer (repeat memmoAlfama 250) None) cmsEnv 3 (JStr "col-hotels")
    {| world := []; cache := cmsCache0 |}
  = Some ({| world := pageRequests cmsEnv (JStr "col-hotels") 0 3;
             cache := cmsCache0 |},
          Ok (repeat memmoAlfama 250)).
Proof.
  refine (proj1 (fetchAll_pages_through_collection cmsEnv (JStr "col-hotels")
                   (repeat memmoAlfama 250) None 3 [] cmsCache0 _ _)).
  - reflexivity.
  - vm_compute; apply le_n.
Defined.

(** Counterexample to C4 as stated: a collection of exactly 100 items takes
    two page requests, where [ceil(100 / 100)] is one; an empty collection
    takes one request, where [ceil(0 / 100)] is none.  No request fails.  And
    a request that the network rejects does not end the loop quietly: the
    error leaves [fetchAllCollectionItems]. *)
Lemma full_last_page_costs_one_more_request :
  fetchAllCollectionItems (list Request)
    (cmsServer (repeat memmoAlfama 100) None) cmsEnv 5 (JStr "col-hotels")
    {| world := []; cache := cmsCache0 |}
  = Some ({| world := [ListItems "Bearer cms-token" "col-hotels" 0 100;
                       ListItems "Bearer cms-token" "col-hotels" 100 100];
             cache := cmsCache0 |},
          Ok (repeat memmoAlfama 100))
  /\ ((100 + 99) / 100 = 1)%nat
  /\ fetchAllCollectionItems (list Request)
       (cmsServer [] None) cmsEnv 5 (JStr "col-hotels")
       {| world := []; cache := cmsCache0 |}
     = Some ({| world := [ListItems "Bearer cms-token" "col-hotels" 0 100];
                cache := cmsCache0 |},
             Ok [])
  /\ ((0 + 99) / 100 = 0)%nat
  /\ fetchAllCollectionItems unit regionsUnreachable cmsEnv 5
       (JStr "col-regions") {| world := tt; cache := cmsCache0 |}
     = Some ({| world := tt; cache := cmsCache0 |}, Throw NetworkError).
Proof.
  repeat split; vm_compute; reflexivity.
Qed.

(* ================================================================= *)
(** ** A refresh that throws *)

Section Refresh.

Variable World : Type.
Variable fetch : World -> Request -> World * FetchOutcome.
Variable now : World -> Z.
Variable env : Env.

(** Paging reads the network only: the cache is as it was. *)
Lemma fetchPages_keeps_cache :
  forall (fuel : nat) (id : JSValue) (acc : list JSValue) (off : nat)
         (s s' : State World) (r : Result (list JSValue)),
    fetchPages World fetch env fuel id acc off s = Some (s', r) ->
    cache World s' = cache World s.
Proof.
  induction fuel as [|fuel IH]; intros id acc off s s' r H; [discriminate|].
  cbn [fetchPages] in H.
  unfold bindT, awaitFetch, awaitJson, liftR, ret in H.
  destruct (stringOf id) as [idText|e0];
    [|injection H as <- _; reflexivity].
  destruct (fetch (world World s) _) as [w' [|resp]]; cbn in H.
  - injection H as <- _; reflexivity.
  - destruct (ok resp); cbn in H.
    + destruct (json resp) as [data|e]; cbn in H;
        [|injection H as <- _; reflexivity].
      destruct (getProp data "items") as [dataItems|e]; cbn in H;
        [|injection H as <- _; reflexivity].
      destruct (iterate (dataItems ||| JArr [])) as [page|e]; cbn in H;
        [|injection H as <- _; reflexivity].
      destruct (truthy _).
      * apply IH in H; exact H.
      * injection H as <- _; reflexivity.
    + injection H as <- _; reflexivity.
Qed.

Lemma fetchAllCollectionItems_keeps_cache :
  forall (fuel : nat) (id : JSValue) (s s' : State World)
         (r : Result (list JSValue)),
    fetchAllCollectionItems World fetch env fuel id s = Some (s', r) ->
    cache World s' = cache World s.
Proof. intros fuel id s s' r; apply fetchPages_keeps_cache. Qed.

(** Listing the collections never throws and leaves the cache alone. *)
Lemma fetchWebflowCollections_returns (s : State World) :
  exists (w' : World) (v : JSValue),
    fetchWebflowCollections World fetch env s
    = Some ({| world := w'; cache := cache World s |}, Ok v).
Proof.
  unfold fetchWebflowCollections, tryCatch, bindT, awaitFetch, awaitJson,
    liftR, ret, throw.
  destruct (fetch (world World s) _) as [w' [|resp]]; cbn.
  - eauto.
  - destruct (ok resp); cbn; [|eauto].
    destruct (json resp); cbn; eauto.
Qed.

Lemma loaded_hotels (fuel : nat) (id : JSValue) (s1 sh : State World) :
  loaded fetch env fuel id setHotels s1 sh ->
  lastFetch (cache World sh) = lastFetch (cache World s1)
  /\ regions (cache World sh) = regions (cache World s1)
  /\ collections (cache World sh) = collections (cache World s1).
Proof.
  intros [[_ ->]|[s2 [items [_ [_ ->]]]]]; repeat split.
Qed.

Lemma loaded_regions (fuel : nat) (id : JSValue) (s1 sh : State World) :
  loaded fetch env fuel id setRegions s1 sh ->
  lastFetch (cache World sh) = lastFetch (cache World s1)
  /\ hotels (cache World sh) = hotels (cache World s1)
  /\ collections (cache World sh) = collections (cache World s1).
Proof.
  intros [[_ ->]|[s2 [items [_ [_ ->]]]]]; repeat split.
Qed.

(** One loading step of the refresh, run from [s1]: it ends in a throw that
    leaves the cache as it was, or it is done. *)
Lemma loading_step (fuel : nat) (id : JSValue)
    (store : list JSValue -> Cache -> Cache) (s1 : State World) :
  forall (sh : State World) (r : Result unit),
    (if truthy id
     then bindT World (fetchAllCollectionItems World fetch env fuel id)
            (fun items => modifyCache World (store items))
     else ret World tt) s1 = Some (sh, r) ->
    match r with
    | Ok _ => loaded fetch env fuel id store s1 sh
    | Throw e =>
        truthy id = true
        /\ fetchAllCollectionItems World fetch env fuel id s1 = Some (sh, Throw e)
        /\ cache World sh = cache World s1
    end.
Proof.
  intros sh r H.
  destruct (truthy id) eqn:Tid.
  - unfold bindT in H.
    destruct (fetchAllCollectionItems World fetch env fuel id s1)
      as [[s2 [items|e1]]|] eqn:Hf; [| |discriminate].
    + pose proof (fetchAllCollectionItems_keeps_cache _ _ _ _ _ Hf) as K.
      unfold modifyCache in H; injection H as <- <-.
      right; exists s2, items; rewrite K; auto.
    + injection H as <- <-.
      split; [reflexivity|split; [reflexivity|]].
      exact (fetchAllCollectionItems_keeps_cache _ _ _ _ _ Hf).
  - injection H as <- <-; left; auto.
Qed.

(** What a throwing refresh leaves behind: the cache of before, unless the
    throw came while the regions were being fetched, after the hotels step
    of the same run. *)
Lemma refresh_try_throws :
  forall (fuel : nat) (s s' : State World) (e : JSError),
    refreshCMSCache_try World fetch now env fuel s = Some (s', Throw e) ->
    cache World s' = cache World s
    \/ exists (s1 sh : State World) (hotelsId regionsId : JSValue),
         picked fetch env s s1 hotelsId regionsId
         /\ cache World s1 = cache World s
         /\ loaded fetch env fuel hotelsId setHotels s1 sh
         /\ truthy regionsId = true
         /\ fetchAllCollectionItems World fetch env fuel regionsId sh
            = Some (s', Throw e)
         /\ cache World s' = cache World sh.
Proof.
  intros fuel s s' e H.
  unfold refreshCMSCache_try in H.
  destruct (fetchWebflowCollections_returns s) as [w1 [data Hc]].
  unfold bindT at 1 in H; rewrite Hc in H.
  unfold bindT at 1, liftR at 1 in H.
  destruct (getProp data "collections") as [found|e1] eqn:Hfound;
    [|injection H as <- _; left; reflexivity].
  unfold bindT at 1, liftR at 1 in H.
  destruct (iterate (found ||| JArr [])) as [cols|e1] eqn:Hiter;
    [|injection H as <- _; left; reflexivity].
  unfold bindT at 1, liftR at 1 in H.
  destruct (foldR pickCollection (JNull, JNull) cols) as [[hid rid]|e1]
    eqn:Hpick; [|injection H as <- _; left; reflexivity].
  cbn [fst snd] in H.
  set (s1 := {| world := w1; cache := cache World s |}) in *.
  assert (Hpicked : picked fetch env s s1 hid rid)
    by (exists data, found, cols; auto).
  unfold bindT at 1 in H.
  match type of H with
  | match ?step s1 with _ => _ end = _ =>
      destruct (step s1) as [[sh [[]|e1]]|] eqn:Hstep; [| |discriminate]
  end.
  - apply loading_step in Hstep.
    unfold bindT at 1 in H.
    match type of H with
    | match ?step sh with _ => _ end = _ =>
        destruct (step sh) as [[sr [[]|e1]]|] eqn:Hstep2; [| |discriminate]
    end.
    + cbn in H; discriminate.
    + injection H as <- <-.
      apply loading_step in Hstep2; destruct Hstep2 as [Trid [Hr Kr]].
      right; exists s1, sh, hid, rid; auto 8.
  - injection H as <- _.
    apply loading_step in Hstep; destruct Hstep as [_ [_ K]].
    left; exact K.
Qed.

(** The legacy refresh loads a third collection after the regions: a throw
    can also come while that one is being fetched, after the hotels step and
    the regions step of the same run. *)
Lemma legacy_refresh_try_throws :
  forall (fuel : nat) (s s' : State World) (e : JSError),
    legacyRefreshCMSCache_try World fetch now env fuel s = Some (s', Throw e) ->
    cache World s' = cache World s
    \/ (exists (s1 sh : State World) (hotelsId regionsId collectionsId : JSValue),
          legacyPicked fetch env s s1 hotelsId regionsId collectionsId
          /\ cache World s1 = cache World s
          /\ loaded fetch env fuel hotelsId setHotels s1 sh
          /\ truthy regionsId = true
          /\ fetchAllCollectionItems World fetch env fuel regionsId sh
             = Some (s', Throw e)
          /\ cache World s' = cache World sh)
    \/ (exists (s1 sh sr : State World)
               (hotelsId regionsId collectionsId : JSValue),
          legacyPicked fetch env s s1 hotelsId regionsId collectionsId
          /\ cache World s1 = cache World s
          /\ loaded fetch env fuel hotelsId setHotels s1 sh
          /\ loaded fetch env fuel regionsId setRegions sh sr
          /\ truthy collectionsId = true
          /\ fetchAllCollectionItems World fetch env fuel collectionsId sr
             = Some (s', Throw e)
          /\ cache World s' = cache World sr).
Proof.
  intros fuel s s' e H.
  unfold legacyRefreshCMSCache_try in H.
  destruct (fetchWebflowCollections_returns s) as [w1 [data Hc]].
  unfold bindT at 1 in H; rewrite Hc in H.
  unfold bindT at 1, liftR at 1 in H.
  destruct (getProp data "collections") as [found|e1] eqn:Hfound;
    [|injection H as <- _; left; reflexivity].
  unfold bindT at 1, liftR at 1 in H.
  destruct (iterate (found ||| JArr [])) as [cols|e1] eqn:Hiter;
    [|injection H as <- _; left; reflexivity].
  unfold bindT at 1, liftR at 1 in H.
  destruct (foldR legacyPickCollection (JNull, JNull, JNull) cols)
    as [[[hid rid] cid]|e1] eqn:Hpick;
    [|injection H as <- _; left; reflexivity].
  set (s1 := {| world := w1; cache := cache World s |}) in *.
  assert (Hpicked : legacyPicked fetch env s s1 hid rid cid)
    by (exists data, found, cols; auto).
  unfold bindT at 1 in H.
  match type of H with
  | match ?step s1 with _ => _ end = _ =>
      destruct (step s1) as [[sh [[]|e1]]|] eqn:Hstep; [| |discriminate]
  end.
  - apply loading_step in Hstep.
    unfold bindT at 1 in H.
    match type of H with
    | match ?step sh with _ => _ end = _ =>
        destruct (step sh) as [[sr [[]|e1]]|] eqn:Hstep2; [| |discriminate]
    end.
    + apply loading_step in Hstep2.
      unfold bindT at 1 in H.
      match type of H with
      | match ?step sr with _ => _ end = _ =>
          destruct (step sr) as [[sc [[]|e1]]|] eqn:Hstep3; [| |discriminate]
      end.
      * cbn in H; discriminate.
      * injection H as <- <-.
        apply loading_step in Hstep3; destruct Hstep3 as [Tcid [Hcol Kc]].
        right; right; exists s1, sh, sr, hid, rid, cid; auto 9.
    + injection H as <- <-.
      apply loading_step in Hstep2; destruct Hstep2 as [Trid [Hr Kr]].
      right; left; exists s1, sh, hid, rid, cid; auto 8.
  - injection H as <- _.
    apply loading_step in Hstep; destruct Hstep as [_ [_ K]].
    left; exact K.
Qed.

(** C1 (as amended). When a refresh throws after the credential check, the
    error is caught and the refresh returns.  The cache is then as before
    the call, unless the throw came while the regions were being fetched:
    then the run had picked its collections from the listing and done its
    hotels step, so the hotels are the complete list that the fetch of the
    hotels collection of this run returned (or those of before, when the
    listing named no hotels collection), and [lastFetch], the regions and the
    third collection are as before.  In the legacy variant the throw can also
    come while the third collection is being fetched, after the hotels step
    and the regions step of the run: then the regions too are the list their
    own fetch returned (or those of before), and [lastFetch] and the third
    collection are as before. *)
Theorem refresh_error_keeps_timestamp :
  forall (fuel : nat) (s : State World),
    truthy (WEBFLOW_API_TOKEN env) = true ->
    (forall (s' : State World) (e : JSError),
        refreshCMSCache_try World fetch now env fuel s = Some (s', Throw e) ->
        refreshCMSCache World fetch now env fuel s = Some (s', Ok tt)
        /\ lastFetch (cache World s') = lastFetch (cache World s)
        /\ regions (cache World s') = regions (cache World s)
        /\ collections (cache World s') = collections (cache World s)
        /\ (cache World s' = cache World s
            \/ exists (s1 sh : State World) (hotelsId regionsId : JSValue),
                 picked fetch env s s1 hotelsId regionsId
                 /\ cache World s1 = cache World s
                 /\ loaded fetch env fuel hotelsId setHotels s1 sh
                 /\ truthy regionsId = true
                 /\ fetchAllCollectionItems World fetch env fuel regionsId sh
                    = Some (s', Throw e)
                 /\ cache World s' = cache World sh))
    /\ (forall (s' : State World) (e : JSError),
        legacyRefreshCMSCache_try World fetch now env fuel s
          = Some (s', Throw e) ->
        legacyRefreshCMSCache World fetch now env fuel s = Some (s', Ok tt)
        /\ lastFetch (cache World s') = lastFetch (cache World s)
        /\ collections (cache World s') = collections (cache World s)
        /\ (cache World s' = cache World s
            \/ (exists (s1 sh : State World)
                       (hotelsId regionsId collectionsId : JSValue),
                  legacyPicked fetch env s s1 hotelsId regionsId collectionsId
                  /\ cache World s1 = cache World s
                  /\ loaded fetch env fuel hotelsId setHotels s1 sh
                  /\ truthy regionsId = true
                  /\ fetchAllCollectionItems World fetch env fuel regionsId sh
                     = Some (s', Throw e)
                  /\ cache World s' = cache World sh)
            \/ (exists (s1 sh sr : State World)
                       (hotelsId regionsId collectionsId : JSValue),
                  legacyPicked fetch env s s1 hotelsId regionsId collectionsId
                  /\ cache World s1 = cache World s
                  /\ loaded fetch env fuel hotelsId setHotels s1 sh
                  /\ loaded fetch env fuel regionsId setRegions sh sr
                  /\ truthy collectionsId = true
                  /\ fetchAllCollectionItems World fetch env fuel
                       collectionsId sr
                     = Some (s', Throw e)
                  /\ cache World s' = cache World sr))).
Proof.
  intros fuel s Htoken; split; intros s' e Hthrow.
  - split.
    { unfold refreshCMSCache; rewrite Htoken; cbn [negb].
      unfold tryCatch; rewrite Hthrow; reflexivity. }
    pose proof (refresh_try_throws fuel s s' e Hthrow) as Hrun.
    assert (Hkept : lastFetch (cache World s') = lastFetch (cache World s)
                    /\ regions (cache World s') = regions (cache World s)
                    /\ collections (cache World s') = collections (cache World s)).
    { destruct Hrun as [->|[s1 [sh [hid [rid [_ [K1 [Hl [_ [_ ->]]]]]]]]]];
        [auto|].
      destruct (loaded_hotels fuel hid s1 sh Hl) as [L [R C]].
      rewrite L, R, C, K1; auto. }
    destruct Hkept as [L [R C]]; auto.
  - split.
    { unfold legacyRefreshCMSCache; rewrite Htoken; cbn [negb].
      unfold tryCatch; rewrite Hthrow; reflexivity. }
    pose proof (legacy_refresh_try_throws fuel s s' e Hthrow) as Hrun.
    assert (Hkept : lastFetch (cache World s') = lastFetch (cache World s)
                    /\ collections (cache World s') = collections (cache World s)).
    { destruct Hrun
        as [->|[[s1 [sh [hid [rid [cid [_ [K1 [Hl [_ [_ ->]]]]]]]]]]
               |[s1 [sh [sr [hid [rid [cid [_ [K1 [Hl [Hl2 [_ [_ ->]]]]]]]]]]]]]];
        [auto| |].
      - destruct (loaded_hotels fuel hid s1 sh Hl) as [L [_ C]].
        rewrite L, C, K1; auto.
      - destruct (loaded_hotels fuel hid s1 sh Hl) as [L [_ C]].
        destruct (loaded_regions fuel rid sh sr Hl2) as [L2 [_ C2]].
        rewrite L2, C2, L, C, K1; auto. }
    destruct Hkept as [L C]; auto.
Qed.

End Refresh.

(** An instance: the regions cannot be reached; the refresh returns and the
    time stamp is the one of before. *)
Lemma refresh_error_keeps_timestamp_witness :
  refreshCMSCache unit regionsUnreachable sampleClock cmsEnv 2
    {| world := tt; cache := cacheBefore |}
  = Some ({| world := tt; cache := setHotels [memmoAlfama] cacheBefore |}, Ok tt)
  /\ lastFetch (setHotels [memmoAlfama] cacheBefore) = lastFetch cacheBefore.
Proof.
  pose proof (proj1 (refresh_error_keeps_timestamp unit regionsUnreachable
                       sampleClock cmsEnv 2
                       {| world := tt; cache := cacheBefore |} eq_refl)
                {| world := tt; cache := setHotels [memmoAlfama] cacheBefore |}
                NetworkError eq_refl) as [Hret [Htime _]].
  split; [exact Hret|exact Htime].
Defined.

(** Counterexample to C1 as stated: the hotels collection answers, the fetch
    of the regions is rejected by the network; the refresh ends with the
    hotels replaced, the regions and the time stamp as before.  The legacy
    refresh does the same. *)
Lemma refresh_error_after_hotels_replaced :
  refreshCMSCache_try unit regionsUnreachable sampleClock cmsEnv 2
    {| world := tt; cache := cacheBefore |}
  = Some ({| world := tt;
             cache := {| hotels := [memmoAlfama]; regions := [lisbonRegion];
                         collections := [];
                         lastFetch := Some 1700000000000%Z |} |},
          Throw NetworkError)
  /\ refreshCMSCache unit regionsUnreachable sampleClock cmsEnv 2
       {| world := tt; cache := cacheBefore |}
     = Some ({| world := tt;
                cache := {| hotels := [memmoAlfama]; regions := [lisbonRegion];
                            collections := [];
                            lastFetch := Some 1700000000000%Z |} |},
             Ok tt)
  /\ legacyRefreshCMSCache unit regionsUnreachable sampleClock cmsEnv 2
       {| world := tt; cache := cacheBefore |}
     = Some ({| world := tt;
                cache := {| hotels := [memmoAlfama]; regions := [lisbonRegion];
                            collections := [];
                            lastFetch := Some 1700000000000%Z |} |},
             Ok tt)
  /\ hotels cacheBefore = [closedInn]
  /\ [memmoAlfama] <> [closedInn].
Proof.
  repeat split; try (vm_compute; reflexivity).
  vm_compute; discriminate.
Qed.

(* ================================================================= *)
(** ** Fence stripping *)

Lemma append_assoc (a b c : string) : (a ^^ b) ^^ c = a ^^ b ^^ c.
Proof. induction a as [|ch a IH]; simpl; [reflexivity|rewrite IH; reflexivity]. Qed.

Lemma append_empty_r (a : string) : a ^^ "" = a.
Proof. induction a as [|ch a IH]; simpl; [reflexivity|rewrite IH; reflexivity]. Qed.

Lemma length_append (a b : string) :
  String.length (a ^^ b) = (String.length a + String.length b)%nat.
Proof. induction a as [|ch a IH]; simpl; [reflexivity|rewrite IH; reflexivity]. Qed.

Lemma append_nonempty (a b : string) : b <> "" -> a ^^ b <> "".
Proof. destruct a; simpl; [trivial|discriminate]. Qed.

Lemma dropStr_append (a b : string) : dropStr (String.length a) (a ^^ b) = b.
Proof. induction a as [|ch a IH]; simpl; [destruct b; reflexivity|exact IH]. Qed.

Lemma takeStr_append (a b : string) : takeStr (String.length a) (a ^^ b) = a.
Proof.
  induction a as [|ch a IH]; simpl; [destruct b; reflexivity|].
  rewrite IH; reflexivity.
Qed.

Lemma endsWith_append (a p : string) : endsWith (a ^^ p) p = true.
Proof.
  unfold endsWith; rewrite length_append.
  replace (String.length a + String.length p - String.length p)%nat
    with (String.length a) by lia.
  rewrite dropStr_append, String.eqb_refl, andb_true_r.
  apply Nat.leb_le; lia.
Qed.

Lemma sliceDropLast_append (a p : string) :
  sliceDropLast (String.length p) (a ^^ p) = a.
Proof.
  unfold sliceDropLast; rewrite length_append.
  replace (String.length a + String.length p - String.length p)%nat
    with (String.length a) by lia.
  apply takeStr_append.
Qed.

Lemma trimStart_solid (s : string) : solidStart (trimStart s).
Proof.
  induction s as [|c s IH]; simpl; [exact I|].
  destruct (isWhiteSpace c) eqn:E; [exact IH|exact E].
Qed.

Lemma trimStart_of_solid (s : string) : solidStart s -> trimStart s = s.
Proof. destruct s as [|c s]; simpl; [reflexivity|intros ->; reflexivity]. Qed.

Lemma trimEnd_solid (s : string) : solidStart s -> solidStart (trimEnd s).
Proof.
  destruct s as [|c s]; simpl; [trivial|].
  intros E; rewrite E; simpl; exact E.
Qed.

Lemma trimEnd_idem (s : string) : trimEnd (trimEnd s) = trimEnd s.
Proof.
  induction s as [|c s IH]; simpl; [reflexivity|].
  destruct (isWhiteSpace c && (trimEnd s =? "")) eqn:E; [reflexivity|].
  simpl; rewrite IH, E; reflexivity.
Qed.

Lemma trim_idem (s : string) : trim (trim s) = trim s.
Proof.
  unfold trim.
  rewrite (trimStart_of_solid (trimEnd (trimStart s)))
    by (apply trimEnd_solid, trimStart_solid).
  apply trimEnd_idem.
Qed.

(** White space at the end goes away. *)
Lemma trimEnd_append_blank (s w : string) :
  trimEnd w = "" -> trimEnd (s ^^ w) = trimEnd s.
Proof.
  intros Hw; induction s as [|c s IH]; simpl; [exact Hw|].
  rewrite IH; reflexivity.
Qed.

(** What does not end in white space stays. *)
Lemma trimEnd_append_solid (s t : string) :
  t <> "" -> trimEnd t = t -> trimEnd (s ^^ t) = s ^^ t.
Proof.
  intros Hne Ht; induction s as [|c s IH]; simpl; [exact Ht|].
  rewrite IH.
  destruct (s ^^ t) eqn:E.
  - exfalso; apply (append_nonempty s t Hne); exact E.
  - simpl; rewrite andb_false_r; reflexivity.
Qed.

Lemma trim_between_line_breaks (T : string) : trim (LF ^^ T ^^ LF) = trim T.
Proof.
  unfold trim; change (trimStart (LF ^^ T ^^ LF)) with (trimStart (T ^^ LF)).
  induction T as [|c T IH]; [reflexivity|].
  simpl; destruct (isWhiteSpace c) eqn:E; [exact IH|].
  change (String c (T ^^ LF)) with (String c T ^^ LF).
  apply trimEnd_append_blank; reflexivity.
Qed.

Lemma startsWith_json_fence (s : string) :
  startsWith s "```" = false -> startsWith s "```json" = false.
Proof.
  intros H.
  destruct s as [|a s]; [reflexivity|]; cbn [startsWith] in *.
  destruct (Ascii.eqb "`" a); [|reflexivity]; cbn [andb] in *.
  destruct s as [|b s]; [reflexivity|]; cbn [startsWith] in *.
  destruct (Ascii.eqb "`" b); [|reflexivity]; cbn [andb] in *.
  destruct s as [|c s]; [reflexivity|]; cbn [startsWith] in *.
  destruct (Ascii.eqb "`" c); [|reflexivity]; cbn [andb] in *.
  destruct s; discriminate H.
Qed.

(** A text that, once trimmed, neither begins nor ends with a fence marker
    goes to [JSON.parse] trimmed and otherwise untouched. *)
Lemma cleanJson_unfenced (T : string) :
  startsWith (trim T) "```" = false ->
  endsWith (trim T) "```" = false ->
  cleanJson T = trim T.
Proof.
  intros Hs He; unfold cleanJson.
  rewrite (startsWith_json_fence _ Hs), Hs, He.
  apply trim_idem.
Qed.

Lemma trim_fenced (opener T : string) :
  solidStart opener -> opener <> "" ->
  trim (fenced opener T) = fenced opener T.
Proof.
  intros Hsolid Hne; unfold trim, fenced.
  rewrite trimStart_of_solid
    by (destruct opener as [|c o]; [contradiction|exact Hsolid]).
  rewrite <- !append_assoc.
  apply trimEnd_append_solid; [discriminate|reflexivity].
Qed.

(** Inside a fence, with either opening marker, the same text goes to
    [JSON.parse]: the trimmed [T]. *)
Lemma cleanJson_fenced (opener T : string) :
  opener = "```json" \/ opener = "```" ->
  cleanJson (fenced opener T) = trim T.
Proof.
  intros Hop; unfold cleanJson.
  rewrite trim_fenced
    by (destruct Hop as [-> | ->]; first [reflexivity | discriminate]).
  assert (Hrest : forall body : string,
            (let c3 := if endsWith (LF ^^ body ^^ LF ^^ "```") "```"
                       then sliceDropLast 3 (LF ^^ body ^^ LF ^^ "```")
                       else LF ^^ body ^^ LF ^^ "```" in
             trim c3) = trim body).
  { intros body; cbv zeta.
    replace (LF ^^ body ^^ LF ^^ "```") with ((LF ^^ body ^^ LF) ^^ "```")
      by (rewrite !append_assoc; reflexivity).
    rewrite endsWith_append.
    rewrite (sliceDropLast_append (LF ^^ body ^^ LF) "```"
             : sliceDropLast 3 ((LF ^^ body ^^ LF) ^^ "```") = _).
    apply trim_between_line_breaks. }
  destruct Hop as [-> | ->]; exact (Hrest T).
Qed.

(** C6 (as amended). For every text [T] that, once trimmed, neither begins
    nor ends with a fence marker, wrapping [T] in a code fence (opened by
    the marker with or without the [json] tag, closed by the marker, each on
    a line of its own) does not change what the strip-and-parse step yields:
    the same text reaches [JSON.parse], so the parsed value or the parse
    error is the same. *)
Theorem fence_does_not_change_parse :
  forall (JSON_parse : string -> Result JSValue) (opener T : string),
    opener = "```json" \/ opener = "```" ->
    startsWith (trim T) "```" = false ->
    endsWith (trim T) "```" = false ->
    cleanJson (fenced opener T) = cleanJson T
    /\ stripAndParse JSON_parse (JStr (fenced opener T))
       = stripAndParse JSON_parse (JStr T).
Proof.
  intros parse opener T Hop Hs He.
  assert (Hclean : cleanJson (fenced opener T) = cleanJson T)
    by (rewrite (cleanJson_fenced opener T Hop), (cleanJson_unfenced T Hs He);
        reflexivity).
  split; [exact Hclean|].
  unfold stripAndParse; rewrite Hclean; reflexivity.
Qed.

(** An instance: the reply of the running example, fenced and not. *)
Lemma fence_does_not_change_parse_witness :
  stripAndParse jsonParse (JStr sampleReplyFenced)
  = stripAndParse jsonParse (JStr sampleReply).
Proof.
  refine (proj2 (fence_does_not_change_parse jsonParse "```json" sampleReply
                   (or_introl eq_refl) _ _)); vm_compute; reflexivity.
Defined.

(** Counterexample to C6 as stated: a text that is itself fenced.  Unfenced
    (as it stands) it parses to the number 1; wrapped in one more fence, only
    the outer markers are stripped and what reaches [JSON.parse] still begins
    with a marker, so the parse fails. *)
Lemma fence_around_fenced_text_fails :
  stripAndParse jsonParse (JStr (fenced "```json" "1")) = Ok (JNum (Finite 1 0))
  /\ stripAndParse jsonParse (JStr (fenced "```json" (fenced "```json" "1")))
     = Throw SyntaxError
  /\ cleanJson (fenced "```json" (fenced "```json" "1")) = fenced "```json" "1".
Proof.
  repeat split; vm_compute; reflexivity.
Qed.

(* ================================================================= *)
(** ** Printing a number and parsing it back *)

Open Scope Z_scope.

Lemma isDigit_digitChar (d : Z) : 0 <= d < 10 -> isDigit (digitChar d) = true.
Proof.
  intros H.
  assert (C : d = 0 \/ d = 1 \/ d = 2 \/ d = 3 \/ d = 4 \/ d = 5 \/ d = 6
              \/ d = 7 \/ d = 8 \/ d = 9) by lia.
  repeat (destruct C as [-> | C]; [reflexivity|]); subst; reflexivity.
Qed.

Lemma digitVal_digitChar (d : Z) : 0 <= d < 10 -> digitVal (digitChar d) = d.
Proof.
  intros H.
  assert (C : d = 0 \/ d = 1 \/ d = 2 \/ d = 3 \/ d = 4 \/ d = 5 \/ d = 6
              \/ d = 7 \/ d = 8 \/ d = 9) by lia.
  repeat (destruct C as [-> | C]; [reflexivity|]); subst; reflexivity.
Qed.

Lemma allDigits_append (a b : string) :
  allDigits (a ^^ b) = allDigits a && allDigits b.
Proof.
  induction a as [|c a IH]; simpl; [reflexivity|].
  rewrite IH, andb_assoc; reflexivity.
Qed.

Lemma digitsValue_append (acc : Z) (a b : string) :
  digitsValue acc (a ^^ b) = digitsValue (digitsValue acc a) b.
Proof.
  revert acc; induction a as [|c a IH]; intros acc; simpl; [reflexivity|].
  apply IH.
Qed.

Lemma spanDigits_append (ds rest : string) :
  allDigits ds = true -> digitsEnd rest = true ->
  spanDigits (ds ^^ rest) = (ds, rest).
Proof.
  intros Hd Hr; induction ds as [|c ds IH]; simpl in *.
  - destruct rest as [|c r]; [reflexivity|].
    simpl in Hr; apply negb_true_iff in Hr; simpl; rewrite Hr; reflexivity.
  - apply andb_true_iff in Hd; destruct Hd as [Hc Hd].
    rewrite Hc, (IH Hd); reflexivity.
Qed.

Lemma spanDigits_all (ds : string) :
  allDigits ds = true -> spanDigits ds = (ds, "").
Proof.
  intros Hd; rewrite <- (append_empty_r ds) at 1.
  apply spanDigits_append; [exact Hd|reflexivity].
Qed.

(** The digits printed for [n], given fuel for them: they are digits, there
    is at least one, and they spell [n]. *)
Lemma digitsFuel_spec (fuel : nat) :
  forall n : Z,
    0 < n < 2 ^ Z.of_nat fuel ->
    allDigits (digitsFuel fuel n) = true
    /\ digitsFuel fuel n <> ""
    /\ forall acc : Z,
         digitsValue acc (digitsFuel fuel n)
         = acc * 10 ^ Z.of_nat (String.length (digitsFuel fuel n)) + n.
Proof.
  induction fuel as [|fuel IH]; intros n Hn.
  - simpl in Hn; lia.
  - cbn [digitsFuel].
    destruct (n <? 10) eqn:Hsmall.
    + apply Z.ltb_lt in Hsmall.
      assert (Hd : 0 <= n < 10) by lia.
      repeat split.
      * cbn [allDigits]; rewrite (isDigit_digitChar n Hd); reflexivity.
      * discriminate.
      * intros acc; cbn [digitsValue String.length].
        rewrite (digitVal_digitChar n Hd).
        change (Z.of_nat 1) with 1; lia.
    + apply Z.ltb_ge in Hsmall.
      assert (Hq : 0 < n / 10 < 2 ^ Z.of_nat fuel).
      { split; [apply Z.div_str_pos; lia|].
        rewrite Nat2Z.inj_succ, Z.pow_succ_r in Hn by lia.
        apply Z.div_lt_upper_bound; lia. }
      assert (Hr : 0 <= n mod 10 < 10) by (apply Z.mod_pos_bound; lia).
      destruct (IH (n / 10) Hq) as [Ha [Hne Hv]].
      repeat split.
      * rewrite allDigits_append, Ha; cbn [allDigits andb].
        rewrite (isDigit_digitChar _ Hr); reflexivity.
      * apply append_nonempty; discriminate.
      * intros acc.
        rewrite digitsValue_append, Hv, length_append.
        cbn [digitsValue String.length].
        rewrite (digitVal_digitChar _ Hr).
        rewrite Nat2Z.inj_add, Z.pow_add_r by lia.
        change (Z.of_nat 1) with 1.
        pose proof (Z.div_mod n 10 ltac:(lia)) as E.
        lia.
Qed.

Lemma digitsOf_spec (n : Z) :
  0 < n ->
  allDigits (digitsOf n) = true
  /\ digitsOf n <> ""
  /\ forall acc : Z,
       digitsValue acc (digitsOf n)
       = acc * 10 ^ Z.of_nat (String.length (digitsOf n)) + n.
Proof.
  intros Hn; unfold digitsOf; apply digitsFuel_spec.
  split; [lia|].
  rewrite Nat2Z.inj_succ, Z2Nat.id by apply Z.log2_nonneg.
  apply Z.log2_spec; exact Hn.
Qed.

Lemma zeros_spec (j : nat) :
  allDigits (zeros j) = true
  /\ String.length (zeros j) = j
  /\ forall acc : Z, digitsValue acc (zeros j) = acc * 10 ^ Z.of_nat j.
Proof.
  induction j as [|j [Ha [Hl Hv]]]; repeat split; try reflexivity.
  - intros acc; simpl; lia.
  - simpl; exact Ha.
  - simpl; rewrite Hl; reflexivity.
  - intros acc; cbn [zeros digitsValue]; rewrite Hv.
    change (digitVal "0") with 0.
    rewrite Nat2Z.inj_succ, Z.pow_succ_r by lia; lia.
Qed.

Lemma take_drop (n : nat) (s : string) : takeStr n s ^^ dropStr n s = s.
Proof.
  revert s; induction n as [|n IH]; intros [|c s]; simpl; try reflexivity.
  rewrite IH; reflexivity.
Qed.

Lemma length_dropStr (n : nat) (s : string) :
  String.length (dropStr n s) = (String.length s - n)%nat.
Proof.
  revert s; induction n as [|n IH]; intros [|c s]; simpl; try reflexivity.
  apply IH.
Qed.

Lemma allDigits_take_drop (n : nat) (s : string) :
  allDigits s = true ->
  allDigits (takeStr n s) = true /\ allDigits (dropStr n s) = true.
Proof.
  intros H; rewrite <- (take_drop n s), allDigits_append in H.
  apply andb_true_iff in H; exact H.
Qed.

Lemma stripZeros_shift (j : nat) :
  forall (fuel : nat) (M e0 : Z),
    M mod 10 <> 0 -> (j < fuel)%nat ->
    stripZeros fuel (M * 10 ^ Z.of_nat j) e0 = Finite M (e0 + Z.of_nat j).
Proof.
  induction j as [|j IH]; intros fuel M e0 HM Hfuel;
    (destruct fuel as [|fuel]; [lia|]); cbn [stripZeros].
  - change (Z.of_nat 0) with 0; rewrite Z.pow_0_r, Z.mul_1_r, Z.add_0_r.
    apply Z.eqb_neq in HM; rewrite HM; reflexivity.
  - rewrite Nat2Z.inj_succ, Z.pow_succ_r by lia.
    replace (M * (10 * 10 ^ Z.of_nat j)) with ((M * 10 ^ Z.of_nat j) * 10) by lia.
    rewrite Z.mod_mul by lia; cbn [Z.eqb].
    rewrite Z.div_mul by lia.
    rewrite IH by (try assumption; lia).
    f_equal; lia.
Qed.

Lemma mkFinite_shift (j : nat) (M e0 : Z) :
  M mod 10 <> 0 ->
  mkFinite (M * 10 ^ Z.of_nat j) e0 = Finite M (e0 + Z.of_nat j).
Proof.
  intros HM.
  assert (HM0 : M <> 0) by (intros ->; apply HM; reflexivity).
  assert (Hpow : 0 < 10 ^ Z.of_nat j) by (apply Z.pow_pos_nonneg; lia).
  unfold mkFinite.
  assert (Hnz : M * 10 ^ Z.of_nat j <> 0) by nia.
  apply Z.eqb_neq in Hnz; rewrite Hnz.
  apply stripZeros_shift; [exact HM|].
  assert (Hlog : Z.of_nat j <= Z.log2 (Z.abs (M * 10 ^ Z.of_nat j))).
  { rewrite <- (Z.log2_pow2 (Z.of_nat j)) at 1 by lia.
    apply Z.log2_le_mono.
    rewrite Z.abs_mul, (Z.abs_eq (10 ^ _)) by lia.
    assert (2 ^ Z.of_nat j <= 10 ^ Z.of_nat j)
      by (apply Z.pow_le_mono_l; lia).
    nia. }
  lia.
Qed.

Lemma mkFinite_canonical_keeps (m e : Z) :
  canonical (Finite m e) -> mkFinite m e = Finite m e.
Proof.
  intros [[-> ->]|[_ Hm]]; [reflexivity|].
  rewrite <- (Z.mul_1_r m) at 1.
  change 1 with (10 ^ Z.of_nat 0).
  rewrite (mkFinite_shift 0 m e Hm); f_equal; lia.
Qed.

Lemma stripZeros_canonical (fuel : nat) :
  forall m e : Z,
    m <> 0 -> Z.abs m < 2 ^ Z.of_nat fuel ->
    canonical (stripZeros fuel m e) /\ numTruthy (stripZeros fuel m e) = true.
Proof.
  induction fuel as [|fuel IH]; intros m e Hm Hb.
  - change (2 ^ Z.of_nat 0) with 1 in Hb; lia.
  - cbn [stripZeros].
    destruct (m mod 10 =? 0) eqn:E.
    + apply Z.eqb_eq in E.
      pose proof (Z.div_mod m 10 ltac:(lia)) as D.
      rewrite Nat2Z.inj_succ, Z.pow_succ_r in Hb by lia.
      apply IH; lia.
    + apply Z.eqb_neq in E; split.
      * right; split; assumption.
      * simpl; apply negb_true_iff, Z.eqb_neq; exact Hm.
Qed.

Lemma mkFinite_canonical (m e : Z) : canonical (mkFinite m e).
Proof.
  unfold mkFinite; destruct (m =? 0) eqn:E; [left; split; reflexivity|].
  apply Z.eqb_neq in E.
  apply stripZeros_canonical; [exact E|].
  rewrite Nat2Z.inj_succ, Z2Nat.id by apply Z.log2_nonneg.
  apply Z.log2_spec; lia.
Qed.

(** Rounding at the ends of the range does not depend on how the decimal
    is written. *)
Lemma cross_leb (x y P Q P' Q' : Z) :
  0 < P -> 0 < Q -> 0 < P' -> 0 < Q' -> P * Q' = P' * Q ->
  (x * P <=? y * Q) = (x * P' <=? y * Q').
Proof.
  intros HP HQ HP' HQ' E.
  assert (E1 : x * P * Q' = x * P' * Q)
    by (rewrite <- !Z.mul_assoc, E; reflexivity).
  destruct (Z.leb_spec (x * P) (y * Q)) as [H|H];
    destruct (Z.leb_spec (x * P') (y * Q')) as [H'|H']; try reflexivity;
    exfalso.
  - apply (Z.mul_le_mono_nonneg_r _ _ Q') in H; [|lia].
    apply (Z.mul_lt_mono_pos_r Q) in H'; [|lia].
    rewrite E1 in H.
    replace (y * Q * Q') with (y * Q' * Q) in H by (rewrite <- !Z.mul_assoc, (Z.mul_comm Q Q'); reflexivity).
    lia.
  - apply (Z.mul_lt_mono_pos_r Q') in H; [|lia].
    apply (Z.mul_le_mono_nonneg_r _ _ Q) in H'; [|lia].
    rewrite E1 in H.
    replace (y * Q * Q') with (y * Q' * Q) in H by (rewrite <- !Z.mul_assoc, (Z.mul_comm Q Q'); reflexivity).
    lia.
Qed.

Lemma scaled_exponents (e : Z) (j : nat) :
  10 ^ Z.of_nat j * 10 ^ Z.max 0 e * 10 ^ Z.max 0 (- (e + Z.of_nat j))
  = 10 ^ Z.max 0 (e + Z.of_nat j) * 10 ^ Z.max 0 (- e).
Proof. rewrite <- !Z.pow_add_r by lia; f_equal; lia. Qed.

Lemma scaledLe_shift (x y e : Z) (j : nat) :
  scaledLe (x * 10 ^ Z.of_nat j) e y = scaledLe x (e + Z.of_nat j) y.
Proof.
  unfold scaledLe.
  rewrite <- (Z.mul_assoc x).
  apply cross_leb; try (apply Z.pow_pos_nonneg; lia).
  - apply Z.mul_pos_pos; apply Z.pow_pos_nonneg; lia.
  - apply scaled_exponents.
Qed.

Lemma scaledGe_shift (x y e : Z) (j : nat) :
  scaledGe (x * 10 ^ Z.of_nat j) e y = scaledGe x (e + Z.of_nat j) y.
Proof.
  unfold scaledGe.
  rewrite <- (Z.mul_assoc x).
  apply cross_leb; try (apply Z.pow_pos_nonneg; lia).
  - apply Z.mul_pos_pos; apply Z.pow_pos_nonneg; lia.
  - rewrite (Z.mul_comm (10 ^ Z.max 0 (- e))), <- scaled_exponents.
    apply Z.mul_comm.
Qed.

Lemma abs_scaled (M : Z) (j : nat) :
  Z.abs (M * 10 ^ Z.of_nat j) = Z.abs M * 10 ^ Z.of_nat j.
Proof.
  rewrite Z.abs_mul; f_equal; apply Z.abs_eq.
  apply Z.pow_nonneg; lia.
Qed.

Lemma roundsToZero_shift (M e : Z) (j : nat) :
  roundsToZero (M * 10 ^ Z.of_nat j) e = roundsToZero M (e + Z.of_nat j).
Proof.
  unfold roundsToZero; rewrite abs_scaled.
  remember (2 ^ 1075) as K.
  replace (Z.abs M * 10 ^ Z.of_nat j * K) with (Z.abs M * K * 10 ^ Z.of_nat j)
    by (rewrite <- !Z.mul_assoc; f_equal; apply Z.mul_comm).
  apply scaledLe_shift.
Qed.

Lemma roundsToInfinity_shift (M e : Z) (j : nat) :
  roundsToInfinity (M * 10 ^ Z.of_nat j) e = roundsToInfinity M (e + Z.of_nat j).
Proof.
  unfold roundsToInfinity; rewrite abs_scaled.
  remember (2 ^ 1024 - 2 ^ 970) as K.
  apply scaledGe_shift.
Qed.

Lemma decompose10 (n : nat) :
  forall m : Z,
    m <> 0 -> Z.abs m <= Z.of_nat n ->
    exists (M : Z) (j : nat), m = M * 10 ^ Z.of_nat j /\ M mod 10 <> 0.
Proof.
  induction n as [|n IH]; intros m Hm Hb; [lia|].
  destruct (Z.eq_dec (m mod 10) 0) as [E|E].
  - pose proof (Z.div_mod m 10 ltac:(lia)) as D.
    destruct (IH (m / 10) ltac:(lia) ltac:(lia)) as [M [j [HM Hmod]]].
    exists M, (S j); split; [|exact Hmod].
    rewrite Nat2Z.inj_succ, Z.pow_succ_r by lia.
    rewrite D, E, HM; lia.
  - exists m, 0%nat; split; [|exact E].
    change (10 ^ Z.of_nat 0) with 1; lia.
Qed.

Lemma mkFinite_decomp (m e : Z) :
  m <> 0 ->
  exists (M : Z) (j : nat),
    mkFinite m e = Finite M (e + Z.of_nat j)
    /\ m = M * 10 ^ Z.of_nat j /\ M mod 10 <> 0.
Proof.
  intros Hm.
  destruct (decompose10 (Z.to_nat (Z.abs m)) m Hm ltac:(lia))
    as [M [j [HM Hmod]]].
  exists M, j; split; [|split; assumption].
  rewrite HM; apply mkFinite_shift; exact Hmod.
Qed.

Lemma toDouble_canonical (m e : Z) : canonical (toDouble m e).
Proof.
  unfold toDouble.
  destruct (roundsToZero m e); [left; split; reflexivity|].
  destruct (roundsToInfinity m e); [exact I|].
  apply mkFinite_canonical.
Qed.

Lemma toDouble_inRange (m e : Z) :
  numTruthy (toDouble m e) = true -> inRange (toDouble m e).
Proof.
  unfold toDouble.
  destruct (roundsToZero m e) eqn:Hz; [discriminate|].
  destruct (roundsToInfinity m e) eqn:Hi; [intros _; exact I|].
  intros Ht.
  destruct (Z.eq_dec m 0) as [->|Hm]; [discriminate Ht|].
  destruct (mkFinite_decomp m e Hm) as [M [j [HF [HM _]]]].
  rewrite HF; cbn [inRange].
  rewrite <- roundsToZero_shift, <- roundsToInfinity_shift, <- HM.
  split; assumption.
Qed.

Lemma toDouble_settled (M e0 e : Z) (j : nat) :
  M mod 10 <> 0 -> inRange (Finite M e) -> e0 + Z.of_nat j = e ->
  toDouble (M * 10 ^ Z.of_nat j) e0 = Finite M e.
Proof.
  intros Hmod [Hz Hi] <-; unfold toDouble.
  rewrite roundsToZero_shift, roundsToInfinity_shift, Hz, Hi.
  apply mkFinite_shift; exact Hmod.
Qed.

(** A string that starts with a digit has no white space, sign or
    [Infinity] in front. *)
Lemma digit_head (c : ascii) (r : string) :
  isDigit c = true ->
  trimStart (String c r) = String c r
  /\ signOf (String c r) = (false, String c r)
  /\ startsWith (String c r) "Infinity" = false.
Proof.
  destruct c as [[] [] [] [] [] [] [] []]; intros H;
    try discriminate H; repeat split; reflexivity.
Qed.

Lemma eqb_empty_false (s : string) : s <> "" -> (s =? "")%string = false.
Proof. destruct s; [contradiction|reflexivity]. Qed.

Lemma exponentOf_text (x : Z) :
  x <> 0 -> exponentOf ("e" ^^ exponentText x) = x.
Proof.
  intros Hx.
  destruct (digitsOf_spec (Z.abs x) ltac:(lia)) as [Ha [Hne Hv]].
  specialize (Hv 0).
  unfold exponentText, exponentOf.
  remember (digitsOf (Z.abs x)) as D eqn:ED; clear ED.
  destruct (x <? 0) eqn:S; cbn;
    rewrite (spanDigits_all D Ha), (eqb_empty_false D Hne), Hv;
    [apply Z.ltb_lt in S|apply Z.ltb_ge in S]; lia.
Qed.

(** The three shapes of a printed number, read back. *)
Lemma decimalOf_plain (a : string) :
  allDigits a = true -> a <> "" ->
  decimalOf a = Some (digitsValue 0 a, 0).
Proof.
  intros Ha Hne; unfold decimalOf.
  rewrite (spanDigits_all a Ha).
  rewrite (eqb_empty_false a Hne), append_empty_r; reflexivity.
Qed.

Lemma decimalOf_point (a b : string) :
  allDigits a = true -> allDigits b = true -> a <> "" ->
  decimalOf (a ^^ "." ^^ b)
  = Some (digitsValue 0 (a ^^ b), - Z.of_nat (String.length b)).
Proof.
  intros Ha Hb Hne; unfold decimalOf.
  rewrite (spanDigits_append a ("." ^^ b) Ha eq_refl).
  cbn [String.append]; rewrite (spanDigits_all b Hb).
  rewrite (eqb_empty_false a Hne); reflexivity.
Qed.

Lemma decimalOf_exponent (a : string) (x : Z) :
  allDigits a = true -> a <> "" -> x <> 0 ->
  decimalOf (a ^^ "e" ^^ exponentText x) = Some (digitsValue 0 a, x).
Proof.
  intros Ha Hne Hx; unfold decimalOf.
  rewrite (spanDigits_append a ("e" ^^ exponentText x) Ha eq_refl).
  change ("e" ^^ exponentText x) with (String "e" (exponentText x)).
  cbv iota beta.
  rewrite (eqb_empty_false a Hne), append_empty_r.
  change (String "e" (exponentText x)) with ("e" ^^ exponentText x).
  rewrite (exponentOf_text x Hx); cbn [andb String.length].
  f_equal; f_equal; lia.
Qed.

Lemma decimalOf_point_exponent (a b : string) (x : Z) :
  allDigits a = true -> allDigits b = true -> a <> "" -> x <> 0 ->
  decimalOf (a ^^ "." ^^ b ^^ "e" ^^ exponentText x)
  = Some (digitsValue 0 (a ^^ b), x - Z.of_nat (String.length b)).
Proof.
  intros Ha Hb Hne Hx; unfold decimalOf.
  rewrite (spanDigits_append a ("." ^^ b ^^ "e" ^^ exponentText x) Ha eq_refl).
  cbn [String.append].
  change (String "e" (exponentText x)) with ("e" ^^ exponentText x).
  rewrite (spanDigits_append b ("e" ^^ exponentText x) Hb eq_refl).
  rewrite (eqb_empty_false a Hne), (exponentOf_text x Hx); reflexivity.
Qed.

Lemma headDigit_append (a b : string) :
  allDigits a = true -> a <> "" ->
  exists (c : ascii) (r : string), a ^^ b = String c r /\ isDigit c = true.
Proof.
  destruct a as [|c a]; [contradiction|]; simpl.
  intros H _; apply andb_true_iff in H; destruct H as [Hc _].
  exists c, (a ^^ b); split; [reflexivity|exact Hc].
Qed.

(** What [positiveToString] prints for a positive integer [M] scaled by
    [10^e] starts with a digit and reads back as [M * 10^j] scaled by
    [10^(e - j)], for some [j]. *)
Lemma decimalOf_positiveToString (M e : Z) :
  0 < M ->
  exists j : nat,
    decimalOf (positiveToString M e)
    = Some (M * 10 ^ Z.of_nat j, e - Z.of_nat j)
    /\ exists (c : ascii) (r : string),
         positiveToString M e = String c r /\ isDigit c = true.
Proof.
  intros HM.
  destruct (digitsOf_spec M HM) as [Ha [Hne Hv]].
  unfold positiveToString.
  set (ds := digitsOf M) in *.
  set (k := Z.of_nat (String.length ds)).
  assert (Hk : 0 < k).
  { subst k; destruct ds; [contradiction|]; cbn [String.length]; lia. }
  assert (HvM : digitsValue 0 ds = M) by (rewrite Hv; lia).
  cbv zeta.
  destruct ((k <=? k + e) && (k + e <=? 21)) eqn:C1.
  { (* digits, then zeros *)
    apply andb_true_iff in C1; destruct C1 as [C1 _]; apply Z.leb_le in C1.
    replace (k + e - k) with e by lia.
    destruct (zeros_spec (Z.to_nat e)) as [Hz [Hzl Hzv]].
    exists (Z.to_nat e); split.
    - rewrite decimalOf_plain.
      + rewrite digitsValue_append, HvM, Hzv.
        f_equal; f_equal; lia.
      + rewrite allDigits_append, Ha, Hz; reflexivity.
      + intros E; destruct ds; [contradiction|discriminate E].
    - apply headDigit_append; assumption. }
  destruct ((0 <? k + e) && (k + e <=? 21)) eqn:C2.
  { (* a decimal point inside the digits *)
    apply andb_true_iff in C2; destruct C2 as [C2 C2'].
    apply Z.ltb_lt in C2; apply Z.leb_le in C2'.
    assert (Hlt : k + e < k).
    { apply andb_false_iff in C1; destruct C1 as [C1|C1];
        [apply Z.leb_gt in C1|apply Z.leb_gt in C1]; lia. }
    destruct (allDigits_take_drop (Z.to_nat (k + e)) ds Ha) as [Ht Hd].
    assert (Htne : takeStr (Z.to_nat (k + e)) ds <> "").
    { destruct ds as [|c ds']; [contradiction|].
      destruct (Z.to_nat (k + e)) eqn:E; [lia|discriminate]. }
    exists 0%nat; split.
    - rewrite (decimalOf_point _ _ Ht Hd Htne).
      rewrite take_drop, HvM, length_dropStr.
      f_equal; f_equal; [cbn; lia|].
      subst k; lia.
    - apply headDigit_append; assumption. }
  destruct ((-6 <? k + e) && (k + e <=? 0)) eqn:C3.
  { (* zero, point, zeros, digits *)
    apply andb_true_iff in C3; destruct C3 as [_ C3]; apply Z.leb_le in C3.
    destruct (zeros_spec (Z.to_nat (- (k + e)))) as [Hz [Hzl Hzv]].
    exists 0%nat; split.
    - change ("0." ^^ zeros (Z.to_nat (- (k + e))) ^^ ds)
        with ("0" ^^ "." ^^ zeros (Z.to_nat (- (k + e))) ^^ ds).
      rewrite decimalOf_point;
        [|reflexivity|rewrite allDigits_append, Hz, Ha; reflexivity|discriminate].
      cbn [String.append digitsValue].
      change (0 * 10 + digitVal "0") with 0.
      rewrite digitsValue_append, Hzv, Z.mul_0_l, HvM, length_append, Hzl.
      f_equal; f_equal; [cbn; lia|].
      subst k; lia.
    - exists "0"%char; eexists; split; reflexivity. }
  (* exponent notation *)
  assert (Hx : k + e - 1 <> 0).
  { apply andb_false_iff in C1; apply andb_false_iff in C2.
    apply andb_false_iff in C3.
    destruct C1 as [C1|C1]; [apply Z.leb_gt in C1|apply Z.leb_gt in C1];
    destruct C2 as [C2|C2]; [apply Z.ltb_ge in C2|apply Z.leb_gt in C2
                            |apply Z.ltb_ge in C2|apply Z.leb_gt in C2];
    destruct C3 as [C3|C3]; try apply Z.ltb_ge in C3; try apply Z.leb_gt in C3;
      lia. }
  fold (exponentText (k + e - 1)).
  destruct ds as [|d rest] eqn:Eds; [contradiction|].
  cbn [allDigits] in Ha; apply andb_true_iff in Ha; destruct Ha as [Hd Hrest].
  assert (Hone : allDigits (String d "") = true)
    by (cbn [allDigits]; rewrite Hd; reflexivity).
  exists 0%nat; split.
  - destruct rest as [|d' rest'].
    + rewrite (decimalOf_exponent (String d "") _ Hone ltac:(discriminate) Hx).
      rewrite HvM; f_equal; f_equal; [cbn; lia|].
      subst k; cbn [String.length]; lia.
    + rewrite (decimalOf_point_exponent (String d "") (String d' rest') _
                 Hone Hrest ltac:(discriminate) Hx).
      change (String d "" ^^ String d' rest') with (String d (String d' rest')).
      rewrite HvM; f_equal; f_equal; [cbn; lia|].
      subst k; cbn [String.length]; lia.
  - destruct rest as [|d' rest']; exists d; eexists; split;
      try reflexivity; exact Hd.
Qed.

(** [parseFloat(String(n)) === n] for a canonical number that is neither
    zero nor [NaN]. *)
Lemma parseFloatStr_numToString (n : JSNum) :
  canonical n -> inRange n -> numTruthy n = true ->
  parseFloatStr (numToString n) = n.
Proof.
  destruct n as [|[|]|m e]; intros Hc Hr Ht; try discriminate Ht;
    try reflexivity.
  cbn [numTruthy] in Ht; apply negb_true_iff in Ht.
  destruct Hc as [[Hm _]|[Hm Hmod]];
    [apply Z.eqb_neq in Ht; contradiction|].
  unfold numToString, canonNum.
  rewrite (mkFinite_canonical_keeps m e) by (right; split; assumption).
  rewrite Ht.
  destruct (m <? 0) eqn:S.
  - apply Z.ltb_lt in S.
    destruct (decimalOf_positiveToString (- m) e ltac:(lia))
      as [j [Hd [c [r [Hbody Hdigit]]]]].
    destruct (digit_head c r Hdigit) as [_ [_ Hinf]].
    unfold parseFloatStr.
    change (trimStart ("-" ^^ positiveToString (- m) e))
      with ("-" ^^ positiveToString (- m) e).
    change (signOf ("-" ^^ positiveToString (- m) e))
      with (true, positiveToString (- m) e).
    cbv iota beta.
    rewrite Hbody, Hinf, <- Hbody, Hd.
    replace (- (- m * 10 ^ Z.of_nat j)) with (m * 10 ^ Z.of_nat j) by lia.
    apply (toDouble_settled m _ e j Hmod Hr); lia.
  - apply Z.ltb_ge in S.
    destruct (decimalOf_positiveToString m e ltac:(lia))
      as [j [Hd [c [r [Hbody Hdigit]]]]].
    destruct (digit_head c r Hdigit) as [Htrim [Hsign Hinf]].
    unfold parseFloatStr.
    rewrite Hbody, Htrim, Hsign.
    cbv iota beta.
    rewrite Hinf, <- Hbody, Hd.
    apply (toDouble_settled m _ e j Hmod Hr); lia.
Qed.

Lemma parseFloatStr_canonical (s : string) : canonical (parseFloatStr s).
Proof.
  unfold parseFloatStr.
  destruct (signOf (trimStart s)) as [neg s1].
  destruct (startsWith s1 "Infinity"); [exact I|].
  destruct (decimalOf s1) as [[m e]|]; [|exact I].
  apply toDouble_canonical.
Qed.

Lemma parseFloatStr_inRange (s : string) :
  numTruthy (parseFloatStr s) = true -> inRange (parseFloatStr s).
Proof.
  unfold parseFloatStr.
  destruct (signOf (trimStart s)) as [neg s1].
  destruct (startsWith s1 "Infinity"); [intros _; exact I|].
  destruct (decimalOf s1) as [[m e]|]; [|intros _; exact I].
  apply toDouble_inRange.
Qed.

(** A coordinate that was parsed once parses to itself. *)
Lemma parseFloat_settles (v : JSValue) :
  parseFloat (parseFloat v ||| JNull) ||| JNull = parseFloat v ||| JNull.
Proof.
  unfold parseFloat at 2 3.
  set (n := parseFloatStr (toString v)).
  assert (Hc : canonical n) by apply parseFloatStr_canonical.
  pose proof (parseFloatStr_inRange (toString v)) as Hr; fold n in Hr.
  clearbody n.
  destruct (numTruthy n) eqn:Ht.
  - rewrite (jor_truthy (JNum n) JNull Ht).
    unfold parseFloat; cbn [toString].
    rewrite (parseFloatStr_numToString n Hc (Hr eq_refl) Ht).
    apply jor_truthy; exact Ht.
  - rewrite (jor_falsy (JNum n) JNull Ht); reflexivity.
Qed.

Close Scope Z_scope.

(* ================================================================= *)
(** ** Normalising a normalised record *)

Lemma jor_settled (v y d : JSValue) : truthy v = true -> (v ||| y) ||| d = v.
Proof. intros H; rewrite (jor_truthy v y H); apply jor_truthy; exact H. Qed.

Lemma truthy_default (x d : JSValue) : truthy d = true -> truthy (x ||| d) = true.
Proof. intros H; rewrite truthy_jor, H; apply orb_true_r. Qed.

Lemma jor_empty_settles (x : JSValue) :
  (x ||| JStr "") ||| JStr "" = x ||| JStr "".
Proof.
  destruct (truthy x) eqn:T.
  - rewrite (jor_truthy x _ T); apply jor_truthy; exact T.
  - rewrite (jor_falsy x _ T); reflexivity.
Qed.

Lemma jor_empty_settles_undefined (x : JSValue) :
  ((x ||| JStr "") ||| JUndefined) ||| JStr "" = x ||| JStr "".
Proof.
  destruct (truthy x) eqn:T.
  - rewrite (jor_truthy x _ T); apply jor_settled; exact T.
  - rewrite (jor_falsy x _ T); reflexivity.
Qed.

Lemma parseFloat_settles_undefined (v : JSValue) :
  parseFloat ((parseFloat v ||| JNull) ||| JUndefined) ||| JNull
  = parseFloat v ||| JNull.
Proof.
  destruct (truthy (parseFloat v)) eqn:T.
  - rewrite (jor_truthy (parseFloat v ||| JNull) JUndefined)
      by (rewrite (jor_truthy _ _ T); exact T).
    apply parseFloat_settles.
  - rewrite (jor_falsy _ JNull T); reflexivity.
Qed.

(** The listing normaliser applied to its own output. *)
Lemma listingRecord_twice (h : JSValue) :
  listingRecord (asItem (listingRecord h)) = withoutLinks (listingRecord h).
Proof.
  set (f := prop h "fieldData").
  unfold listingRecord at 1.
  change (prop (asItem (listingRecord h)) "fieldData") with (listingRecord h).
  unfold imageUrl at 1, hotelUrl at 1, listingRecord, withoutLinks, optProp.
  fold f.
  cbn [prop lookup String.eqb Ascii.eqb Bool.eqb nullish map fst orb].
  rewrite !jor_undefined_l.
  rewrite (jor_settled (prop f "name" ||| prop f "hotel-name" ||| JStr "Unnamed"))
    by (apply truthy_default; reflexivity).
  rewrite (jor_settled
             (prop f "region" ||| prop f "location" ||| prop f "region-2"
              ||| JStr "Portugal") JUndefined JUndefined)
    by (apply truthy_default; reflexivity).
  rewrite (jor_truthy
             (prop f "region" ||| prop f "location" ||| prop f "region-2"
              ||| JStr "Portugal") (JStr "Portugal"))
    by (apply truthy_default; reflexivity).
  rewrite jor_empty_settles.
  rewrite parseFloat_settles, parseFloat_settles_undefined.
  reflexivity.
Qed.

(** The lookup normaliser applied to its own output. *)
Lemma slugRecord_twice (f : JSValue) :
  slugRecord (slugRecord f) = withoutLinks (slugRecord f).
Proof.
  unfold slugRecord at 1.
  unfold imageUrl at 1, hotelUrl at 1, slugRecord, withoutLinks, optProp.
  cbn [prop lookup String.eqb Ascii.eqb Bool.eqb nullish map fst orb].
  rewrite !jor_undefined_l.
  rewrite (jor_settled (prop f "name" ||| prop f "hotel-name" ||| JStr "Unnamed"))
    by (apply truthy_default; reflexivity).
  rewrite (jor_settled
             (prop f "region" ||| prop f "location" ||| prop f "region-2"
              ||| JStr "Portugal") JUndefined JUndefined)
    by (apply truthy_default; reflexivity).
  rewrite (jor_truthy
             (prop f "region" ||| prop f "location" ||| prop f "region-2"
              ||| JStr "Portugal") (JStr "Portugal"))
    by (apply truthy_default; reflexivity).
  rewrite jor_empty_settles_undefined, jor_empty_settles.
  rewrite parseFloat_settles, parseFloat_settles_undefined.
  reflexivity.
Qed.

Lemma listingRecord_settled_iff (h : JSValue) :
  withoutLinks (listingRecord h) = listingRecord h
  <-> prop (listingRecord h) "image" = JStr ""
      /\ prop (listingRecord h) "bookingUrl" = JStr "".
Proof.
  unfold listingRecord, withoutLinks.
  cbn [prop lookup String.eqb Ascii.eqb Bool.eqb map fst orb].
  split.
  - intros H; injection H as Hi Hb; split; symmetry; assumption.
  - intros [Hi Hb]; rewrite Hi, Hb; reflexivity.
Qed.

Lemma slugRecord_settled_iff (f : JSValue) :
  withoutLinks (slugRecord f) = slugRecord f
  <-> prop (slugRecord f) "image" = JStr ""
      /\ prop (slugRecord f) "bookingUrl" = JStr "".
Proof.
  unfold slugRecord, withoutLinks.
  cbn [prop lookup String.eqb Ascii.eqb Bool.eqb map fst orb].
  split.
  - intros H; injection H as Hi Hb; split; symmetry; assumption.
  - intros [Hi Hb]; rewrite Hi, Hb; reflexivity.
Qed.

Lemma withoutLinks_idem (r : JSValue) :
  withoutLinks (withoutLinks r) = withoutLinks r.
Proof.
  destruct r as [| | | | | |ps]; try reflexivity.
  unfold withoutLinks; rewrite map_map; f_equal.
  apply map_ext; intros [k v]; cbn [fst].
  destruct ((k =? "image") || (k =? "bookingUrl")) eqn:E; cbn [fst];
    rewrite E; reflexivity.
Qed.

(** C8 (as amended). Applied to its own output, taken as the field data of an
    item, each of the two normalisers returns the first record with [image]
    and [bookingUrl] emptied and every other attribute (name, slug, region,
    description, coordinates, rooms, url) as it was: the output keeps those two
    under keys the normaliser does not read.  So the second application gives
    the same record exactly when the first has an empty [image] and an empty
    [bookingUrl], and from the second application on nothing changes. *)
Theorem normaliser_twice_keeps_all_but_links :
  forall h f : JSValue,
    let r := listingRecord h in
    let s := slugRecord f in
    listingRecord (asItem r) = withoutLinks r
    /\ slugRecord s = withoutLinks s
    /\ (listingRecord (asItem r) = r
        <-> prop r "image" = JStr "" /\ prop r "bookingUrl" = JStr "")
    /\ (slugRecord s = s
        <-> prop s "image" = JStr "" /\ prop s "bookingUrl" = JStr "")
    /\ listingRecord (asItem (listingRecord (asItem r))) = listingRecord (asItem r)
    /\ slugRecord (slugRecord s) = slugRecord s.
Proof.
  intros h f r s; subst r s.
  pose proof (listingRecord_twice h) as L1.
  pose proof (slugRecord_twice f) as S1.
  split; [exact L1|]; split; [exact S1|].
  split; [rewrite L1; apply listingRecord_settled_iff|].
  split; [rewrite S1; apply slugRecord_settled_iff|].
  split.
  - rewrite (listingRecord_twice (asItem (listingRecord h))), L1.
    apply withoutLinks_idem.
  - rewrite (slugRecord_twice (slugRecord f)), S1.
    apply withoutLinks_idem.
Qed.

(** Counterexample to C8 as stated: a hotel with a cover image and a booking
    link.  Normalised once, the record carries both; normalised again, both
    are empty. *)
Lemma normalising_twice_loses_links :
  prop (listingRecord (asItem memmoWithLinks)) "image"
    = JStr "https://cdn.joandso.com/memmo.jpg"
  /\ prop (listingRecord (asItem (listingRecord (asItem memmoWithLinks)))) "image"
     = JStr ""
  /\ prop (listingRecord (asItem memmoWithLinks)) "bookingUrl"
     = JStr "https://book.joandso.com/memmo-alfama"
  /\ prop (listingRecord (asItem (listingRecord (asItem memmoWithLinks))))
       "bookingUrl" = JStr ""
  /\ prop (slugRecord memmoWithLinks) "image"
     = JStr "https://cdn.joandso.com/memmo.jpg"
  /\ prop (slugRecord (slugRecord memmoWithLinks)) "image" = JStr ""
  /\ listingRecord (asItem (listingRecord (asItem memmoWithLinks)))
     <> listingRecord (asItem memmoWithLinks)
  /\ slugRecord (slugRecord memmoWithLinks) <> slugRecord memmoWithLinks.
Proof.
  repeat split; try (vm_compute; reflexivity); vm_compute; discriminate.
Qed.

(* ================================================================= *)
(** * Further properties of the server *)

(** ** The refresh as a whole *)

Section RefreshOutcomes.

Variable World : Type.
Variable fetch : World -> Request -> World * FetchOutcome.
Variable now : World -> Z.
Variable env : Env.

(** A refresh that runs to its end returns normally, whatever happened on
    the way. *)
Lemma refreshCMSCache_returns :
  forall (fuel : nat) (s s' : State World) (r : Result unit),
    refreshCMSCache World fetch now env fuel s = Some (s', r) -> r = Ok tt.
Proof.
  intros fuel s s' r H; unfold refreshCMSCache in H.
  destruct (negb (truthy (WEBFLOW_API_TOKEN env))).
  - injection H as _ <-; reflexivity.
  - unfold tryCatch in H.
    destruct (refreshCMSCache_try World fetch now env fuel s)
      as [[s1 [[]|e]]|]; [| |discriminate].
    + injection H as _ <-; reflexivity.
    + injection H as _ <-; reflexivity.
Qed.

(** X1. [POST /api/cms/refresh] answers 200 with [success: true] and the
    number of hotels now in the cache whenever the refresh comes to an end:
    also when the credential is missing, and also when the refresh threw and
    fetched nothing. *)
Theorem refresh_route_always_reports_success :
  forall (fuel : nat) (s s' : State World) (r : Result HttpResponse),
    postRefresh World fetch now env fuel s = Some (s', r) ->
    refreshCMSCache World fetch now env fuel s = Some (s', Ok tt)
    /\ r = Ok (resJson (JObj [("success", JBool true);
                              ("hotelCount", hotelCount (cache World s'))])).
Proof.
  intros fuel s s' r H; unfold postRefresh, bindT in H.
  destruct (refreshCMSCache World fetch now env fuel s) as [[s1 r1]|] eqn:E;
    [|discriminate].
  rewrite (refreshCMSCache_returns fuel s s1 r1 E) in *.
  cbn in H; injection H as <- <-.
  split; reflexivity.
Qed.

(** The body of the refresh, when it does not throw, ends by stamping the
    cache with the time of that moment. *)
Lemma refresh_try_stamps :
  forall (fuel : nat) (s s' : State World),
    refreshCMSCache_try World fetch now env fuel s = Some (s', Ok tt) ->
    lastFetch (cache World s') = Some (now (world World s')).
Proof.
  intros fuel s s' H.
  unfold refreshCMSCache_try in H.
  destruct (fetchWebflowCollections_returns World fetch env s) as [w1 [data Hc]].
  unfold bindT at 1 in H; rewrite Hc in H.
  unfold bindT at 1, liftR at 1 in H.
  destruct (getProp data "collections") as [found|e1]; [|discriminate].
  unfold bindT at 1, liftR at 1 in H.
  destruct (iterate (found ||| JArr [])) as [cols|e1]; [|discriminate].
  unfold bindT at 1, liftR at 1 in H.
  destruct (foldR pickCollection (JNull, JNull) cols) as [[hid rid]|e1];
    [|discriminate].
  cbn [fst snd] in H.
  set (s1 := {| world := w1; cache := cache World s |}) in *.
  clearbody s1; clear Hc.
  unfold bindT at 1 in H.
  assert (Hend : forall sa : State World,
            bindT World
              (if truthy rid
               then bindT World
                      (fetchAllCollectionItems World fetch env fuel rid)
                      (fun items => modifyCache World (setRegions items))
               else ret World tt)
              (fun _ =>
                 bindT World (dateNow World now)
                   (fun t => modifyCache World (setLastFetch t))) sa
            = Some (s', Ok tt) ->
            lastFetch (cache World s') = Some (now (world World s'))).
  { intros sa Ha; unfold bindT at 1 in Ha.
    destruct (truthy rid).
    - unfold bindT at 1 in Ha.
      destruct (fetchAllCollectionItems World fetch env fuel rid sa)
        as [[sb [ritems|e1]]|]; [| discriminate | discriminate].
      cbn in Ha; injection Ha as <-; reflexivity.
    - cbn in Ha; injection Ha as <-; reflexivity. }
  destruct (truthy hid).
  - unfold bindT at 1 in H.
    destruct (fetchAllCollectionItems World fetch env fuel hid s1)
      as [[s2 [items|e1]]|]; [| discriminate | discriminate].
    unfold modifyCache at 1 in H.
    exact (Hend _ H).
  - unfold ret at 1 in H; exact (Hend _ H).
Qed.

(** X2. A refresh whose body ran to its end leaves the cache stamped with the
    clock of that moment, and from then on the staleness test of the chat
    route stays false until the clock has passed that stamp by more than the
    cache duration of 1,800,000 ms (a stamp of 0 alone counts as no stamp). *)
Theorem completed_refresh_is_fresh :
  forall (fuel : nat) (s s' : State World),
    refreshCMSCache_try World fetch now env fuel s = Some (s', Ok tt) ->
    lastFetch (cache World s') = Some (now (world World s'))
    /\ forall t : Z,
         isStale (cache World s') t
         = ((now (world World s') =? 0)%Z
            || (now (world World s') + 1800000 <? t)%Z).
Proof.
  intros fuel s s' H.
  pose proof (refresh_try_stamps fuel s s' H) as Hstamp.
  split; [exact Hstamp|].
  intros t; unfold isStale; rewrite Hstamp.
  f_equal; unfold CACHE_DURATION.
  destruct (Z.ltb_spec (30 * 60 * 1000) (t - now (world World s')));
    destruct (Z.ltb_spec (now (world World s') + 1800000) t);
    try reflexivity; lia.
Qed.

(** X3. With the CMS credential set, a listing of the collections that does
    not come through (the network rejects it, the status is a failure, or the
    body is not JSON) is taken for an empty listing: the refresh returns
    normally, fetches no item, leaves hotels, regions and collections as they
    were, and stamps the cache as refreshed all the same. *)
Theorem failed_listing_still_stamps_cache :
  forall (fuel : nat) (s : State World) (w' : World) (out : FetchOutcome),
    truthy (WEBFLOW_API_TOKEN env) = true ->
    fetch (world World s)
      (ListCollections (bearer env) (toString (WEBFLOW_SITE_ID env))) = (w', out) ->
    listingFailed out ->
    refreshCMSCache World fetch now env fuel s
    = Some ({| world := w'; cache := setLastFetch (now w') (cache World s) |},
            Ok tt).
Proof.
  intros fuel s w' out Htoken Hfetch Hfailed.
  assert (Hlisting : fetchWebflowCollections World fetch env s
            = Some ({| world := w'; cache := cache World s |},
                    Ok (JObj [("collections", JArr [])]))).
  { unfold fetchWebflowCollections, tryCatch, bindT, awaitFetch.
    rewrite Hfetch.
    destruct out as [|r]; [reflexivity|].
    destruct Hfailed as [Hok|[e He]].
    - rewrite Hok; reflexivity.
    - destruct (ok r); [|reflexivity].
      cbn [negb]; unfold awaitJson, liftR; rewrite He; reflexivity. }
  unfold refreshCMSCache; rewrite Htoken; cbn [negb].
  unfold tryCatch, refreshCMSCache_try.
  unfold bindT at 1; rewrite Hlisting.
  reflexivity.
Qed.

(** X4. When the listing names a hotels collection and no regions collection,
    and the first page request for the hotels is answered with a failure
    status, the refresh returns normally, replaces the cached hotels by the
    empty list and stamps the cache as refreshed.  (When the id of the
    collection does not convert to a string there is no page request: the
    refresh returns with the cache as it was.) *)
Theorem failed_first_page_empties_hotels :
  forall (fuel : nat) (s : State World) (w1 w2 : World) (st1 st2 : nat)
         (data found hotelsId regionsId : JSValue) (listing : list JSValue)
         (body : Result JSValue),
    truthy (WEBFLOW_API_TOKEN env) = true ->
    fetch (world World s)
      (ListCollections (bearer env) (toString (WEBFLOW_SITE_ID env)))
      = (w1, Responded {| ok := true; status := st1; json := Ok data |}) ->
    getProp data "collections" = Ok found ->
    iterate (found ||| JArr []) = Ok listing ->
    foldR pickCollection (JNull, JNull) listing = Ok (hotelsId, regionsId) ->
    truthy hotelsId = true ->
    truthy regionsId = false ->
    fetch w1 (ListItems (bearer env) (toString hotelsId) 0 100)
      = (w2, Responded {| ok := false; status := st2; json := body |}) ->
    refreshCMSCache World fetch now env (S fuel) s
    = Some (if printable hotelsId
            then {| world := w2;
                    cache := setLastFetch (now w2)
                               (setHotels [] (cache World s)) |}
            else {| world := w1; cache := cache World s |},
            Ok tt).
Proof.
  intros fuel s w1 w2 st1 st2 data found hid rid listing body
         Htoken Hlist Hfound Hiter Hpick Hhid Hrid Hpage.
  unfold refreshCMSCache; rewrite Htoken; cbn [negb].
  unfold tryCatch, refreshCMSCache_try.
  unfold bindT at 1.
  unfold fetchWebflowCollections, tryCatch.
  unfold bindT at 1, awaitFetch at 1; rewrite Hlist.
  cbn [ok negb]; unfold awaitJson at 1, liftR at 1; cbn [json].
  unfold bindT at 1, liftR at 1; rewrite Hfound.
  unfold bindT at 1, liftR at 1; rewrite Hiter.
  unfold bindT at 1, liftR at 1; rewrite Hpick.
  cbn [fst snd]; rewrite Hhid, Hrid.
  unfold bindT at 1, bindT at 1.
  unfold fetchAllCollectionItems; cbn [fetchPages].
  unfold bindT at 1, liftR at 1, stringOf.
  destruct (printable hid); [|reflexivity].
  unfold bindT at 1, awaitFetch at 1, limit; cbn [world cache].
  rewrite Hpage; cbn [ok negb].
  reflexivity.
Qed.

(** X27. When the listing names a hotels collection and the first page
    request for it is rejected by the network, or is answered with an ok
    status and a body that is not JSON, the error leaves the paging loop, the
    refresh catches it and returns normally, and the whole cache, its time
    stamp included, is as it was: unlike a failure status, which empties the
    hotels and stamps the cache. *)
Theorem lost_first_page_keeps_cache :
  forall (fuel : nat) (s : State World) (w1 w2 : World) (st1 : nat)
         (data found hotelsId regionsId : JSValue) (listing : list JSValue)
         (out : FetchOutcome),
    truthy (WEBFLOW_API_TOKEN env) = true ->
    fetch (world World s)
      (ListCollections (bearer env) (toString (WEBFLOW_SITE_ID env)))
      = (w1, Responded {| ok := true; status := st1; json := Ok data |}) ->
    getProp data "collections" = Ok found ->
    iterate (found ||| JArr []) = Ok listing ->
    foldR pickCollection (JNull, JNull) listing = Ok (hotelsId, regionsId) ->
    truthy hotelsId = true ->
    printable hotelsId = true ->
    fetch w1 (ListItems (bearer env) (toString hotelsId) 0 100) = (w2, out) ->
    pageLost out ->
    refreshCMSCache World fetch now env (S fuel) s
    = Some ({| world := w2; cache := cache World s |}, Ok tt).
Proof.
  intros fuel s w1 w2 st1 data found hid rid listing out
         Htoken Hlist Hfound Hiter Hpick Hhid Hprint Hpage Hlost.
  unfold refreshCMSCache; rewrite Htoken; cbn [negb].
  unfold tryCatch, refreshCMSCache_try.
  unfold bindT at 1.
  unfold fetchWebflowCollections, tryCatch.
  unfold bindT at 1, awaitFetch at 1; rewrite Hlist.
  cbn [ok negb]; unfold awaitJson at 1, liftR at 1; cbn [json].
  unfold bindT at 1, liftR at 1; rewrite Hfound.
  unfold bindT at 1, liftR at 1; rewrite Hiter.
  unfold bindT at 1, liftR at 1; rewrite Hpick.
  cbn [fst snd]; rewrite Hhid.
  unfold bindT at 1, bindT at 1.
  unfold fetchAllCollectionItems; cbn [fetchPages].
  unfold bindT at 1, liftR at 1, stringOf; rewrite Hprint.
  unfold bindT at 1, awaitFetch at 1, limit; cbn [world cache].
  rewrite Hpage.
  destruct Hlost as [->|[st [e ->]]]; reflexivity.
Qed.

End RefreshOutcomes.

Lemma refresh_route_always_reports_success_witness :
  refreshCMSCache unit regionsUnreachable sampleClock cmsEnv 1
    {| world := tt; cache := cacheBefore |}
  = Some ({| world := tt; cache := setHotels [memmoAlfama] cacheBefore |}, Ok tt)
  /\ Ok (resJson (JObj [("success", JBool true);
                        ("hotelCount", JNum (Finite 1 0))]))
     = Ok (resJson (JObj [("success", JBool true);
                          ("hotelCount",
                           hotelCount (setHotels [memmoAlfama] cacheBefore))])).
Proof.
  refine (refresh_route_always_reports_success unit regionsUnreachable
            sampleClock cmsEnv 1 {| world := tt; cache := cacheBefore |}
            {| world := tt; cache := setHotels [memmoAlfama] cacheBefore |}
            (Ok (resJson (JObj [("success", JBool true);
                                ("hotelCount", JNum (Finite 1 0))]))) _).
  vm_compute; reflexivity.
Defined.

Lemma completed_refresh_is_fresh_witness :
  isStale
    (setLastFetch 1700000060000
       (setRegions [lisbonRegion] (setHotels [memmoAlfama] cacheBefore)))
    (1700000060000 + 1800000)%Z = false.
Proof.
  refine (eq_trans
            (proj2 (completed_refresh_is_fresh unit themesUnreachable sampleClock
                      cmsEnv 1 {| world := tt; cache := cacheBefore |}
                      {| world := tt;
                         cache := setLastFetch 1700000060000
                                    (setRegions [lisbonRegion]
                                       (setHotels [memmoAlfama] cacheBefore)) |}
                      _) _) _).
  - vm_compute; reflexivity.
  - vm_compute; reflexivity.
Defined.

Lemma failed_listing_still_stamps_cache_witness :
  refreshCMSCache unit offline sampleClock cmsEnv 0
    {| world := tt; cache := cacheBefore |}
  = Some ({| world := tt; cache := setLastFetch 1700000060000 cacheBefore |},
          Ok tt).
Proof.
  refine (failed_listing_still_stamps_cache unit offline sampleClock cmsEnv 0
            {| world := tt; cache := cacheBefore |} tt Rejected _ _ _).
  - reflexivity.
  - reflexivity.
  - exact I.
Defined.

Lemma failed_first_page_empties_hotels_witness :
  refreshCMSCache unit pagesFailing sampleClock cmsEnv 1
    {| world := tt; cache := cacheBefore |}
  = Some ({| world := tt;
             cache := setLastFetch 1700000060000 (setHotels [] cacheBefore) |},
          Ok tt).
Proof.
  refine (failed_first_page_empties_hotels unit pagesFailing sampleClock cmsEnv 0
            {| world := tt; cache := cacheBefore |} tt tt 200 503
            siteHotelsOnly _ (JStr "col-hotels") JNull _ (Throw SyntaxError)
            _ _ _ _ _ _ _ _).
  - reflexivity.
  - reflexivity.
  - reflexivity.
  - reflexivity.
  - reflexivity.
  - reflexivity.
  - reflexivity.
  - reflexivity.
Defined.

Lemma lost_first_page_keeps_cache_witness :
  refreshCMSCache unit pagesRejected sampleClock cmsEnv 1
    {| world := tt; cache := cacheBefore |}
  = Some ({| world := tt; cache := cacheBefore |}, Ok tt).
Proof.
  refine (lost_first_page_keeps_cache unit pagesRejected sampleClock cmsEnv 0
            {| world := tt; cache := cacheBefore |} tt tt 200
            siteHotelsOnly _ (JStr "col-hotels") JNull _ Rejected
            _ _ _ _ _ _ _ _ _).
  - reflexivity.
  - reflexivity.
  - reflexivity.
  - reflexivity.
  - reflexivity.
  - reflexivity.
  - reflexivity.
  - reflexivity.
  - left; reflexivity.
Defined.

(* ================================================================= *)
(** ** Which collections the refresh fetches *)

Lemma foldR_app {A B : Type} (f : A -> B -> Result A) (a : A) (xs ys : list B) :
  foldR f a (xs ++ ys) = (let* a' := foldR f a xs in foldR f a' ys).
Proof.
  revert a; induction xs as [|x xs IH]; intros a; simpl; [reflexivity|].
  destruct (f a x) as [a1|e]; simpl; [apply IH|reflexivity].
Qed.

Lemma pickCollection_named (ids : JSValue * JSValue) (collection : JSValue) :
  wellNamed collection ->
  pickCollection ids collection
  = Ok (if takenForHotels collection then (prop collection "id", snd ids)
        else if takenForRegions collection then (fst ids, prop collection "id")
        else ids).
Proof.
  intros [Hc [name Hname]].
  unfold pickCollection, getProp, takenForHotels, takenForRegions, nameOf.
  rewrite Hc; cbn [bind].
  unfold collectionName in Hname |- *; rewrite Hname; cbn [bind].
  fold (namesHotels name); fold (namesRegions name).
  destruct (namesHotels name); [reflexivity|].
  destruct (namesRegions name); reflexivity.
Qed.

(** X5. Over a listing whose entries all have a readable name, the loop of
    the refresh ends with the id of the last entry whose name contains
    "hotel" and not "type" as the hotels collection, and with the id of the
    last entry that is not such a one and whose name contains "region" or
    "location" as the regions collection ([null] when there is none): a later
    match replaces an earlier one, and an entry that matches both tests counts
    for the hotels only. *)
Theorem refresh_picks_last_matching_collections :
  forall listing : list JSValue,
    Forall wellNamed listing ->
    foldR pickCollection (JNull, JNull) listing
    = Ok (idOfLast takenForHotels listing, idOfLast takenForRegions listing).
Proof.
  intros listing; induction listing as [|c listing IH] using rev_ind;
    intros Hall; [reflexivity|].
  apply Forall_app in Hall; destruct Hall as [Hall Hc].
  inversion Hc as [|? ? Hc1 _]; subst.
  rewrite foldR_app, (IH Hall); cbn [bind foldR].
  rewrite (pickCollection_named _ c Hc1); cbn [bind fst snd].
  unfold idOfLast; rewrite rev_app_distr; cbn [rev app find].
  assert (Hr : takenForRegions c
               = negb (takenForHotels c) && namesRegions (nameOf c))
    by reflexivity.
  rewrite Hr.
  destruct (takenForHotels c); cbn [negb andb]; [reflexivity|].
  destruct (namesRegions (nameOf c)); reflexivity.
Qed.

Lemma refresh_picks_last_matching_collections_witness :
  foldR pickCollection (JNull, JNull) mixedListing = Ok (JStr "c", JStr "d").
Proof.
  refine (eq_trans (refresh_picks_last_matching_collections mixedListing _) _).
  - repeat constructor; eexists; vm_compute; reflexivity.
  - vm_compute; reflexivity.
Defined.

(* ================================================================= *)
(** ** The hotel helpers and their routes *)

Lemma strictEq_string (v : JSValue) (s : string) :
  strictEq v (JStr s) = true -> v = JStr s.
Proof.
  destruct v; simpl; try discriminate.
  intros H; apply String.eqb_eq in H; subst; reflexivity.
Qed.

Lemma hasSlug_slug (s : string) (h : JSValue) :
  hasSlug (JStr s) h = true -> prop (prop h "fieldData") "slug" = JStr s.
Proof.
  intros H; destruct (hasSlug_string_item s h H) as [_ Hn].
  unfold hasSlug, optProp in H; rewrite Hn in H.
  apply strictEq_string; exact H.
Qed.

(** X6. Over a cache without [null] items, [GET /api/hotels/:slug] looks at
    the first cached item whose slug is the requested one.  When there is
    none it answers 404 with [{error: 'Hotel not found'}].  When the values
    its latitude and longitude are parsed from convert to strings it answers
    200 with the record of that item, which carries the requested slug and
    the guide URL ending in it.  When one of them does not convert (an object
    with a [toString] key of its own) the handler throws a [TypeError]. *)
Theorem hotel_route_serves_first_match_or_404 :
  forall (c : Cache) (slug : string),
    Forall (fun h => nullish h = false) (hotels c) ->
    match find (hasSlug (JStr slug)) (hotels c) with
    | Some h =>
        getHotel c slug
        = (if printable (latSource (prop h "fieldData"))
              && printable (lngSource (prop h "fieldData"))
           then Ok {| statusCode := 200;
                      body := slugRecord (prop h "fieldData") |}
           else Throw TypeError)
        /\ prop (slugRecord (prop h "fieldData")) "slug" = JStr slug
        /\ prop (slugRecord (prop h "fieldData")) "url"
           = JStr (hotelBase ^^ slug)
    | None => getHotel c slug = Ok notFound
    end.
Proof.
  intros c slug Hitems.
  unfold getHotel; rewrite (getHotelBySlug_string c slug Hitems).
  destruct (find (hasSlug (JStr slug)) (hotels c)) as [h|] eqn:F;
    [|reflexivity].
  apply find_some in F; destruct F as [_ F].
  pose proof (hasSlug_slug slug h F) as Hslug.
  repeat split.
  - unfold converts; fold (latSource (prop h "fieldData"));
      fold (lngSource (prop h "fieldData")).
    rewrite Hslug; cbn [printable]; rewrite andb_true_r.
    destruct (printable (latSource (prop h "fieldData"))
              && printable (lngSource (prop h "fieldData"))); reflexivity.
  - exact Hslug.
  - change (JStr (hotelBase ^^ toString (prop (prop h "fieldData") "slug"))
            = JStr (hotelBase ^^ slug)).
    rewrite Hslug; reflexivity.
Qed.

Lemma hotel_route_serves_first_match_or_404_witness :
  getHotel oddCache "memmo-alfama"
  = Ok {| statusCode := 200; body := memmoRecord |}
  /\ getHotel oddCache "memmo" = Ok notFound
  /\ getHotel oddCache "casa-estranha" = Throw TypeError.
Proof.
  split; [|split].
  - refine (proj1 (hotel_route_serves_first_match_or_404 oddCache
                     "memmo-alfama" _)).
    repeat constructor.
  - refine (hotel_route_serves_first_match_or_404 oddCache "memmo" _).
    repeat constructor.
  - refine (proj1 (hotel_route_serves_first_match_or_404 oddCache
                     "casa-estranha" _)).
    repeat constructor.
Defined.

Lemma filterR_listed_total (hs : list JSValue) :
  filterR listed hs
  = if existsb isNullish hs then Throw TypeError else Ok (filter open hs).
Proof.
  induction hs as [|h hs IH]; [reflexivity|].
  cbn [filterR existsb filter]; unfold isNullish at 1.
  destruct (nullish h) eqn:Hh.
  - unfold listed, getProp; rewrite Hh; reflexivity.
  - rewrite (listed_open h Hh), IH; cbn [bind orb].
    destruct (existsb isNullish hs); [reflexivity|].
    destruct (open h); reflexivity.
Qed.

Lemma mapR_records (hs : list JSValue) :
  mapR (fun h =>
          let* _ := recordConversions (prop h "fieldData") in
          Ok (listingRecord h)) hs
  = if forallb (fun h => converts (prop h "fieldData")) hs
    then Ok (map listingRecord hs) else Throw TypeError.
Proof.
  induction hs as [|h hs IH]; [reflexivity|].
  cbn [mapR forallb map]; rewrite recordConversions_converts.
  destruct (converts (prop h "fieldData")); [|reflexivity].
  cbn [bind andb]; rewrite IH.
  destruct (forallb _ hs); reflexivity.
Qed.

Lemma getAllHotels_listable (c : Cache) :
  getAllHotels c
  = if listable c then Ok (map listingRecord (filter open (hotels c)))
    else Throw TypeError.
Proof.
  unfold getAllHotels, listable; rewrite filterR_listed_total.
  destruct (existsb isNullish (hotels c)); [reflexivity|].
  cbn [bind negb andb]; apply mapR_records.
Qed.

(** X7. The listing throws a [TypeError] exactly when some cached item is
    [null] or [undefined], or when, on some open item, a value that a
    coordinate is parsed from or the slug does not convert to a string;
    otherwise it is the listing records, in cache order, of the items that
    have field data and neither flag, and [GET /api/hotels] answers 200 with
    that array. *)
Theorem listing_is_open_items_or_type_error :
  forall c : Cache,
    getAllHotels c
    = (if listable c then Ok (map listingRecord (filter open (hotels c)))
       else Throw TypeError)
    /\ getHotels c
       = (if listable c
          then Ok {| statusCode := 200;
                     body := JArr (map listingRecord (filter open (hotels c))) |}
          else Throw TypeError).
Proof.
  intros c; unfold getHotels.
  rewrite getAllHotels_listable.
  destruct (listable c); split; reflexivity.
Qed.

Lemma coordinate_parsed (v : JSValue) : coordinate (parseFloat v ||| JNull).
Proof.
  unfold parseFloat, jor; cbn [truthy].
  destruct (numTruthy (parseFloatStr (toString v))) eqn:E.
  - right; eexists; split; [reflexivity|exact E].
  - left; reflexivity.
Qed.

(** X8. Whatever the field data of an item, both records have a truthy name
    and region, coordinates that are each [null] or a number other than zero
    and [NaN], and a string [url] that starts with the address of the guide;
    the record of the listing has no [rooms]. *)
Theorem records_are_well_formed :
  forall (h : JSValue) (r : JSValue),
    r = slugRecord (prop h "fieldData") \/ r = listingRecord h ->
    truthy (prop r "name") = true
    /\ truthy (prop r "region") = true
    /\ coordinate (prop r "lat")
    /\ coordinate (prop r "lng")
    /\ prop r "url" = JStr (hotelBase ^^ toString (prop (prop h "fieldData") "slug"))
    /\ (r = listingRecord h -> prop r "rooms" = JUndefined).
Proof.
  intros h r [-> | ->].
  - repeat split.
    + apply truthy_default; reflexivity.
    + apply truthy_default; reflexivity.
    + apply coordinate_parsed.
    + apply coordinate_parsed.
    + intros H; exfalso.
      assert (Hk : List.length match slugRecord (prop h "fieldData") with
                               | JObj ps => ps | _ => [] end
                   = List.length match listingRecord h with
                                 | JObj ps => ps | _ => [] end)
        by (rewrite H; reflexivity).
      discriminate Hk.
  - repeat split.
    + apply truthy_default; reflexivity.
    + apply truthy_default; reflexivity.
    + apply coordinate_parsed.
    + apply coordinate_parsed.
Qed.

Lemma records_are_well_formed_witness :
  coordinate (prop (listingRecord (asItem equatorHotel)) "lat")
  /\ coordinate (prop (listingRecord (asItem equatorHotel)) "lng").
Proof.
  pose proof (records_are_well_formed (asItem equatorHotel)
                (listingRecord (asItem equatorHotel)) (or_intror eq_refl)) as H.
  split; [exact (proj1 (proj2 (proj2 H)))
         |exact (proj1 (proj2 (proj2 (proj2 H))))].
Defined.

Lemma jor_assoc (a b d : JSValue) : (a ||| b) ||| d = a ||| (b ||| d).
Proof. unfold jor; destruct (truthy a) eqn:E; [rewrite E|]; reflexivity. Qed.

(** X9. The record of the lookup by slug and the record of the listing, built
    from the same item, agree on name, slug, region, both coordinates, image,
    booking link and URL.  They differ in two places: only the lookup has
    [rooms], and the lookup falls back on [meta-description] for the
    description where the listing gives the empty string. *)
Theorem lookup_and_listing_records_agree :
  forall h : JSValue,
    let f := prop h "fieldData" in
    Forall (fun k => prop (listingRecord h) k = prop (slugRecord f) k) sharedKeys
    /\ prop (slugRecord f) "rooms"
       = prop f "number-of-rooms" ||| prop f "rooms" ||| JStr ""
    /\ prop (listingRecord h) "rooms" = JUndefined
    /\ prop (slugRecord f) "description"
       = (if truthy (prop f "short-description" ||| prop f "description")
          then prop (listingRecord h) "description"
          else prop f "meta-description" ||| JStr "")
    /\ (truthy (prop f "short-description" ||| prop f "description") = false ->
        prop (listingRecord h) "description" = JStr "").
Proof.
  intros h f; repeat split.
  - repeat constructor.
  - change (prop (slugRecord f) "description")
      with (prop f "short-description" ||| prop f "description"
            ||| prop f "meta-description" ||| JStr "").
    change (prop (listingRecord h) "description")
      with (prop f "short-description" ||| prop f "description" ||| JStr "").
    destruct (truthy (prop f "short-description" ||| prop f "description"))
      eqn:E.
    + rewrite (jor_truthy _ (prop f "meta-description")) by exact E.
      reflexivity.
    + rewrite (jor_falsy _ (prop f "meta-description")) by exact E.
      reflexivity.
  - intros E.
    change (prop (listingRecord h) "description")
      with (prop f "short-description" ||| prop f "description" ||| JStr "").
    apply jor_falsy; exact E.
Qed.

(* ================================================================= *)
(** ** The system prompt *)

Lemma buildSystemPrompt_listable (ph pt : string) (c : Cache) :
  listable c = true ->
  buildSystemPrompt ph pt c
  = (let* lines :=
       mapR hotelLine
         (map listingRecord (firstn 100 (filter open (hotels c)))) in
     Ok (ph ^^ numToString (numOfNat (List.length (filter open (hotels c))))
         ^^ " properties)" ^^ LF ^^ joinStr LF lines ^^ LF ^^ LF ^^ pt)).
Proof.
  intros H; unfold buildSystemPrompt.
  rewrite getAllHotels_listable, H; cbn [bind].
  rewrite length_map, firstn_map; reflexivity.
Qed.

(** X10. The system prompt is built from the open items only, and from no
    more than the first hundred of them and their number: two caches that
    the listing reads without throwing, and whose open items agree on the
    first hundred and in number, give the same prompt (or throw alike),
    whatever archived or closed items each holds. *)
Theorem prompt_depends_on_first_hundred_open_hotels :
  forall (promptHead promptTail : string) (c1 c2 : Cache),
    listable c1 = true ->
    listable c2 = true ->
    List.length (filter open (hotels c1)) = List.length (filter open (hotels c2)) ->
    firstn 100 (filter open (hotels c1)) = firstn 100 (filter open (hotels c2)) ->
    buildSystemPrompt promptHead promptTail c1
    = buildSystemPrompt promptHead promptTail c2.
Proof.
  intros ph pt c1 c2 H1 H2 Hlen Hfirst.
  rewrite (buildSystemPrompt_listable ph pt c1 H1).
  rewrite (buildSystemPrompt_listable ph pt c2 H2).
  rewrite Hlen, Hfirst; reflexivity.
Qed.

Lemma prompt_depends_on_first_hundred_open_hotels_witness :
  buildSystemPrompt "HOTEL DATABASE (" "CRITICAL" mixedCache
  = buildSystemPrompt "HOTEL DATABASE (" "CRITICAL" memmoCache.
Proof.
  apply (prompt_depends_on_first_hundred_open_hotels
           "HOTEL DATABASE (" "CRITICAL" mixedCache memmoCache);
    reflexivity.
Defined.

Lemma partOf_refl (s : string) : partOf s s.
Proof. exists "", ""; cbn; rewrite append_empty_r; reflexivity. Qed.

Lemma partOf_trans (a b c : string) : partOf a b -> partOf b c -> partOf a c.
Proof.
  intros [x [y ->]] [u [v ->]].
  exists (u ^^ x), (y ^^ v).
  rewrite !append_assoc; reflexivity.
Qed.

Lemma partOf_append_l (p a b : string) : partOf p a -> partOf p (a ^^ b).
Proof.
  intros [x [y ->]]; exists x, (y ^^ b); rewrite !append_assoc; reflexivity.
Qed.

Lemma partOf_append_r (p a b : string) : partOf p b -> partOf p (a ^^ b).
Proof.
  intros [x [y ->]]; exists (a ^^ x), y; rewrite !append_assoc; reflexivity.
Qed.

Lemma partOf_length (a b : string) :
  partOf a b -> (String.length a <= String.length b)%nat.
Proof. intros [x [y ->]]; rewrite !length_append; lia. Qed.

Lemma joinStr_part (sep p : string) (parts : list string) :
  In p parts -> partOf p (joinStr sep parts).
Proof.
  induction parts as [|q parts IH]; [intros []|].
  intros [<- | Hin].
  - destruct parts as [|q' parts]; [apply partOf_refl|].
    cbn [joinStr]; apply partOf_append_l, partOf_refl.
  - destruct parts as [|q' parts]; [destruct Hin|].
    cbn [joinStr]; apply partOf_append_r, partOf_append_r, IH, Hin.
Qed.

Lemma stringOf_ok (v : JSValue) (text : string) :
  stringOf v = Ok text -> text = toString v.
Proof.
  unfold stringOf; destruct (printable v); [|discriminate].
  intros H; injection H as <-; reflexivity.
Qed.

Lemma hotelLine_ok (r : JSValue) (line : string) :
  hotelLine r = Ok line ->
  line = "- " ^^ toString (prop r "name") ^^ " | region: "
         ^^ toString (prop r "region") ^^ " | slug: "
         ^^ toString (prop r "slug").
Proof.
  unfold hotelLine; intros H.
  destruct (stringOf (prop r "name")) as [name|e] eqn:Hn; cbn [bind] in H;
    [|discriminate].
  destruct (stringOf (prop r "region")) as [region|e] eqn:Hr; cbn [bind] in H;
    [|discriminate].
  destruct (stringOf (prop r "slug")) as [slug|e] eqn:Hs; cbn [bind] in H;
    [|discriminate].
  injection H as <-.
  rewrite (stringOf_ok _ _ Hn), (stringOf_ok _ _ Hr), (stringOf_ok _ _ Hs).
  reflexivity.
Qed.

Lemma mapR_In {A B : Type} (f : A -> Result B) (xs : list A) (ys : list B)
    (x : A) :
  mapR f xs = Ok ys -> In x xs -> exists y : B, f x = Ok y /\ In y ys.
Proof.
  revert ys; induction xs as [|a xs IH]; intros ys H Hin; [destruct Hin|].
  cbn [mapR] in H.
  destruct (f a) as [b|e] eqn:Fa; cbn [bind] in H; [|discriminate].
  destruct (mapR f xs) as [rest|e]; cbn [bind] in H; [|discriminate].
  injection H as <-.
  destruct Hin as [<-|Hin].
  - exists b; split; [exact Fa|left; reflexivity].
  - destruct (IH rest eq_refl Hin) as [y [Hy Hiny]].
    exists y; split; [exact Hy|right; exact Hiny].
Qed.

(** X11. Whenever the system prompt is built, each of the first hundred open
    items has its line in it: the text [- name | region: region | slug:
    slug], with the name, region and slug of its listing record. *)
Theorem prompt_has_a_line_for_each_listed_hotel :
  forall (promptHead promptTail : string) (c : Cache) (text : string)
         (h : JSValue),
    buildSystemPrompt promptHead promptTail c = Ok text ->
    In h (firstn 100 (filter open (hotels c))) ->
    partOf ("- " ^^ toString (prop (listingRecord h) "name") ^^ " | region: "
            ^^ toString (prop (listingRecord h) "region") ^^ " | slug: "
            ^^ toString (prop (listingRecord h) "slug")) text.
Proof.
  intros ph pt c text h H Hin.
  destruct (listable c) eqn:Hl.
  - rewrite (buildSystemPrompt_listable ph pt c Hl) in H.
    destruct (mapR hotelLine
                (map listingRecord (firstn 100 (filter open (hotels c)))))
      as [lines|e] eqn:M; cbn [bind] in H; [|discriminate].
    assert (Ht : text
                 = ph ^^ numToString
                           (numOfNat (List.length (filter open (hotels c))))
                   ^^ " properties)" ^^ LF ^^ joinStr LF lines ^^ LF ^^ LF ^^ pt)
      by congruence.
    rewrite Ht; clear H Ht.
    destruct (mapR_In hotelLine _ lines (listingRecord h) M
                (in_map listingRecord _ h Hin)) as [line [Hline Hinl]].
    rewrite <- (hotelLine_ok _ _ Hline).
    do 4 apply partOf_append_r.
    apply partOf_append_l.
    apply joinStr_part, Hinl.
  - unfold buildSystemPrompt in H.
    rewrite getAllHotels_listable, Hl in H; discriminate.
Qed.

Lemma prompt_has_a_line_for_each_listed_hotel_witness :
  partOf "- Memmo Alfama | region: Lisbon | slug: memmo-alfama"
    ("HOTEL DATABASE (" ^^ "1" ^^ " properties)" ^^ LF
     ^^ "- Memmo Alfama | region: Lisbon | slug: memmo-alfama"
     ^^ LF ^^ LF ^^ "CRITICAL").
Proof.
  refine (prompt_has_a_line_for_each_listed_hotel
            "HOTEL DATABASE (" "CRITICAL" mixedCache _ memmoAlfama _ _).
  - vm_compute; reflexivity.
  - left; reflexivity.
Defined.

(* ================================================================= *)
(** ** The chat route: what it answers when something is missing or fails *)

Section ChatOutcomes.

Variable World : Type.
Variable fetch : World -> Request -> World * FetchOutcome.
Variable now : World -> Z.
Variable env : Env.
Variable promptHead promptTail : string.
Variable JSON_parse : string -> Result JSValue.
Variable JSON_stringify : JSValue -> JSValue.

(** On a body that is an object (or any value other than [undefined] and
    [null]) the handler is [postChat] on the [message] and the [history] of
    the body. *)
Lemma chatRoute_object :
  forall (fuel : nat) (body : JSValue) (s : State World),
    nullish body = false ->
    chatRoute World fetch now env promptHead promptTail JSON_parse
      JSON_stringify fuel body s
    = postChat World fetch now env promptHead promptTail JSON_parse
        JSON_stringify fuel (prop body "message") (prop body "history") s.
Proof.
  intros fuel body s Hbody; unfold chatRoute, postChat.
  destruct (negb (truthy (ANTHROPIC_API_KEY env))); [reflexivity|].
  unfold bindT, liftR, getProp; rewrite Hbody; reflexivity.
Qed.

Lemma postChat_never_throws :
  forall (fuel : nat) (message history : JSValue) (s s' : State World)
         (r : Result HttpResponse),
    postChat World fetch now env promptHead promptTail JSON_parse JSON_stringify
      fuel message history s = Some (s', r) ->
    exists response : HttpResponse, r = Ok response.
Proof.
  intros fuel message history s s' r H; unfold postChat in H.
  destruct (negb (truthy (ANTHROPIC_API_KEY env))).
  { injection H as _ <-; eexists; reflexivity. }
  destruct (negb (truthy message)).
  { injection H as _ <-; eexists; reflexivity. }
  unfold tryCatch in H.
  match type of H with
  | match ?t s with _ => _ end = _ => destruct (t s) as [[s1 [resp|e]]|]
  end.
  - injection H as _ <-; eexists; reflexivity.
  - injection H as _ <-; eexists; reflexivity.
  - discriminate.
Qed.

(** X12. The chat route settles three requests before any work is done,
    without refreshing the cache or sending anything: when the
    chat-completion credential is not configured it answers 500, whatever the
    request; with the credential set, a request without a parsed body makes
    the destructuring of the body throw a [TypeError]; and a body whose
    [message] is missing or falsy is answered 400. *)
Theorem chat_refuses_before_any_work :
  forall (fuel : nat) (body : JSValue) (s : State World),
    truthy (ANTHROPIC_API_KEY env) = false
    \/ nullish body = true
    \/ truthy (prop body "message") = false ->
    chatRoute World fetch now env promptHead promptTail JSON_parse
      JSON_stringify fuel body s
    = Some (s, if truthy (ANTHROPIC_API_KEY env)
               then (if nullish body then Throw TypeError
                     else Ok messageRequired)
               else Ok keyMissing).
Proof.
  intros fuel body s H; unfold chatRoute.
  destruct (truthy (ANTHROPIC_API_KEY env)) eqn:Hkey; cbn [negb];
    [|reflexivity].
  unfold bindT at 1, liftR at 1, getProp.
  destruct (nullish body) eqn:Hbody; [reflexivity|].
  destruct H as [H|[H|H]]; try discriminate.
  unfold bindT, liftR, postChat; rewrite Hkey, H; reflexivity.
Qed.

(** X13. The chat route throws in one case only: with the credential set
    and a request without a parsed body, the destructuring of the body, which
    is outside the [try], throws a [TypeError] before anything is done.  In
    every other case the handler, when it comes to an end, has produced a
    response. *)
Theorem chat_route_throws_only_without_body :
  forall (fuel : nat) (body : JSValue) (s s' : State World)
         (r : Result HttpResponse),
    chatRoute World fetch now env promptHead promptTail JSON_parse
      JSON_stringify fuel body s = Some (s', r) ->
    (exists response : HttpResponse, r = Ok response)
    \/ (r = Throw TypeError /\ s' = s
        /\ truthy (ANTHROPIC_API_KEY env) = true /\ nullish body = true).
Proof.
  intros fuel body s s' r H.
  destruct (nullish body) eqn:Hbody.
  - unfold chatRoute in H.
    destruct (truthy (ANTHROPIC_API_KEY env)) eqn:Hkey; cbn [negb] in H.
    + unfold bindT at 1, liftR at 1, getProp in H; rewrite Hbody in H.
      injection H as <- <-; right; auto.
    + injection H as _ <-; left; eexists; reflexivity.
  - rewrite (chatRoute_object fuel body s Hbody) in H.
    left; exact (postChat_never_throws _ _ _ _ _ _ H).
Qed.



(** X15. With the credential set and a message, a request whose history is
    neither absent nor an array is answered with status 500 and
    ['Failed to process chat request'], and so is one made when the network
    rejects the upstream call; in both cases a fresh cache is left as it
    was. *)
Theorem chat_failure_answers_500 :
  forall (fuel : nat) (message history : JSValue) (s : State World),
    truthy (ANTHROPIC_API_KEY env) = true ->
    truthy message = true ->
    isStale (cache World s) (now (world World s)) = false ->
    (historyOf history = Throw TypeError
     \/ exists turns req w',
          historyOf history = Ok turns
          /\ chatRequest env promptHead promptTail JSON_stringify
               (cache World s) turns message = Ok req
          /\ fetch (world World s) req = (w', Rejected)) ->
    exists s' : State World,
      postChat World fetch now env promptHead promptTail JSON_parse
        JSON_stringify fuel message history s
      = Some (s', Ok chatFailed)
      /\ cache World s' = cache World s.
Proof.
  intros fuel message history s Hkey Hmsg Hfresh H.
  unfold postChat; rewrite Hkey, Hmsg; cbn [negb].
  unfold tryCatch, bindT, getCache, dateNow, awaitFetch, awaitJson, liftR, ret.
  rewrite Hfresh; cbn [world cache].
  destruct H as [Hhist | [turns [req [w' [Hhist [Hreq Hfetch]]]]]].
  - rewrite Hhist; eexists; split; reflexivity.
  - rewrite Hhist, Hreq, Hfetch; eexists; split; reflexivity.
Qed.

End ChatOutcomes.

Lemma chat_refuses_before_any_work_witness :
  chatRoute unit offline sampleClock noKeyEnv "" "" jsonParse jsonStringify 0
    JUndefined {| world := tt; cache := cmsCache0 |}
  = Some ({| world := tt; cache := cmsCache0 |}, Ok keyMissing)
  /\ chatRoute unit offline sampleClock chatEnv "" "" jsonParse jsonStringify 0
       JUndefined {| world := tt; cache := cmsCache0 |}
     = Some ({| world := tt; cache := cmsCache0 |}, Throw TypeError)
  /\ chatRoute unit offline sampleClock chatEnv "" "" jsonParse jsonStringify 0
       (JObj [("message", JStr "")]) {| world := tt; cache := cmsCache0 |}
     = Some ({| world := tt; cache := cmsCache0 |}, Ok messageRequired).
Proof.
  split; [|split].
  - apply (chat_refuses_before_any_work unit offline sampleClock noKeyEnv
             "" "" jsonParse jsonStringify 0 JUndefined).
    left; reflexivity.
  - apply (chat_refuses_before_any_work unit offline sampleClock chatEnv
             "" "" jsonParse jsonStringify 0 JUndefined).
    right; left; reflexivity.
  - apply (chat_refuses_before_any_work unit offline sampleClock chatEnv
             "" "" jsonParse jsonStringify 0 (JObj [("message", JStr "")])).
    right; right; reflexivity.
Defined.

Lemma chat_route_throws_only_without_body_witness :
  (exists response : HttpResponse,
     Ok {| statusCode := 200;
           body := JObj [("message", JStr "Great pick!");
                         ("hotels", JArr [memmoRecord]);
                         ("mapAction", JNull);
                         ("usage", sampleUsage)] |} = Ok response)
  \/ (Ok {| statusCode := 200;
            body := JObj [("message", JStr "Great pick!");
                          ("hotels", JArr [memmoRecord]);
                          ("mapAction", JNull);
                          ("usage", sampleUsage)] |} = Throw TypeError
      /\ {| world := tt; cache := memmoCache |}
         = {| world := tt; cache := memmoCache |}
      /\ truthy (ANTHROPIC_API_KEY chatEnv) = true
      /\ nullish (JObj [("message", JStr "Somewhere in Alfama?")]) = true).
Proof.
  refine (chat_route_throws_only_without_body unit (answering sampleReply)
            sampleClock chatEnv "" "" jsonParse jsonStringify 1
            (JObj [("message", JStr "Somewhere in Alfama?")])
            {| world := tt; cache := memmoCache |}
            {| world := tt; cache := memmoCache |} _ _).
  vm_compute; reflexivity.
Defined.


Lemma chat_failure_answers_500_witness :
  exists s' : State unit,
    postChat unit offline sampleClock chatEnv "" "" jsonParse jsonStringify 0
      (JStr "Somewhere in Alfama?") (JStr "earlier turns")
      {| world := tt; cache := memmoCache |}
    = Some (s', Ok chatFailed)
    /\ cache unit s' = memmoCache.
Proof.
  refine (chat_failure_answers_500 unit offline sampleClock chatEnv "" ""
            jsonParse jsonStringify 0 (JStr "Somewhere in Alfama?")
            (JStr "earlier turns") {| world := tt; cache := memmoCache |}
            _ _ _ _).
  - reflexivity.
  - reflexivity.
  - reflexivity.
  - left; reflexivity.
Defined.

(* ================================================================= *)
(** ** The reply of the chat route *)

Lemma findR_some {A : Type} (p : A -> Result bool) (xs : list A) (x : A) :
  findR p xs = Ok (Some x) -> In x xs.
Proof.
  induction xs as [|y xs IH]; simpl; [discriminate|].
  destruct (p y) as [[|]|e]; simpl; try discriminate.
  - intros H; injection H as ->; left; reflexivity.
  - intros H; right; exact (IH H).
Qed.

Lemma getHotelBySlug_from_cache (c : Cache) (slug v : JSValue) :
  getHotelBySlug c slug = Ok v -> v = JNull \/ cardOf c v.
Proof.
  unfold getHotelBySlug; intros H.
  match type of H with
  | (let* found := ?t in _) = _ => destruct t as [[h|]|e] eqn:F
  end; cbn [bind] in H; [| |discriminate].
  - destruct (negb (truthy h)); [injection H as <-; left; reflexivity|].
    destruct (nullish (prop h "fieldData")); [discriminate|].
    destruct (recordConversions (prop h "fieldData")) as [[]|e0];
      cbn [bind] in H; [|discriminate].
    injection H as <-; right; exists h; split; [|reflexivity].
    exact (findR_some _ _ _ F).
  - cbn in H; injection H as <-; left; reflexivity.
Qed.

Lemma mapR_getHotelBySlug (c : Cache) (slugs found : list JSValue) :
  mapR (getHotelBySlug c) slugs = Ok found ->
  Forall (fun v => v = JNull \/ cardOf c v) found.
Proof.
  revert found; induction slugs as [|slug slugs IH]; intros found H.
  - injection H as <-; constructor.
  - cbn [mapR] in H.
    destruct (getHotelBySlug c slug) as [v|e] eqn:G; cbn [bind] in H;
      [|discriminate].
    destruct (mapR (getHotelBySlug c) slugs) as [rest|e]; cbn [bind] in H;
      [|discriminate].
    injection H as <-; constructor.
    + exact (getHotelBySlug_from_cache c slug v G).
    + exact (IH rest eq_refl).
Qed.

(** X16. Every reply the chat route builds has status 200, and its [hotels]
    is an array of lookup records of items that are in the cache: a slug of
    the model's reply that names no cached item leaves nothing behind, and
    the model cannot put a hotel of its own making on a card.  The [usage] is
    that of the upstream answer. *)
Theorem chat_cards_come_from_cache :
  forall (JSON_parse : string -> Result JSValue) (c : Cache)
         (data rawResponse : JSValue) (response : HttpResponse),
    chatReply JSON_parse c data rawResponse = Ok response ->
    statusCode response = 200
    /\ prop (body response) "usage" = prop data "usage"
    /\ exists cards : list JSValue,
         prop (body response) "hotels" = JArr cards
         /\ Forall (cardOf c) cards.
Proof.
  intros parse c data raw response H; unfold chatReply in H.
  destruct (parseReply parse raw) as [parsed|e]; cbn [bind] in H;
    [|discriminate].
  destruct (hotelCards c parsed) as [cards|e] eqn:Hcards; cbn [bind] in H;
    [|discriminate].
  injection H as <-.
  split; [reflexivity|split; [reflexivity|]].
  exists cards; split; [reflexivity|].
  unfold hotelCards in Hcards.
  destruct (getProp parsed "hotels") as [listedSlugs|e]; cbn [bind] in Hcards;
    [|discriminate].
  destruct (asArray (listedSlugs ||| JArr [])) as [slugs|e]; cbn [bind] in Hcards;
    [|discriminate].
  destruct (mapR (getHotelBySlug c) slugs) as [found|e] eqn:Hfound;
    cbn [bind] in Hcards; [|discriminate].
  injection Hcards as <-.
  pose proof (mapR_getHotelBySlug c slugs found Hfound) as Hall.
  apply Forall_forall; intros card Hin.
  apply filter_In in Hin; destruct Hin as [Hin Hkeep].
  rewrite Forall_forall in Hall.
  destruct (Hall card Hin) as [-> | Hcard]; [discriminate|exact Hcard].
Qed.

Lemma chat_cards_come_from_cache_witness :
  statusCode (resJson (JObj [("message", JStr "Great pick!");
                             ("hotels", JArr [memmoRecord]);
                             ("mapAction", JNull);
                             ("usage", sampleUsage)])) = 200.
Proof.
  refine (proj1 (chat_cards_come_from_cache jsonParse memmoCache
                   (completion sampleReply) (JStr sampleReply) _ _)).
  vm_compute; reflexivity.
Defined.

Section UnusableReply.

Variable World : Type.
Variable fetch : World -> Request -> World * FetchOutcome.
Variable now : World -> Z.
Variable env : Env.
Variable promptHead promptTail : string.
Variable JSON_parse : string -> Result JSValue.
Variable JSON_stringify : JSValue -> JSValue.


End UnusableReply.


(* ================================================================= *)
(** ** The clean-up before [JSON.parse] *)

Lemma trimStart_part (s : string) : exists a : string, s = a ^^ trimStart s.
Proof.
  induction s as [|ch s [a IH]]; [exists ""; reflexivity|].
  cbn [trimStart]; destruct (isWhiteSpace ch).
  - exists (String ch a); cbn [String.append]; rewrite <- IH; reflexivity.
  - exists ""; reflexivity.
Qed.

Lemma trimEnd_part (s : string) : exists b : string, s = trimEnd s ^^ b.
Proof.
  induction s as [|ch s [b IH]]; [exists ""; reflexivity|].
  cbn [trimEnd].
  destruct (isWhiteSpace ch && (trimEnd s =? ""))%bool.
  - exists (String ch s); reflexivity.
  - exists b; cbn [String.append]; rewrite <- IH; reflexivity.
Qed.

Lemma trim_part (s : string) : partOf (trim s) s.
Proof.
  unfold trim.
  destruct (trimStart_part s) as [a Ha].
  destruct (trimEnd_part (trimStart s)) as [b Hb].
  exists a, b; rewrite <- Hb; exact Ha.
Qed.

Lemma dropStr_part (n : nat) (s : string) : partOf (dropStr n s) s.
Proof.
  exists (takeStr n s), ""; rewrite append_empty_r; symmetry; apply take_drop.
Qed.

Lemma takeStr_part (n : nat) (s : string) : partOf (takeStr n s) s.
Proof.
  exists "", (dropStr n s); cbn [String.append]; symmetry; apply take_drop.
Qed.

(** X18. The text handed to [JSON.parse] is a contiguous part of the model's
    text: the clean-up only removes from the two ends, never adds or changes
    a character, so it is no longer than the text and cleaning it up again
    leaves it trimmed as it is. *)
Theorem clean_up_keeps_a_part_of_the_text :
  forall rawResponse : string,
    partOf (cleanJson rawResponse) rawResponse
    /\ (String.length (cleanJson rawResponse) <= String.length rawResponse)%nat
    /\ trim (cleanJson rawResponse) = cleanJson rawResponse.
Proof.
  intros raw.
  assert (Hpart : partOf (cleanJson raw) raw).
  { unfold cleanJson.
    eapply partOf_trans; [apply trim_part|].
    eapply partOf_trans;
      [|apply (trim_part raw)].
    set (c0 := trim raw).
    assert (H1 : partOf (if startsWith c0 "```json" then sliceFrom 7 c0 else c0) c0).
    { destruct (startsWith c0 "```json");
        [apply dropStr_part|apply partOf_refl]. }
    set (c1 := if startsWith c0 "```json" then sliceFrom 7 c0 else c0) in *.
    assert (H2 : partOf (if startsWith c1 "```" then sliceFrom 3 c1 else c1) c1).
    { destruct (startsWith c1 "```");
        [apply dropStr_part|apply partOf_refl]. }
    set (c2 := if startsWith c1 "```" then sliceFrom 3 c1 else c1) in *.
    assert (H3 : partOf (if endsWith c2 "```" then sliceDropLast 3 c2 else c2) c2).
    { destruct (endsWith c2 "```");
        [apply takeStr_part|apply partOf_refl]. }
    exact (partOf_trans _ _ _ H3 (partOf_trans _ _ _ H2 H1)). }
  split; [exact Hpart|split].
  - apply partOf_length, Hpart.
  - unfold cleanJson; apply trim_idem.
Qed.

(* ================================================================= *)
(** ** Counts across the routes *)

Lemma filter_length_all {A : Type} (p : A -> bool) (xs : list A) :
  (List.length (filter p xs) <= List.length xs)%nat
  /\ (List.length (filter p xs) = List.length xs <-> forallb p xs = true).
Proof.
  induction xs as [|x xs [IHle IHeq]]; cbn [filter forallb List.length].
  - split; [lia|split; reflexivity].
  - destruct (p x); cbn [List.length andb].
    + split; [lia|].
      rewrite <- IHeq; split; lia.
    + split; [lia|].
      split; [lia|discriminate].
Qed.

(** X19. The [hotelCount] of [GET /api/health] and of [GET /api/config] is
    the number of cached items, archived and closed ones included, so
    whenever [GET /api/hotels] answers, its array is never longer than that
    count, and is as long exactly when every cached item is open. *)
Theorem hotel_count_bounds_listing :
  forall (env : Env) (c : Cache) (response : HttpResponse),
    getHotels c = Ok response ->
    prop (body (getHealth c)) "hotelCount"
      = JNum (numOfNat (List.length (hotels c)))
    /\ prop (body (getConfig env c)) "hotelCount"
       = JNum (numOfNat (List.length (hotels c)))
    /\ exists listing : list JSValue,
         response = {| statusCode := 200; body := JArr listing |}
         /\ (List.length listing <= List.length (hotels c))%nat
         /\ (List.length listing = List.length (hotels c)
             <-> forallb open (hotels c) = true).
Proof.
  intros env c response H.
  split; [reflexivity|split; [reflexivity|]].
  unfold getHotels in H; rewrite getAllHotels_listable in H.
  destruct (listable c); cbn [bind] in H; [|discriminate].
  injection H as <-.
  exists (map listingRecord (filter open (hotels c))).
  rewrite length_map.
  split; [reflexivity|apply filter_length_all].
Qed.

Lemma hotel_count_bounds_listing_witness :
  exists listing : list JSValue,
    {| statusCode := 200; body := JArr [listingRecord memmoAlfama] |}
    = {| statusCode := 200; body := JArr listing |}
    /\ (List.length listing <= 2)%nat
    /\ (List.length listing = 2%nat <-> forallb open (hotels mixedCache) = true).
Proof.
  refine (proj2 (proj2 (hotel_count_bounds_listing chatEnv mixedCache
                          {| statusCode := 200;
                             body := JArr [listingRecord memmoAlfama] |} _))).
  vm_compute; reflexivity.
Defined.

(* ================================================================= *)
(** ** The legacy variant *)

(** X20. On a history of chat turns, the legacy route and the current route
    forward the same messages exactly when the history has ten turns or
    fewer: past that the legacy route still forwards every turn. *)
Theorem legacy_forwarding_agrees_up_to_ten_turns :
  forall (stringify : JSValue -> JSValue) (history : list ChatTurn)
         (message : JSValue),
    legacyChatMessages (map turnValue history) message
    = chatMessages stringify (map turnValue history) message
    <-> (List.length history <= 10)%nat.
Proof.
  intros stringify history message.
  rewrite legacy_chat_forwards_whole_history.
  unfold chatMessages.
  rewrite sliceLast_map.
  rewrite (mapR_map_ok (forwardTurn stringify) turnValue turnValue)
    by apply forwardTurn_turnValue.
  cbn [bind]; split.
  - intros H; injection H as H.
    apply app_inv_tail in H.
    apply (f_equal (@List.length JSValue)) in H.
    rewrite !length_map, sliceLast_length in H; lia.
  - intros H; rewrite (sliceLast_short 10 history H); reflexivity.
Qed.

Lemma filter_length_le' {A : Type} (p : A -> bool) (xs : list A) :
  (List.length (filter p xs) <= List.length xs)%nat.
Proof. apply filter_length_all. Qed.

(** X21. Every marker the legacy markers route answers with has a truthy
    [lat] and a truthy [lng], there are no more markers than open items in
    the cache, and a marker carries the field values as they are stored: its
    coordinates are not parsed, so a coordinate stored as the text ["0"]
    passes where the listing of the current server gives [null]. *)
Theorem markers_carry_raw_coordinates :
  forall (c : Cache) (out : HttpResponse),
    getMarkers c = Ok out ->
    (exists markers : list JSValue,
       out = resJson (JArr markers)
       /\ Forall (fun m => truthy (prop m "lat") = true
                           /\ truthy (prop m "lng") = true) markers
       /\ (List.length markers <= List.length (filter open (hotels c)))%nat)
    /\ (forall f : JSValue,
          prop (markerRecord (asItem f)) "lat" = latSource f
          /\ prop (markerRecord (asItem f)) "lng" = lngSource f
          /\ hasCoordinates (markerRecord (asItem f))
             = truthy (latSource f) && truthy (lngSource f)).
Proof.
  intros c out H; split.
  - unfold getMarkers in H.
    destruct (filterR listed (hotels c)) as [kept|e] eqn:F; cbn [bind] in H;
      [|discriminate].
    injection H as <-.
    rewrite (filterR_listed _ _ F).
    eexists; split; [reflexivity|split].
    + apply Forall_forall; intros m Hin.
      apply filter_In in Hin; destruct Hin as [_ Hm].
      unfold hasCoordinates in Hm; rewrite truthy_jand in Hm.
      apply andb_true_iff in Hm; exact Hm.
    + eapply Nat.le_trans; [apply filter_length_le'|].
      rewrite length_map; apply Nat.le_refl.
  - intros f; repeat split.
    unfold hasCoordinates; rewrite truthy_jand; reflexivity.
Qed.

Lemma markers_carry_raw_coordinates_witness :
  exists markers : list JSValue,
    resJson (JArr [equatorMarker]) = resJson (JArr markers)
    /\ Forall (fun m => truthy (prop m "lat") = true
                        /\ truthy (prop m "lng") = true) markers
    /\ (List.length markers
        <= List.length (filter open (hotels equatorCache)))%nat.
Proof.
  refine (proj1 (markers_carry_raw_coordinates equatorCache
                   (resJson (JArr [equatorMarker])) _)).
  vm_compute; reflexivity.
Defined.




(** X23. The age [GET /api/cms/stats] reports is the one the chat route
    judges the cache by: the cache is stale exactly when that age is [null]
    (no stamp yet) or above the cache duration of 1,800,000 ms. *)
Theorem stats_age_decides_staleness :
  forall (World : Type) (now : World -> Z) (s : State World),
    exists response : HttpResponse,
      getStats World now s = Some (s, Ok response)
      /\ prop (body response) "cacheAge"
         = timestamp (cacheAge (cache World s) (now (world World s)))
      /\ isStale (cache World s) (now (world World s))
         = match cacheAge (cache World s) (now (world World s)) with
           | Some age => (1800000 <? age)%Z
           | None => true
           end.
Proof.
  intros World now s; eexists; split; [reflexivity|split; [reflexivity|]].
  unfold isStale, cacheAge.
  destruct (lastFetch (cache World s)) as [last|]; [|reflexivity].
  destruct (last =? 0)%Z; reflexivity.
Qed.

Section LegacyOutcomes.

Variable World : Type.
Variable fetch : World -> Request -> World * FetchOutcome.
Variable now : World -> Z.
Variable env : Env.
Variable bullet : string.
Variable legacyBasePrompt legacyPromptTail : string.

(** X24. With the credential set, a message, a fresh cache and an upstream
    answer of status ok whose body has a first content block, the legacy chat
    route answers 200 with the text of that block as [response], taken as it
    is, and with ['I couldn't generate a response.'] when the block has no
    text or an empty one: the [response] of the legacy route is never
    empty. *)
Theorem legacy_chat_passes_text_on :
  forall (fuel : nat) (message history : JSValue) (s : State World)
         (turns messages : list JSValue) (system : string) (w' : World)
         (st : nat) (data content first : JSValue),
    truthy (ANTHROPIC_API_KEY env) = true ->
    truthy message = true ->
    isStale (cache World s) (now (world World s)) = false ->
    historyOf history = Ok turns ->
    legacyChatMessages turns message = Ok messages ->
    legacyBuildSystemPrompt bullet legacyBasePrompt legacyPromptTail
      (cache World s) = Ok system ->
    fetch (world World s)
      (CreateMessage (toString (ANTHROPIC_API_KEY env))
         "claude-sonnet-4-20250514" 1024 system messages)
      = (w', Responded {| ok := true; status := st; json := Ok data |}) ->
    getProp data "content" = Ok content ->
    index0 content = Ok first ->
    legacyPostChat World fetch now env bullet legacyBasePrompt legacyPromptTail
      fuel message history s
    = Some ({| world := w'; cache := cache World s |},
            Ok (legacyAnswer data first))
    /\ truthy (prop (body (legacyAnswer data first)) "response") = true
    /\ (truthy (optProp first "text") = false ->
        prop (body (legacyAnswer data first)) "response" = JStr noResponse).
Proof.
  intros fuel message history s turns messages system w' st data content first
         Hkey Hmsg Hfresh Hhist Hmessages Hsystem Hfetch Hcontent Hfirst.
  split; [|split].
  - unfold legacyPostChat; rewrite Hkey, Hmsg; cbn [negb].
    unfold tryCatch, bindT, getCache, dateNow, awaitFetch, awaitJson, liftR, ret.
    rewrite Hfresh, Hhist, Hmessages; cbn [world cache].
    rewrite Hsystem, Hfetch; cbn [ok negb json].
    rewrite Hcontent, Hfirst; reflexivity.
  - apply truthy_default; reflexivity.
  - intros Hnone; apply jor_falsy; exact Hnone.
Qed.

Lemma legacyPostChat_never_throws :
  forall (fuel : nat) (message history : JSValue) (s s' : State World)
         (r : Result HttpResponse),
    legacyPostChat World fetch now env bullet legacyBasePrompt legacyPromptTail
      fuel message history s = Some (s', r) ->
    exists response : HttpResponse, r = Ok response.
Proof.
  intros fuel message history s s' r H; unfold legacyPostChat in H.
  destruct (negb (truthy (ANTHROPIC_API_KEY env))).
  { injection H as _ <-; eexists; reflexivity. }
  destruct (negb (truthy message)).
  { injection H as _ <-; eexists; reflexivity. }
  unfold tryCatch in H.
  match type of H with
  | match ?t s with _ => _ end = _ => destruct (t s) as [[s1 [resp|e]]|]
  end.
  - injection H as _ <-; eexists; reflexivity.
  - injection H as _ <-; eexists; reflexivity.
  - discriminate.
Qed.

(** X25. The legacy chat route, too, throws in one case only: with the
    credential set and a request without a parsed body, the destructuring of
    the body throws a [TypeError] before anything is done.  In every other
    case the handler, when it comes to an end, has produced a response. *)
Theorem legacy_chat_route_throws_only_without_body :
  forall (fuel : nat) (body : JSValue) (s s' : State World)
         (r : Result HttpResponse),
    legacyChatRoute World fetch now env bullet legacyBasePrompt
      legacyPromptTail fuel body s = Some (s', r) ->
    (exists response : HttpResponse, r = Ok response)
    \/ (r = Throw TypeError /\ s' = s
        /\ truthy (ANTHROPIC_API_KEY env) = true /\ nullish body = true).
Proof.
  intros fuel body s s' r H; unfold legacyChatRoute in H.
  destruct (truthy (ANTHROPIC_API_KEY env)) eqn:Hkey; cbn [negb] in H.
  - unfold bindT at 1, liftR at 1, getProp in H.
    destruct (nullish body) eqn:Hbody.
    + injection H as <- <-; right; auto.
    + unfold bindT at 1, liftR at 1 in H.
      left; exact (legacyPostChat_never_throws _ _ _ _ _ _ H).
  - injection H as _ <-; left; eexists; reflexivity.
Qed.

End LegacyOutcomes.

Lemma legacy_chat_passes_text_on_witness :
  legacyPostChat unit (answering "") sampleClock chatEnv "*" "BASE" "TAIL" 0
    (JStr "Somewhere in Alfama?") JUndefined
    {| world := tt; cache := memmoCache |}
  = Some ({| world := tt; cache := memmoCache |},
          Ok (resJson (JObj [("response", JStr noResponse);
                             ("usage", sampleUsage)]))).
Proof.
  refine (proj1 (legacy_chat_passes_text_on unit (answering "") sampleClock
                   chatEnv "*" "BASE" "TAIL" 0 (JStr "Somewhere in Alfama?")
                   JUndefined {| world := tt; cache := memmoCache |}
                   [] _ _ tt 200 (completion "")
                   (JArr [JObj [("type", JStr "text"); ("text", JStr "")]])
                   (JObj [("type", JStr "text"); ("text", JStr "")])
                   _ _ _ _ _ _ _ _ _)).
  - reflexivity.
  - reflexivity.
  - reflexivity.
  - reflexivity.
  - reflexivity.
  - vm_compute; reflexivity.
  - reflexivity.
  - reflexivity.
  - reflexivity.
Defined.

Lemma legacy_chat_route_throws_only_without_body_witness :
  (exists response : HttpResponse,
     @Throw HttpResponse TypeError = Ok response)
  \/ (@Throw HttpResponse TypeError = Throw TypeError
      /\ {| world := tt; cache := memmoCache |}
         = {| world := tt; cache := memmoCache |}
      /\ truthy (ANTHROPIC_API_KEY chatEnv) = true
      /\ nullish JUndefined = true).
Proof.
  refine (legacy_chat_route_throws_only_without_body unit (answering "")
            sampleClock chatEnv "*" "BASE" "TAIL" 0 JUndefined
            {| world := tt; cache := memmoCache |}
            {| world := tt; cache := memmoCache |} (Throw TypeError) _).
  vm_compute; reflexivity.
Defined.

(* ================================================================= *)
(** ** The chat route when no refresh is due *)

Section ChatWithoutRefresh.

Variable World : Type.
Variable fetch : World -> Request -> World * FetchOutcome.
Variable now : World -> Z.
Variable env : Env.
Variable promptHead promptTail : string.
Variable JSON_parse : string -> Result JSValue.
Variable JSON_stringify : JSValue -> JSValue.

Lemma refresh_step_skipped (fuel : nat) (s : State World) :
  isStale (cache World s) (now (world World s)) = false
  \/ truthy (WEBFLOW_API_TOKEN env) = false ->
  (if isStale (cache World s) (now (world World s))
   then refreshCMSCache World fetch now env fuel
   else ret World tt) s
  = Some (s, Ok tt).
Proof.
  intros [H|H].
  - rewrite H; reflexivity.
  - unfold refreshCMSCache; rewrite H; cbn [negb].
    destruct (isStale (cache World s) (now (world World s))); reflexivity.
Qed.

Lemma postChat_answers_without_refresh :
  forall (fuel : nat) (message history : JSValue) (s : State World),
    isStale (cache World s) (now (world World s)) = false
    \/ truthy (WEBFLOW_API_TOKEN env) = false ->
    exists (s' : State World) (response : HttpResponse),
      postChat World fetch now env promptHead promptTail JSON_parse
        JSON_stringify fuel message history s
      = Some (s', Ok response)
      /\ cache World s' = cache World s.
Proof.
  intros fuel message history s H; unfold postChat.
  destruct (negb (truthy (ANTHROPIC_API_KEY env)));
    [do 2 eexists; split; reflexivity|].
  destruct (negb (truthy message));
    [do 2 eexists; split; reflexivity|].
  unfold tryCatch.
  unfold bindT at 1, getCache at 1.
  unfold bindT at 1, dateNow at 1.
  unfold bindT at 1.
  rewrite (refresh_step_skipped fuel s H).
  unfold bindT, getCache, awaitFetch, awaitJson, liftR, ret.
  destruct (historyOf history) as [turns|e];
    [|do 2 eexists; split; reflexivity].
  destruct (chatRequest env promptHead promptTail JSON_stringify
              (cache World s) turns message) as [req|e];
    [|do 2 eexists; split; reflexivity].
  destruct (fetch (world World s) req) as [w' [|r]];
    [do 2 eexists; split; reflexivity|].
  cbn [world cache].
  destruct (negb (ok r)).
  - destruct (json r) as [errorData|e];
      [|do 2 eexists; split; reflexivity].
    destruct (getProp errorData "error") as [err|e];
      do 2 eexists; split; reflexivity.
  - destruct (json r) as [data|e];
      [|do 2 eexists; split; reflexivity].
    destruct (getProp data "content") as [content|e];
      [|do 2 eexists; split; reflexivity].
    destruct (index0 content) as [first|e];
      [|do 2 eexists; split; reflexivity].
    cbn [cache].
    destruct (chatReply JSON_parse (cache World s) data
                (optProp first "text" ||| JStr "")) as [response|e];
      do 2 eexists; split; reflexivity.
Qed.

(** X26. When no refresh is due, because the cache is fresh or because the
    CMS credential is not configured, the chat route answers every request
    that has a parsed body, and every request at all when the chat-completion
    credential is missing, with a response, whatever the history, the network
    and the model's text are, and leaves the cache as it was; the paging loop
    is never entered. *)
Theorem chat_answers_when_no_refresh_is_due :
  forall (fuel : nat) (body : JSValue) (s : State World),
    isStale (cache World s) (now (world World s)) = false
    \/ truthy (WEBFLOW_API_TOKEN env) = false ->
    nullish body = false \/ truthy (ANTHROPIC_API_KEY env) = false ->
    exists (s' : State World) (response : HttpResponse),
      chatRoute World fetch now env promptHead promptTail JSON_parse
        JSON_stringify fuel body s
      = Some (s', Ok response)
      /\ cache World s' = cache World s.
Proof.
  intros fuel body s Hdue [Hbody|Hkey].
  - rewrite (chatRoute_object World fetch now env promptHead promptTail
               JSON_parse JSON_stringify fuel body s Hbody).
    apply postChat_answers_without_refresh; exact Hdue.
  - unfold chatRoute; rewrite Hkey; cbn [negb].
    do 2 eexists; split; reflexivity.
Qed.

End ChatWithoutRefresh.

Lemma chat_answers_when_no_refresh_is_due_witness :
  exists (s' : State unit) (response : HttpResponse),
    chatRoute unit offline sampleClock chatEnv "" "" jsonParse jsonStringify 0
      (JObj [("message", JStr "Somewhere in Alfama?")])
      {| world := tt; cache := cmsCache0 |}
    = Some (s', Ok response)
    /\ cache unit s' = cmsCache0.
Proof.
  refine (chat_answers_when_no_refresh_is_due unit offline sampleClock chatEnv
            "" "" jsonParse jsonStringify 0
            (JObj [("message", JStr "Somewhere in Alfama?")])
            {| world := tt; cache := cmsCache0 |} _ _).
  - right; reflexivity.
  - left; reflexivity.
Defined.
